(** * Kittu's Universe: the tea-lounge conversational pipeline

    A shallow embedding of the backend modules of the repository
    (fact learner, memory bank, conflict resolver, session manager and
    the response engine's post-processing), with the properties the
    specification states about them.

    Conventions of the embedding.
    - JavaScript strings are [string]s of 8-bit characters; [toLowerCase]
      acts on the letters A-Z.
    - JavaScript numbers that carry a confidence, a similarity or an age
      are rationals ([Q]), with exact arithmetic; where the code adds or
      divides such numbers, what is stated holds up to the rounding of
      binary64.  [Date]s are their millisecond time value ([Z]); a
      [Date] computed from an age is an [option Z], [None] being the
      Invalid Date, with which every comparison is false.
    - [Date.now()] is an explicit argument [now] of every operation that
      reads the clock (read once per call); counters are explicit state.
    - [Map<string, V>] is [gmap string V], [Set<string>] is [gset string];
      a plain object used as a dictionary is a [gmap] of its own
      properties, and where the code fills one key by key the names it
      inherits from [Object.prototype] behave as they do there
      ([Js.inherited]).  A loop
      over a map or over [Object.entries] runs through [map_to_list]; the
      source runs in insertion order, and no statement below depends on
      the order.
    - Entries and conflicts hold facts by value.  The one assignment to a
      shared fact ([newFact.confidence = 0.2] in [resolveConflict]) is
      followed by storing that fact under its own id. *)

From Stdlib Require Import ZArith QArith String Ascii List Bool Lia Lqa Sorted.
From stdpp Require Import base option list gmap strings pretty fin_maps fin_sets.

Local Open Scope string_scope.
Local Open Scope Z_scope.

(** ** JavaScript strings *)

Module Js.

Definition is_upper (c : ascii) : bool :=
  let n := nat_of_ascii c in (65 <=? n)%nat && (n <=? 90)%nat.

Definition lower_char (c : ascii) : ascii :=
  if is_upper c then ascii_of_nat (nat_of_ascii c + 32) else c.

Definition is_lower (c : ascii) : bool :=
  let n := nat_of_ascii c in (97 <=? n)%nat && (n <=? 122)%nat.

Definition upper_char (c : ascii) : ascii :=
  if is_lower c then ascii_of_nat (nat_of_ascii c - 32) else c.

(** [String.prototype.toLowerCase] *)
Fixpoint toLowerCase (s : string) : string :=
  match s with
  | EmptyString => EmptyString
  | String c s' => String (lower_char c) (toLowerCase s')
  end.

(** [s.startsWith(t)] *)
Fixpoint startsWith (s t : string) : bool :=
  match t, s with
  | EmptyString, _ => true
  | String _ _, EmptyString => false
  | String b t', String a s' => if Ascii.eqb a b then startsWith s' t' else false
  end.

(** [s.includes(t)] *)
Fixpoint includes (s t : string) : bool :=
  startsWith s t ||
  match s with
  | EmptyString => false
  | String _ s' => includes s' t
  end.

(** [s.split(sep)] for a one-character separator; the result is never empty. *)
Fixpoint split (sep : ascii) (s : string) : list string :=
  match s with
  | EmptyString => [EmptyString]
  | String c s' =>
      if Ascii.eqb c sep then EmptyString :: split sep s'
      else match split sep s' with
           | [] => [String c EmptyString]
           | w :: ws => String c w :: ws
           end
  end.

Definition space : ascii := " "%char.

Definition is_space (c : ascii) : bool :=
  let n := nat_of_ascii c in ((9 <=? n)%nat && (n <=? 13)%nat) || (n =? 32)%nat.

Fixpoint trimStart (s : string) : string :=
  match s with
  | String c s' => if is_space c then trimStart s' else s
  | EmptyString => EmptyString
  end.

Fixpoint trimEnd (s : string) : string :=
  match s with
  | EmptyString => EmptyString
  | String c s' =>
      match trimEnd s' with
      | EmptyString => if is_space c then EmptyString else String c EmptyString
      | t => String c t
      end
  end.

(** [s.trim()] *)
Definition trim (s : string) : string := trimEnd (trimStart s).

(** [xs.includes(x)] on an array of strings *)
Definition arr_includes (xs : list string) (x : string) : bool :=
  existsb (String.eqb x) xs.

(** [s.substring(0, n)] *)
Fixpoint take (n : nat) (s : string) : string :=
  match n, s with
  | S n', String c s' => String c (take n' s')
  | _, _ => EmptyString
  end.

Fixpoint drop (n : nat) (s : string) : string :=
  match n, s with
  | S n', String _ s' => drop n' s'
  | _, _ => s
  end.

(** [s.replace(pat, rep)] with a string pattern: the first occurrence only. *)
Fixpoint replace (s pat rep : string) : string :=
  if startsWith s pat then rep ++ drop (String.length pat) s
  else match s with
       | EmptyString => EmptyString
       | String c s' => String c (replace s' pat rep)
       end.

(** [xs.pop()] of a non-empty array of strings, [undefined] rendered by
    template interpolation otherwise. *)
Definition pop (xs : list string) : string :=
  List.last xs "undefined".

(** The property names every plain object [{}] inherits from
    [Object.prototype].  Reading [obj[key]] for such a key finds the
    inherited value (a function, or the prototype itself for
    ["__proto__"]), which is truthy, although [obj] has no own property
    of that name. *)
Definition objectPrototypeKeys : list string :=
  ["constructor"; "__defineGetter__"; "__defineSetter__"; "hasOwnProperty";
   "__lookupGetter__"; "__lookupSetter__"; "isPrototypeOf"; "propertyIsEnumerable";
   "toString"; "valueOf"; "__proto__"; "toLocaleString"].

Definition inherited (key : string) : bool := arr_includes objectPrototypeKeys key.

(** The largest time value of a [Date], in milliseconds either side of
    the epoch; [new Date(x)] beyond it is an invalid date. *)
Definition maxTime : Z := 8640000000000000.

Definition validTime (t : Z) : bool := (Z.abs t <=? maxTime)%Z.

End Js.

(** ** Regular expressions

    The patterns of the source are ECMAScript regular expressions.  They
    are embedded as syntax trees and run by a backtracking matcher with
    the priorities of the language: alternatives left to right, greedy
    repetition.  Capture groups are not recorded: the source only reads
    the whole match ([match[0]]) or tests for one. *)

Module Regex.

Inductive cls : Type :=
| COne (c : ascii)
| CRange (lo hi : ascii)
| CSpace                       (* \s *)
| CDigit.                      (* \d *)

Inductive regex : Type :=
| REps
| RChar (c : ascii)
| RAny                         (* . *)
| RClass (neg : bool) (items : list cls)
| RWordB                       (* \b *)
| RBol                         (* ^ *)
| REol                         (* $ *)
| RSeq (r1 r2 : regex)
| RAlt (r1 r2 : regex)
| RStar (r : regex).

Definition RPlus (r : regex) : regex := RSeq r (RStar r).
Definition ROpt (r : regex) : regex := RAlt r REps.

(** a literal word *)
Fixpoint RLit (s : string) : regex :=
  match s with
  | EmptyString => REps
  | String c EmptyString => RChar c
  | String c s' => RSeq (RChar c) (RLit s')
  end.

(** [(w1|w2|...)] over literal words *)
Fixpoint ROneOf (ws : list string) : regex :=
  match ws with
  | [] => RClass false []
  | [w] => RLit w
  | w :: ws' => RAlt (RLit w) (ROneOf ws')
  end.

Fixpoint RSeqs (rs : list regex) : regex :=
  match rs with
  | [] => REps
  | [r] => r
  | r :: rs' => RSeq r (RSeqs rs')
  end.

Definition is_space := Js.is_space.

Definition is_digit (c : ascii) : bool :=
  let n := nat_of_ascii c in (48 <=? n)%nat && (n <=? 57)%nat.

Definition is_word_char (c : ascii) : bool :=
  let n := nat_of_ascii c in
  ((97 <=? n)%nat && (n <=? 122)%nat) || ((65 <=? n)%nat && (n <=? 90)%nat)
  || is_digit c || (n =? 95)%nat.

Definition is_line_terminator (c : ascii) : bool :=
  let n := nat_of_ascii c in (n =? 10)%nat || (n =? 13)%nat.

Definition canon (ci : bool) (c : ascii) : ascii :=
  if ci then Js.lower_char c else c.

Definition cls_matches (ci : bool) (c : ascii) (i : cls) : bool :=
  match i with
  | COne d => Ascii.eqb (canon ci c) (canon ci d)
  | CRange lo hi =>
      let inr (x : ascii) :=
        (nat_of_ascii lo <=? nat_of_ascii x)%nat && (nat_of_ascii x <=? nat_of_ascii hi)%nat in
      inr c || (ci && (inr (Js.lower_char c) || inr (Js.upper_char c)))
  | CSpace => is_space c
  | CDigit => is_digit c
  end.

Definition at_word_boundary (prev : option ascii) (s : string) : bool :=
  let a := match prev with Some c => is_word_char c | None => false end in
  let b := match s with String c _ => is_word_char c | EmptyString => false end in
  xorb a b.

(** [rmatch ci r prev s k]: match [r] at the front of [s] (the character
    before it is [prev]) and hand what is left to the continuation [k];
    [None] makes the matcher backtrack. *)
Fixpoint rmatch {A : Type} (ci : bool) (r : regex) (prev : option ascii) (s : string)
    (k : option ascii -> string -> option A) : option A :=
  match r with
  | REps => k prev s
  | RChar c =>
      match s with
      | String a s' => if Ascii.eqb (canon ci a) (canon ci c) then k (Some a) s' else None
      | EmptyString => None
      end
  | RAny =>
      match s with
      | String a s' => if is_line_terminator a then None else k (Some a) s'
      | EmptyString => None
      end
  | RClass neg items =>
      match s with
      | String a s' =>
          if xorb neg (existsb (cls_matches ci a) items) then k (Some a) s' else None
      | EmptyString => None
      end
  | RWordB => if at_word_boundary prev s then k prev s else None
  | RBol => match prev with None => k prev s | Some _ => None end
  | REol => match s with EmptyString => k prev s | String _ _ => None end
  | RSeq r1 r2 => rmatch ci r1 prev s (fun p s' => rmatch ci r2 p s' k)
  | RAlt r1 r2 =>
      match rmatch ci r1 prev s k with
      | Some x => Some x
      | None => rmatch ci r2 prev s k
      end
  | RStar r' =>
      (fix loop (fuel : nat) (p : option ascii) (t : string) {struct fuel} : option A :=
         match fuel with
         | O => k p t
         | S fuel' =>
             match rmatch ci r' p t
                     (fun p' t' =>
                        if (String.length t' <? String.length t)%nat
                        then loop fuel' p' t' else None) with
             | Some x => Some x
             | None => k p t
             end
         end) (String.length s) prev s
  end.

(** The match of [r] that starts exactly at the front of [s]: the
    matched text. *)
Definition match_here (ci : bool) (r : regex) (prev : option ascii) (s : string) : option string :=
  rmatch ci r prev s
    (fun _ rest => Some (Js.take (String.length s - String.length rest) s)).

(** [s.match(r)[0]] for a pattern without the [g] flag: the leftmost match. *)
Fixpoint exec_from (ci : bool) (r : regex) (prev : option ascii) (s : string) : option string :=
  match match_here ci r prev s with
  | Some m => Some m
  | None =>
      match s with
      | EmptyString => None
      | String c s' => exec_from ci r (Some c) s'
      end
  end.

Definition exec (ci : bool) (r : regex) (s : string) : option string :=
  exec_from ci r None s.

(** [r.test(s)] *)
Definition test (ci : bool) (r : regex) (s : string) : bool :=
  match exec ci r s with Some _ => true | None => false end.

End Regex.

(** ** Numbers *)

Module Num.

Local Open Scope Q_scope.

Definition ltb (a b : Q) : bool := negb (Qle_bool b a).
Definition leb (a b : Q) : bool := Qle_bool a b.
Definition gtb (a b : Q) : bool := ltb b a.
Definition geb (a b : Q) : bool := leb b a.

(** [Math.min], [Math.max] *)
Definition min (a b : Q) : Q := if leb a b then a else b.
Definition max (a b : Q) : Q := if leb a b then b else a.

(** [Math.max(...xs)] of a non-empty array *)
Definition max_list (x : Q) (xs : list Q) : Q := fold_left max xs x.

End Num.

(** ** The fact learner (real-time-fact-learner.ts) *)

Record LearnedFact : Type := mkFact {
  f_id : string;
  f_content : string;
  f_category : string;
  f_confidence : Q;
  f_timestamp : Z;
  f_source : string;
  f_verified : bool
}.

(** The seven categories of the [category] union type.  At run time the
    field holds a string: [importKnowledge] casts snapshot keys to it. *)
Definition categories : list string :=
  ["personal"; "relationship"; "preferences"; "emotions"; "plans"; "interests"; "concerns"].

Record FactExtractionResult : Type := mkExtraction {
  r_facts : list LearnedFact;
  r_confidence : Q;
  r_needsVerification : list LearnedFact
}.

(** One element of [parsed.facts] in the model's JSON answer, with
    fields of the types the prompt asks for. *)
Record FactData : Type := mkFactData {
  d_content : string;
  d_category : string;
  d_confidence : Q;
  d_needsVerification : bool
}.

(** What [model.generateContent] followed by [JSON.parse] comes to:
    the call throws, the text holds no JSON object that parses, or it
    parses to an object whose [facts] array is the given list (the empty
    list when the key is missing or is not an array).  An element of the
    array is [None] when it is [null]. *)
Inductive ModelOutcome : Type :=
| ModelError
| ModelUnparsable
| ModelParsed (facts : list (option FactData)).

Module RealTimeFactLearner.

Import Regex.

(** [generateFactId]: the counter is incremented before it is read. *)
Definition generateFactId (now : Z) (factCounter : nat) : string * nat :=
  ("fact_" ++ pretty now ++ "_" ++ pretty (S factCounter), S factCounter).

Record FallbackPattern : Type := mkPattern {
  p_pattern : regex;
  p_category : string;
  p_template : string -> string
}.

Definition fallbackPatterns : list FallbackPattern :=
  [ (* /going.*(date|dinner|out).*(vahant|with him)/i *)
    mkPattern
      (RSeqs [RLit "going"; RStar RAny; ROneOf ["date"; "dinner"; "out"];
              RStar RAny; ROneOf ["vahant"; "with him"]])
      "plans"
      (fun _ => "Plans to go on date with Vahant");
    (* /wearing.*(dress|outfit|clothes)/i *)
    mkPattern
      (RSeqs [RLit "wearing"; RStar RAny; ROneOf ["dress"; "outfit"; "clothes"]])
      "preferences"
      (fun m => "Outfit choice: " ++ m);
    (* /feel(ing)?\s+(sad|happy|excited|nervous|angry)/i *)
    mkPattern
      (RSeqs [RLit "feel"; ROpt (RLit "ing"); RPlus (RClass false [CSpace]);
              ROneOf ["sad"; "happy"; "excited"; "nervous"; "angry"]])
      "emotions"
      (fun m => "Current emotion: " ++ Js.pop (Js.split Js.space m));
    (* /going\s+to\s+([^.!?]+)/i *)
    mkPattern
      (RSeqs [RLit "going"; RPlus (RClass false [CSpace]); RLit "to";
              RPlus (RClass false [CSpace]);
              RPlus (RClass true [COne "."%char; COne "!"%char; COne "?"%char])])
      "plans"
      (fun m => "Plans to visit: " ++ Js.replace m "going to " "") ].

(** The body of [patterns.forEach]: one fact per pattern that matches. *)
Fixpoint applyPatterns (now : Z) (message : string) (ps : list FallbackPattern)
    (factCounter : nat) : list LearnedFact * nat :=
  match ps with
  | [] => ([], factCounter)
  | p :: ps' =>
      match exec true (p_pattern p) message with
      | Some m =>
          let '(i, c1) := generateFactId now factCounter in
          let fact := mkFact i (p_template p m) (p_category p) 0.7%Q now message true in
          let '(rest, c2) := applyPatterns now message ps' c1 in
          (fact :: rest, c2)
      | None => applyPatterns now message ps' factCounter
      end
  end.

Definition fallbackFactExtraction (now : Z) (factCounter : nat) (message : string)
    : FactExtractionResult * nat :=
  let '(facts, c) := applyPatterns now message fallbackPatterns factCounter in
  (mkExtraction facts (if (0 <? length facts)%nat then 0.7%Q else 0%Q) [], c).

(** The loop of [parseFactExtractionResponse] over [parsed.facts].
    Reading [factData.confidence] of a [null] element throws: the loop
    ends there, with [None] for the two arrays, and the counter keeps
    the ids drawn so far. *)
Fixpoint parseFacts (now : Z) (originalMessage : string) (ds : list (option FactData))
    (factCounter : nat) : option (list LearnedFact * list LearnedFact) * nat :=
  match ds with
  | [] => (Some ([], []), factCounter)
  | None :: _ => (None, factCounter)
  | Some d :: ds' =>
      if Num.geb (d_confidence d) 0.5%Q then
        let '(i, c1) := generateFactId now factCounter in
        let fact := mkFact i (d_content d) (d_category d) (d_confidence d) now
                           originalMessage (negb (d_needsVerification d)) in
        match parseFacts now originalMessage ds' c1 with
        | (Some (facts, nv), c2) =>
            (Some (fact :: facts, if d_needsVerification d then fact :: nv else nv), c2)
        | (None, c2) => (None, c2)
        end
      else parseFacts now originalMessage ds' factCounter
  end.

(** [parsed] is [None] when the answer holds no JSON object that parses.
    The [catch] block turns an exception of the loop into the pattern
    fallback, which draws its ids after those of the loop. *)
Definition parseFactExtractionResponse (now : Z) (factCounter : nat)
    (parsed : option (list (option FactData))) (originalMessage : string)
    : FactExtractionResult * nat :=
  match parsed with
  | None => fallbackFactExtraction now factCounter originalMessage
  | Some ds =>
      match parseFacts now originalMessage ds factCounter with
      | (Some (facts, nv), c) =>
          (mkExtraction facts
             (match map f_confidence facts with
              | [] => 0%Q
              | x :: xs => Num.max_list x xs
              end) nv, c)
      | (None, c) => fallbackFactExtraction now c originalMessage
      end
  end.

Definition simplePatterns : list regex :=
  [ (* /^(hi|hello|hey|yes|no|ok|okay|thanks|bye)$/i *)
    RSeqs [RBol; ROneOf ["hi"; "hello"; "hey"; "yes"; "no"; "ok"; "okay"; "thanks"; "bye"]; REol];
    (* /^[a-z]{1,3}$/i *)
    (let az := RClass false [CRange "a"%char "z"%char] in
     RSeqs [RBol; az; ROpt (RSeq az (ROpt az)); REol]);
    (* /^(lol|haha|omg|wow)$/i *)
    RSeqs [RBol; ROneOf ["lol"; "haha"; "omg"; "wow"]; REol] ].

Definition isSimpleMessage (message : string) : bool :=
  existsb (fun p => test true p (Js.trim message)) simplePatterns.

Definition extractFacts (now : Z) (factCounter : nat) (model : ModelOutcome)
    (message : string) : FactExtractionResult * nat :=
  if isSimpleMessage message then (mkExtraction [] 1%Q [], factCounter)
  else match model with
       | ModelError => fallbackFactExtraction now factCounter message
       | ModelUnparsable => parseFactExtractionResponse now factCounter None message
       | ModelParsed ds => parseFactExtractionResponse now factCounter (Some ds) message
       end.

End RealTimeFactLearner.

(** ** The conflict resolver (conflict-resolver.ts) *)

Inductive ConflictType : Type := Contradiction | Inconsistency | Ambiguity | Temporal.
Inductive Severity : Type := Low | Medium | High.
Inductive Resolution : Type := Update | Ignore | Clarify | Merge.

Record ConflictInfo : Type := mkConflict {
  c_conflictId : string;
  c_newFact : LearnedFact;
  c_existingFact : LearnedFact;
  c_conflictType : ConflictType;
  c_severity : Severity;
  c_clarificationQuestion : string;
  c_suggestedResolution : Resolution
}.

Record ConflictResolutionResult : Type := mkResolution {
  conflicts : list ConflictInfo;
  hasConflicts : bool;
  needsImmediateAttention : list ConflictInfo;
  autoResolvable : list ConflictInfo
}.

Definition ConflictType_eqb (a b : ConflictType) : bool :=
  match a, b with
  | Contradiction, Contradiction | Inconsistency, Inconsistency
  | Ambiguity, Ambiguity | Temporal, Temporal => true
  | _, _ => false
  end.

Definition Severity_eqb (a b : Severity) : bool :=
  match a, b with
  | Low, Low | Medium, Medium | High, High => true
  | _, _ => false
  end.

Definition Resolution_eqb (a b : Resolution) : bool :=
  match a, b with
  | Update, Update | Ignore, Ignore | Clarify, Clarify | Merge, Merge => true
  | _, _ => false
  end.

(** The exported snapshot: category -> id -> content. *)
Abbreviation Knowledge := (gmap string (gmap string string)).

Module ConflictResolver.

Import Regex.

Definition generateConflictId (now : Z) (conflictCounter : nat) : string :=
  "conflict_" ++ pretty now ++ "_" ++ pretty (S conflictCounter).

(** [words.some(word => text.includes(word))] *)
Definition some_included (words : list string) (text : string) : bool :=
  existsb (Js.includes text) words.

Definition findCommonTerms (text1 text2 : string) : list string :=
  let words1 := filter (fun w => (3 <? String.length w)%nat = true) (Js.split Js.space text1) in
  let words2 := filter (fun w => (3 <? String.length w)%nat = true) (Js.split Js.space text2) in
  filter (fun word => Js.arr_includes words2 word = true) words1.

Definition timePatterns : list regex :=
  [ RSeqs [RWordB; ROneOf ["today"; "tomorrow"; "tonight"; "this evening"]; RWordB];
    RSeqs [RWordB; ROneOf ["monday"; "tuesday"; "wednesday"; "thursday"; "friday";
                           "saturday"; "sunday"]; RWordB];
    (* /\b(\d{1,2})(st|nd|rd|th)\b/i *)
    RSeqs [RWordB; RClass false [CDigit]; ROpt (RClass false [CDigit]);
           ROneOf ["st"; "nd"; "rd"; "th"]; RWordB];
    RSeqs [RWordB; ROneOf ["next week"; "this week"; "next month"]; RWordB] ].

Fixpoint firstTimeMatch (ps : list regex) (text : string) : option string :=
  match ps with
  | [] => None
  | p :: ps' =>
      match exec true p text with
      | Some m => Some (Js.toLowerCase m)
      | None => firstTimeMatch ps' text
      end
  end.

Definition extractTimeReference (text : string) : option string :=
  firstTimeMatch timePatterns text.

Definition wordSet (text : string) : gset string :=
  list_to_set (Js.split Js.space (Js.toLowerCase text)).

(** Jaccard index of the two word sets; the union is never empty, as
    [split] returns at least one (possibly empty) word. *)
Definition calculateContentSimilarity (text1 text2 : string) : Q :=
  let words1 := wordSet text1 in
  let words2 := wordSet text2 in
  (inject_Z (Z.of_nat (size (words1 ∩ words2))) /
   inject_Z (Z.of_nat (size (words1 ∪ words2))))%Q.

Definition polarity (p : bool) : string := if p then "positive" else "negative".

Definition emotionConflicts : list (list string * list string) :=
  [ (["happy"; "excited"; "joy"], ["sad"; "angry"; "depressed"]);
    (["love"; "like"], ["hate"; "dislike"]);
    (["calm"; "relaxed"], ["nervous"; "anxious"; "stressed"]) ].

Definition likeWords : list string := ["like"; "love"; "enjoy"; "prefer"].
Definition dislikeWords : list string := ["hate"; "dislike"; "don't like"; "avoid"].

(** The loop over [emotionConflicts]: the first group whose polarities
    clash decides. *)
Fixpoint checkEmotionGroups (cid : string) (newFact existingFact : LearnedFact)
    (newContent existingContent : string)
    (groups : list (list string * list string)) : option ConflictInfo :=
  match groups with
  | [] => None
  | (positive, negative) :: groups' =>
      let newIsPositive := some_included positive newContent in
      let newIsNegative := some_included negative newContent in
      let existingIsPositive := some_included positive existingContent in
      let existingIsNegative := some_included negative existingContent in
      if (newIsPositive && existingIsNegative) || (newIsNegative && existingIsPositive)
      then Some (mkConflict cid newFact existingFact Contradiction High
                   ("I noticed you mentioned feeling " ++ polarity newIsPositive ++
                    " now, but earlier you seemed " ++ polarity existingIsPositive ++
                    ". How are you actually feeling right now?")
                   Clarify)
      else checkEmotionGroups cid newFact existingFact newContent existingContent groups'
  end.

Definition checkPreference (cid : string) (newFact existingFact : LearnedFact)
    (newContent existingContent : string) : option ConflictInfo :=
  let newLikes := some_included likeWords newContent in
  let newDislikes := some_included dislikeWords newContent in
  let existingLikes := some_included likeWords existingContent in
  let existingDislikes := some_included dislikeWords existingContent in
  if (newLikes && existingDislikes) || (newDislikes && existingLikes) then
    match findCommonTerms newContent existingContent with
    | term :: _ =>
        Some (mkConflict cid newFact existingFact Contradiction Medium
                ("I'm confused - do you like or dislike " ++ term ++
                 "? You've mentioned both!")
                Clarify)
    | [] => None
    end
  else None.

(** [cid] is the id the next call of [generateConflictId] returns; it is
    drawn only on the paths that build a conflict. *)
Definition checkContradiction (cid : string) (newFact existingFact : LearnedFact)
    : option ConflictInfo :=
  let newContent := Js.toLowerCase (f_content newFact) in
  let existingContent := Js.toLowerCase (f_content existingFact) in
  match (if String.eqb (f_category newFact) "emotions"
         then checkEmotionGroups cid newFact existingFact newContent existingContent
                emotionConflicts
         else None) with
  | Some c => Some c
  | None =>
      if String.eqb (f_category newFact) "relationship"
         && Js.includes newContent "single" && Js.includes existingContent "vahant"
      then Some (mkConflict cid newFact existingFact Contradiction High
                   "Wait bestie, are you single or are you with Vahant? I'm getting mixed signals here!"
                   Clarify)
      else if String.eqb (f_category newFact) "preferences"
      then checkPreference cid newFact existingFact newContent existingContent
      else None
  end.

Definition checkTemporalConflict (cid : string) (newFact existingFact : LearnedFact)
    : option ConflictInfo :=
  if String.eqb (f_category newFact) "plans" then
    let newContent := Js.toLowerCase (f_content newFact) in
    let existingContent := Js.toLowerCase (f_content existingFact) in
    if Js.includes newContent "date" && Js.includes existingContent "date" then
      match extractTimeReference newContent, extractTimeReference existingContent with
      | Some newTime, Some existingTime =>
          if negb (String.eqb newTime EmptyString) && negb (String.eqb existingTime EmptyString)
             && negb (String.eqb newTime existingTime)
          then Some (mkConflict cid newFact existingFact Temporal Medium
                       ("I heard about a date " ++ newTime ++ ", but earlier you mentioned " ++
                        existingTime ++ ". Which date is happening?")
                       Clarify)
          else None
      | _, _ => None
      end
    else None
  else None.

Definition checkInconsistency (cid : string) (newFact existingFact : LearnedFact)
    : option ConflictInfo :=
  if Num.ltb (f_confidence newFact) 0.6%Q && Num.gtb (f_confidence existingFact) 0.8%Q then
    let similarity := calculateContentSimilarity (f_content newFact) (f_content existingFact) in
    if Num.gtb similarity 0.3%Q && Num.ltb similarity 0.8%Q
    then Some (mkConflict cid newFact existingFact Inconsistency Low
                 "I want to make sure I understand correctly - you mentioned something similar before. Can you clarify?"
                 Merge)
    else None
  else None.

Definition checkAmbiguity (cid : string) (newFact existingFact : LearnedFact)
    : option ConflictInfo :=
  if String.eqb (f_category newFact) (f_category existingFact) && negb (f_verified newFact) then
    let similarity := calculateContentSimilarity (f_content newFact) (f_content existingFact) in
    if Num.gtb similarity 0.5%Q && Num.ltb similarity 0.9%Q
    then Some (mkConflict cid newFact existingFact Ambiguity Low
                 "Just to be clear, are you talking about the same thing as before, or is this something new?"
                 Clarify)
    else None
  else None.

(** The stand-in for the existing fact that [analyzeFactConflict] builds
    from a snapshot entry. *)
Definition mockExistingFact (now : Z) (newFact : LearnedFact)
    (existingContent existingKey : string) : LearnedFact :=
  mkFact existingKey existingContent (f_category newFact) 0.8%Q (now - 86400000)
         "previous conversation" true.

Definition first_some {A : Type} (a b : option A) : option A :=
  match a with Some x => Some x | None => b end.

Definition analyzeFactConflict (now : Z) (conflictCounter : nat) (newFact : LearnedFact)
    (existingContent existingKey : string) : option ConflictInfo :=
  let existingFact := mockExistingFact now newFact existingContent existingKey in
  let cid := generateConflictId now conflictCounter in
  first_some (checkContradiction cid newFact existingFact)
    (first_some (checkTemporalConflict cid newFact existingFact)
       (first_some (checkInconsistency cid newFact existingFact)
          (checkAmbiguity cid newFact existingFact))).

(** The accumulators of [detectConflicts] and the id counter. *)
Record Acc : Type := mkAcc {
  a_conflicts : list ConflictInfo;
  a_attention : list ConflictInfo;
  a_auto : list ConflictInfo;
  a_counter : nat
}.

(** The body of the inner loop: one snapshot entry against one new fact. *)
Definition visit (now : Z) (newFact : LearnedFact) (acc : Acc) (kv : string * string) : Acc :=
  match analyzeFactConflict now (a_counter acc) newFact kv.2 kv.1 with
  | Some conflictInfo =>
      let attention :=
        Severity_eqb (c_severity conflictInfo) High
        || ConflictType_eqb (c_conflictType conflictInfo) Contradiction in
      let auto :=
        Resolution_eqb (c_suggestedResolution conflictInfo) Update
        || Resolution_eqb (c_suggestedResolution conflictInfo) Merge in
      mkAcc (a_conflicts acc ++ [conflictInfo])
            (if attention then a_attention acc ++ [conflictInfo] else a_attention acc)
            (if attention then a_auto acc
             else if auto then a_auto acc ++ [conflictInfo] else a_auto acc)
            (S (a_counter acc))
  | None => acc
  end.

(** [existingFacts[newFact.category] || {}], enumerated *)
Definition categoryFacts (existingFacts : Knowledge) (category : string) : list (string * string) :=
  map_to_list (default ∅ (existingFacts !! category)).

Definition visitFact (now : Z) (existingFacts : Knowledge) (acc : Acc) (newFact : LearnedFact) : Acc :=
  fold_left (visit now newFact) (categoryFacts existingFacts (f_category newFact)) acc.

Definition detectConflicts (now : Z) (conflictCounter : nat) (newFacts : list LearnedFact)
    (existingFacts : Knowledge) : ConflictResolutionResult * nat :=
  let acc := fold_left (visitFact now existingFacts) newFacts (mkAcc [] [] [] conflictCounter) in
  (mkResolution (a_conflicts acc) (0 <? length (a_conflicts acc))%nat
                (a_attention acc) (a_auto acc),
   a_counter acc).

(** [generateClarificationResponse] *)
Definition generateClarificationResponse (originalResponse : string)
    (cs : list ConflictInfo) : string :=
  match cs with
  | [] => originalResponse
  | _ =>
      match filter (fun c => Severity_eqb (c_severity c) High
                             || ConflictType_eqb (c_conflictType c) Contradiction = true) cs with
      | conflict :: _ =>
          originalResponse ++ String "010" (String "010" "Wait bestie, ")
          ++ c_clarificationQuestion conflict
      | [] =>
          match filter (fun c => Severity_eqb (c_severity c) Medium = true) cs with
          | conflict :: _ =>
              originalResponse ++ String "010" (String "010" "By the way, ")
              ++ c_clarificationQuestion conflict
          | [] => originalResponse
          end
      end
  end.

End ConflictResolver.

(** ** The memory bank (intelligent-memory-bank.ts) *)

Record MemoryEntry : Type := mkEntry {
  e_fact : LearnedFact;
  e_lastAccessed : Z;
  e_accessCount : nat;
  e_verified : bool;
  e_confidence : Q;
  e_relatedFacts : list string
}.

(** The three maps of the class.  A timeline key is the calendar day of
    a timestamp: [toDateString] below returns the day's number, which
    names the day as the source's date string does. *)
Record MemoryBank : Type := mkBank {
  memory : gmap string MemoryEntry;
  categoryIndex : gmap string (gset string);
  timelineIndex : gmap Z (gset string)
}.

Inductive UserChoice : Type := ChooseNew | ChooseExisting | ChooseMerge.

Module IntelligentMemoryBank.

Definition msPerDay : Z := 24 * 60 * 60 * 1000.

Definition toDateString (t : Z) : Z := t `div` msPerDay.

Definition empty : MemoryBank := mkBank ∅ ∅ ∅.

(** [if (!index.has(k)) index.set(k, new Set()); index.get(k).add(id)] *)
Definition addToIndex `{Countable K} (k : K) (i : string) (index : gmap K (gset string))
    : gmap K (gset string) :=
  <[k := default ∅ (index !! k) ∪ {[i]}]> index.

Definition updateIndexes (fact : LearnedFact) (b : MemoryBank) : MemoryBank :=
  mkBank (memory b)
         (addToIndex (f_category fact) (f_id fact) (categoryIndex b))
         (addToIndex (toDateString (f_timestamp fact)) (f_id fact) (timelineIndex b)).

Definition storeFact (now : Z) (fact : LearnedFact) (relatedFactIds : list string)
    (b : MemoryBank) : MemoryBank :=
  let entry := mkEntry fact now 0 (f_verified fact) (f_confidence fact) relatedFactIds in
  updateIndexes fact
    (mkBank (<[f_id fact := entry]> (memory b)) (categoryIndex b) (timelineIndex b)).

Definition clamp01 (x : Q) : Q := Num.max 0%Q (Num.min 1%Q x).

Definition updateFactConfidence (now : Z) (factId : string) (newConfidence : Q)
    (verified : bool) (b : MemoryBank) : MemoryBank :=
  match memory b !! factId with
  | Some entry =>
      mkBank (<[factId := mkEntry (e_fact entry) now (e_accessCount entry) verified
                                  (clamp01 newConfidence) (e_relatedFacts entry)]> (memory b))
             (categoryIndex b) (timelineIndex b)
  | None => b
  end.

Definition with_confidence (fact : LearnedFact) (c : Q) : LearnedFact :=
  mkFact (f_id fact) (f_content fact) (f_category fact) c (f_timestamp fact)
         (f_source fact) (f_verified fact).

Definition mergedFact (now : Z) (conflictInfo : ConflictInfo) : LearnedFact :=
  mkFact ("merged_" ++ pretty now)
         (f_content (c_existingFact conflictInfo) ++ "; " ++ f_content (c_newFact conflictInfo))
         (f_category (c_newFact conflictInfo))
         ((f_confidence (c_existingFact conflictInfo) + f_confidence (c_newFact conflictInfo)) / 2)%Q
         now
         ("Merged: " ++ f_source (c_newFact conflictInfo))
         true.

(** The boost [confidence + 0.2] and the mean [(a + b) / 2] are exact
    here, while the code rounds each sum to a binary64 number: 0.7 + 0.2
    gives 0.8999999999999999.  What is stated of these two results is
    their order, their range and their value up to that rounding. *)
Definition resolveConflict (now : Z) (conflictInfo : ConflictInfo) (userChoice : UserChoice)
    (b : MemoryBank) : MemoryBank :=
  let existingId := f_id (c_existingFact conflictInfo) in
  match userChoice with
  | ChooseNew =>
      storeFact now (c_newFact conflictInfo) [existingId]
        (updateFactConfidence now existingId 0.3%Q false b)
  | ChooseExisting =>
      storeFact now (with_confidence (c_newFact conflictInfo) 0.2%Q) [existingId]
        (updateFactConfidence now existingId
           (Num.min 1%Q (f_confidence (c_existingFact conflictInfo) + 0.2)%Q) true b)
  | ChooseMerge =>
      storeFact now (mergedFact now conflictInfo)
        [existingId; f_id (c_newFact conflictInfo)] b
  end.

(** [if (!exported[category]) exported[category] = {};
     exported[category][id] = content].
    [exported] is a plain object.  For a category that names a property
    of [Object.prototype] the test finds the inherited value: no own
    property is created and the write lands on that inherited value, so
    the snapshot does not get the entry.  (The inherited value takes the
    write for an id of the forms the program generates.  The inherited
    values are taken as the language defines them: the properties that
    such writes add to them are not tracked.)  Within the object of a category, assigning a string
    to ["__proto__"] sets no own property: the category is there, the
    id is not. *)
Definition exportEntry (exported : Knowledge) (entry : MemoryEntry) : Knowledge :=
  let category := f_category (e_fact entry) in
  if Js.inherited category then exported
  else if String.eqb (f_id (e_fact entry)) "__proto__" then
    <[category := default ∅ (exported !! category)]> exported
  else
    <[category := <[f_id (e_fact entry) := f_content (e_fact entry)]>
                    (default ∅ (exported !! category))]> exported.

Definition exportKnowledge (b : MemoryBank) : Knowledge :=
  fold_left exportEntry (map_to_list (memory b)).*2 ∅.

Definition importedFact (now : Z) (category key content : string) : LearnedFact :=
  mkFact key content category 0.8%Q now "imported knowledge" true.

Definition importCategory (now : Z) (category : string) (b : MemoryBank)
    (kv : string * string) : MemoryBank :=
  storeFact now (importedFact now category kv.1 kv.2) [] b.

Definition importKnowledge (now : Z) (knowledge : Knowledge) (b : MemoryBank) : MemoryBank :=
  fold_left (fun b' (cf : string * gmap string string) =>
               fold_left (importCategory now cf.1) (map_to_list cf.2) b')
            (map_to_list knowledge) b.

(** [set.delete(id); if (set.size === 0) index.delete(k)] on an index
    that has the key; nothing otherwise. *)
Definition removeFromIndex `{Countable K} (k : K) (i : string) (index : gmap K (gset string))
    : gmap K (gset string) :=
  match index !! k with
  | Some s =>
      let s' := s ∖ {[i]} in
      if decide (size s' = 0%nat) then delete k index else <[k := s']> index
  | None => index
  end.

Definition deleteFact (factId : string) (b : MemoryBank) : MemoryBank :=
  match memory b !! factId with
  | None => b
  | Some entry =>
      mkBank (delete factId (memory b))
             (removeFromIndex (f_category (e_fact entry)) factId (categoryIndex b))
             (removeFromIndex (toDateString (f_timestamp (e_fact entry))) factId (timelineIndex b))
  end.

(** [new Date(x)] keeps the integral part of [x]. *)
Definition truncate (x : Q) : Z := Z.quot (Qnum x) (Zpos (Qden x)).

(** [new Date(x)]: the invalid date, [None], when [x] lies beyond
    [Js.maxTime] on either side. *)
Definition newDate (x : Q) : option Z :=
  if Qle_bool (inject_Z (- Js.maxTime)) x && Qle_bool x (inject_Z Js.maxTime)
  then Some (truncate x) else None.

(** [new Date(Date.now() - maxAge * 24 * 60 * 60 * 1000)].  The
    arithmetic is exact here.  The code computes in binary64, which
    agrees for every whole number of days up to 10^11 either way: no
    product rounds, and a difference that rounds lies beyond
    [Js.maxTime] before and after rounding. *)
Definition cutoffDate (now : Z) (maxAge : Q) : option Z :=
  newDate (inject_Z now - maxAge * inject_Z msPerDay)%Q.

(** [entry.fact.timestamp < cutoffDate] is false for the invalid date. *)
Definition shouldDelete (now : Z) (minConfidence maxAge : Q) (entry : MemoryEntry) : bool :=
  Num.ltb (e_confidence entry) minConfidence
  && match cutoffDate now maxAge with
     | Some cutoff => f_timestamp (e_fact entry) <? cutoff
     | None => false
     end
  && (e_accessCount entry =? 0)%nat.

Definition toDelete (now : Z) (minConfidence maxAge : Q) (b : MemoryBank) : list string :=
  (List.filter (fun kv => shouldDelete now minConfidence maxAge kv.2) (map_to_list (memory b))).*1.

Definition cleanup (now : Z) (minConfidence maxAge : Q) (b : MemoryBank) : MemoryBank :=
  fold_left (fun b' factId => deleteFact factId b') (toDelete now minConfidence maxAge b) b.

(** The read methods ([getFactsByCategory], [getRecentFacts],
    [searchFacts], [getContextualFacts]) change the bank in one way only:
    each entry they return gets [lastAccessed = new Date()] and
    [accessCount++].  [access] is that effect, for the ids of the
    returned facts. *)
Definition touch (now : Z) (entry : MemoryEntry) : MemoryEntry :=
  mkEntry (e_fact entry) now (S (e_accessCount entry)) (e_verified entry)
          (e_confidence entry) (e_relatedFacts entry).

Definition access (now : Z) (factIds : list string) (b : MemoryBank) : MemoryBank :=
  mkBank (fold_left (fun m k => alter (touch now) k m) factIds (memory b))
         (categoryIndex b) (timelineIndex b).

(** [array.sort((a, b) => key(b) - key(a))]: descending by [key];
    elements with equal keys keep their order. *)
Fixpoint insertDescending {A} (key : A -> Q) (x : A) (l : list A) : list A :=
  match l with
  | [] => [x]
  | y :: l' =>
      if Num.leb (key y) (key x) then x :: y :: l'
      else y :: insertDescending key x l'
  end.

Fixpoint sortDescending {A} (key : A -> Q) (l : list A) : list A :=
  match l with
  | [] => []
  | x :: l' => insertDescending key x (sortDescending key l')
  end.

(** The ids that [getFactsByCategory] visits and keeps. *)
Definition categoryHits (category : string) (minConfidence : Q) (b : MemoryBank) : list string :=
  List.filter (fun factId =>
                 match memory b !! factId with
                 | Some entry => Num.geb (e_confidence entry) minConfidence
                 | None => false
                 end)
              (elements (default ∅ (categoryIndex b !! category))).

Definition factsOf (b : MemoryBank) (factIds : list string) : list LearnedFact :=
  omap (fun factId => e_fact <$> memory b !! factId) factIds.

Definition getFactsByCategory (now : Z) (category : string) (minConfidence : Q)
    (b : MemoryBank) : list LearnedFact * MemoryBank :=
  let hits := categoryHits category minConfidence b in
  (sortDescending f_confidence (factsOf b hits), access now hits b).

(** [new Date(Date.now() - hoursBack * 60 * 60 * 1000)], [None] for the
    invalid date.  As for [cutoffDate], the exact arithmetic agrees with
    binary64 for every whole number of hours up to 10^11 either way. *)
Definition recentCutoff (now : Z) (hoursBack : Q) : option Z :=
  newDate (inject_Z now - hoursBack * inject_Z (60 * 60 * 1000))%Q.

(** [entry.fact.timestamp >= cutoffTime] is false for the invalid date. *)
Definition recentHits (now : Z) (hoursBack : Q) (b : MemoryBank) : list (string * MemoryEntry) :=
  List.filter (fun kv => match recentCutoff now hoursBack with
                         | Some cutoffTime => cutoffTime <=? f_timestamp (e_fact kv.2)
                         | None => false
                         end)
              (map_to_list (memory b)).

Definition getRecentFacts (now : Z) (hoursBack : Q) (b : MemoryBank)
    : list LearnedFact * MemoryBank :=
  let hits := recentHits now hoursBack b in
  (sortDescending (fun fact => inject_Z (f_timestamp fact)) (e_fact <$> hits.*2),
   access now hits.*1 b).

(** [keywords.some(keyword => factContent.includes(keyword.toLowerCase()))] *)
Definition hasKeyword (keywords : list string) (content : string) : bool :=
  existsb (fun keyword => Js.includes (Js.toLowerCase content) (Js.toLowerCase keyword)) keywords.

Definition searchHits (keywords : list string) (minConfidence : Q) (b : MemoryBank)
    : list (string * MemoryEntry) :=
  List.filter (fun kv => negb (Num.ltb (e_confidence kv.2) minConfidence)
                         && hasKeyword keywords (f_content (e_fact kv.2)))
              (map_to_list (memory b)).

Definition searchFacts (now : Z) (keywords : list string) (minConfidence : Q) (b : MemoryBank)
    : list LearnedFact * MemoryBank :=
  let hits := searchHits keywords minConfidence b in
  (sortDescending f_confidence (e_fact <$> hits.*2), access now hits.*1 b).

(** The relevance score of [getContextualFacts]. *)
Definition relevanceScore (now : Z) (messageWords categories : list string)
    (entry : MemoryEntry) : Q :=
  let fact := e_fact entry in
  let factWords := Js.split Js.space (Js.toLowerCase (f_content fact)) in
  let commonWords :=
    List.filter (fun word => Js.arr_includes factWords word && (3 <? String.length word)%nat)
                messageWords in
  ((if (length categories =? 0)%nat || Js.arr_includes categories (f_category fact)
    then 0.3 else 0)
   + inject_Z (Z.of_nat (length commonWords)) * 0.2
   + f_confidence fact * 0.3
   + (if Num.ltb (inject_Z (now - f_timestamp fact) / inject_Z (1000 * 60 * 60)) 24
      then 0.2 else 0)
   + Num.min (inject_Z (Z.of_nat (e_accessCount entry)) * 0.1) 0.3)%Q.

Definition relevantFacts (now : Z) (currentMessage : string) (categories : list string)
    (b : MemoryBank) : list (LearnedFact * Q) :=
  let messageWords := Js.split Js.space (Js.toLowerCase currentMessage) in
  (fun entry => (e_fact entry, relevanceScore now messageWords categories entry))
    <$> List.filter (fun entry =>
                       Num.gtb (relevanceScore now messageWords categories entry) 0.5%Q)
                    (map_to_list (memory b)).*2.

(** [limit] is a natural number: [slice(0, limit)] keeps the first
    [limit] elements.  The returned facts are touched through their ids. *)
Definition getContextualFacts (now : Z) (currentMessage : string) (categories : list string)
    (limit : nat) (b : MemoryBank) : list LearnedFact * MemoryBank :=
  let chosen :=
    (take limit (sortDescending snd (relevantFacts now currentMessage categories b))).*1 in
  (chosen, access now (f_id <$> chosen) b).

(** What a slot of [factsByCategory] holds: a number, or, for a category
    that names a property of [Object.prototype], a string: the text of
    the inherited value followed by one digit 1 per entry counted. *)
Inductive Tally : Type :=
| Counted (n : nat)
| Garbled (ones : nat).

Record MemoryStats : Type := mkMemoryStats {
  totalFacts : nat;
  factsByCategory : gmap string Tally;
  averageConfidence : Q;
  verifiedFacts : nat;
  recentlyLearned : nat
}.

(** [factsByCategory[category] = (factsByCategory[category] || 0) + 1]
    on a plain object.  A category that names an inherited function
    reads that function the first time and its own string afterwards:
    [+ 1] appends a digit to the text.  For ["__proto__"] the read gives
    [Object.prototype] and the assignment of a string sets nothing. *)
Definition countCategory (counts : gmap string Tally) (entry : MemoryEntry)
    : gmap string Tally :=
  let category := f_category (e_fact entry) in
  if String.eqb category "__proto__" then counts
  else if Js.inherited category then
    <[category := Garbled (S (match counts !! category with
                              | Some (Garbled ones) => ones
                              | _ => 0%nat
                              end))]> counts
  else
    <[category := Counted (S (match counts !! category with
                              | Some (Counted n) => n
                              | _ => 0%nat
                              end))]> counts.

Definition getMemoryStats (now : Z) (b : MemoryBank) : MemoryStats :=
  let entries := (map_to_list (memory b)).*2 in
  let total := size (memory b) in
  let totalConfidence := fold_left (fun acc entry => (acc + e_confidence entry)%Q) entries 0%Q in
  mkMemoryStats
    total
    (fold_left countCategory entries ∅)
    (if (0 <? total)%nat then (totalConfidence / inject_Z (Z.of_nat total))%Q else 0%Q)
    (length (List.filter e_verified entries))
    (length (List.filter (fun entry => Js.validTime (now - 24 * 60 * 60 * 1000)
                                       && (now - 24 * 60 * 60 * 1000 <=? f_timestamp (e_fact entry)))
                         entries)).

End IntelligentMemoryBank.

(** ** The session manager (conversation-session-manager.ts) *)

Inductive Sender : Type := User | Gigi.

Definition Sender_eqb (a b : Sender) : bool :=
  match a, b with
  | User, User | Gigi, Gigi => true
  | _, _ => false
  end.

(** [m_timestamp] is the time value that [new Date(timestamp).getTime()]
    yields; [None] stands for an invalid date ([NaN]). *)
Record ChatMessage : Type := mkMessage {
  m_id : string;
  m_text : string;
  m_sender : Sender;
  m_timestamp : option Z
}.

Record SessionContext : Type := mkContext {
  currentTopics : list string;
  emotionalState : string;
  ongoingConcerns : list string
}.

Record ConversationSession : Type := mkSession {
  sessionId : string;
  messages : list ChatMessage;
  lastActivity : Z;
  context : SessionContext
}.

Module ConversationSessionManager.

Import Regex.

Definition SESSION_TIMEOUT : Z := 30 * 60 * 1000.

(** [sessionId] is [None] when the argument is omitted; [uuid] is what
    [randomUUID()] returns if it is called. *)
Definition getOrCreateSession (now : Z) (uuid : string) (sid : option string)
    (initialMessage : option ChatMessage) (sessions : gmap string ConversationSession)
    : ConversationSession * gmap string ConversationSession :=
  let sid' := match sid with
              | Some s => if String.eqb s EmptyString then uuid else s
              | None => uuid
              end in
  match sessions !! sid' with
  | None =>
      let session :=
        mkSession sid' (match initialMessage with Some m => [m] | None => [] end) now
                  (mkContext [] "neutral" []) in
      (session, <[sid' := session]> sessions)
  | Some session =>
      let session' := mkSession (sessionId session) (messages session) now (context session) in
      (session', <[sid' := session']> sessions)
  end.

(** [Math.abs(t1 - t2) < 1000]; a comparison with [NaN] is false. *)
Definition withinOneSecond (t1 t2 : option Z) : bool :=
  match t1, t2 with
  | Some a, Some b => Z.abs (a - b) <? 1000
  | _, _ => false
  end.

(** The predicate of [session.messages.some(...)] *)
Definition sameMessage (message existingMsg : ChatMessage) : bool :=
  String.eqb (m_id existingMsg) (m_id message)
  || (String.eqb (m_text existingMsg) (m_text message)
      && Sender_eqb (m_sender existingMsg) (m_sender message)
      && withinOneSecond (m_timestamp existingMsg) (m_timestamp message)).

Definition messageExists (session : ConversationSession) (message : ChatMessage) : bool :=
  existsb (sameMessage message) (messages session).

Definition word (ws : list string) : regex := RSeqs [RWordB; ROneOf ws; RWordB].

Definition topicPatterns : list (regex * string) :=
  [ (word ["date"; "dating"; "going out"], "dating");
    (word ["dress"; "outfit"; "wearing"; "clothes"], "fashion");
    (word ["restaurant"; "food"; "eating"; "meal"], "food");
    (word ["vahant"; "boyfriend"], "relationship");
    (word ["website"; "dreamscape"; "project"], "projects");
    (word ["sad"; "happy"; "excited"; "nervous"; "angry"], "emotions");
    (word ["work"; "job"; "office"], "work");
    (word ["family"; "friends"; "social"], "social") ].

Definition extractTopicsFromMessage (text : string) : list string :=
  let lowerText := Js.toLowerCase text in
  (List.filter (fun pt => test false pt.1 lowerText) topicPatterns).*2.

(** [[...new Set(xs)]]: the first occurrence of each element, in order. *)
Fixpoint uniq (seen xs : list string) : list string :=
  match xs with
  | [] => []
  | x :: xs' => if Js.arr_includes seen x then uniq seen xs' else x :: uniq (x :: seen) xs'
  end.

(** [xs.slice(-5)] *)
Definition lastFive (xs : list string) : list string := drop (length xs - 5) xs.

Definition updateTopics (message : ChatMessage) (ctx : SessionContext) : SessionContext :=
  match m_sender message with
  | User =>
      let topics := uniq [] (currentTopics ctx ++ extractTopicsFromMessage (m_text message)) in
      mkContext (if (5 <? length topics)%nat then lastFive topics else topics)
                (emotionalState ctx) (ongoingConcerns ctx)
  | Gigi => ctx
  end.

Definition updateEmotion (emotion : option string) (ctx : SessionContext) : SessionContext :=
  match emotion with
  | Some e =>
      if String.eqb e EmptyString then ctx
      else mkContext (currentTopics ctx) e (ongoingConcerns ctx)
  | None => ctx
  end.

Definition updateSession (now : Z) (sid : string) (message : ChatMessage)
    (emotion : option string) (sessions : gmap string ConversationSession)
    : gmap string ConversationSession :=
  match sessions !! sid with
  | None => sessions
  | Some session =>
      if messageExists session message then sessions
      else
        <[sid := mkSession (sessionId session) (messages session ++ [message]) now
                   (updateTopics message (updateEmotion emotion (context session)))]> sessions
  end.

(** [session.messages.length], 0 for an unknown session *)
Definition messageCount (sid : string) (sessions : gmap string ConversationSession) : nat :=
  match sessions !! sid with
  | Some session => length (messages session)
  | None => 0
  end.

(** [msg.sender === "user"] *)
Definition isUser (m : ChatMessage) : bool := Sender_eqb (m_sender m) User.

Definition getUserMessages (sid : string) (sessions : gmap string ConversationSession)
    : list ChatMessage :=
  match sessions !! sid with
  | Some session => List.filter isUser (messages session)
  | None => []
  end.

Definition getLatestUserMessage (sid : string) (sessions : gmap string ConversationSession)
    : option ChatMessage :=
  last (getUserMessages sid sessions).

(** A comparison with the time value of an invalid date is false. *)
Definition isMessageNewer (sid : string) (message : ChatMessage)
    (sessions : gmap string ConversationSession) : bool :=
  match getLatestUserMessage sid sessions with
  | None => true
  | Some latestInSession =>
      match m_timestamp message, m_timestamp latestInSession with
      | Some messageTime, Some latestTime =>
          (latestTime <? messageTime)
          || ((messageTime =? latestTime)
              && negb (String.eqb (m_id message) (m_id latestInSession)))
      | _, _ => false
      end
  end.

Definition defaultContext : SessionContext := mkContext [] "neutral" [].

Definition getSessionContext (sid : string) (sessions : gmap string ConversationSession)
    : SessionContext :=
  match sessions !! sid with
  | Some session => context session
  | None => defaultContext
  end.

Definition isExpired (now : Z) (session : ConversationSession) : bool :=
  SESSION_TIMEOUT <? now - lastActivity session.

(** The loop of [cleanupExpiredSessions] over the entries of the map. *)
Definition cleanupExpiredSessions (now : Z) (sessions : gmap string ConversationSession)
    : gmap string ConversationSession :=
  fold_left (fun m (kv : string * ConversationSession) =>
               if isExpired now kv.2 then delete kv.1 m else m)
            (map_to_list sessions) sessions.

(** [conversationDuration] is [None] when the first message carries an
    invalid date: the subtraction and [Math.max] then yield [NaN]. *)
Record SessionStats : Type := mkStats {
  s_messageCount : nat;
  s_userMessageCount : nat;
  s_conversationDuration : option Z;
  s_topicsDiscussed : list string
}.

Definition getSessionStats (sid : string) (sessions : gmap string ConversationSession)
    : SessionStats :=
  match sessions !! sid with
  | None => mkStats 0 0 (Some 0) []
  | Some session =>
      let conversationStart :=
        match messages session with
        | first :: _ => m_timestamp first
        | [] => Some (lastActivity session)
        end in
      mkStats (length (messages session))
              (length (List.filter isUser (messages session)))
              ((fun start => Z.max 0 (lastActivity session - start)) <$> conversationStart)
              (currentTopics (context session))
  end.

End ConversationSessionManager.

(** ** The emotion detector (emotion-detector.ts) *)

Inductive Emotion : Type :=
  Happy | Sad | Angry | Excited | Neutral | Anxious | Frustrated | Love | Confused.

Inductive EmotionIntensity : Type := LowIntensity | MediumIntensity | HighIntensity.

#[global] Instance Emotion_eq_dec : EqDecision Emotion.
Proof. solve_decision. Defined.

Record EmotionAnalysis : Type := mkAnalysis {
  primaryEmotion : Emotion;
  intensity : EmotionIntensity;
  emotionScores : Emotion -> Q;
  isAngryWithVahant : bool;
  emotionalTriggers : list string;
  confidence : Q
}.

(** The fields of the model's JSON answer as [parseEmotionResponse]
    reads them: [primaryEmotion] and [intensity] when they are strings,
    [emotionScores] when it is an object, with its entries that are
    numbers, the truthiness of [isAngryWithVahant], [emotionalTriggers]
    when it is an array, and [Number(parsed.confidence)], [None] for
    [NaN]. *)
Record EmotionAnswer : Type := mkEmotionAnswer {
  j_primaryEmotion : option string;
  j_intensity : option string;
  j_emotionScores : option (Emotion -> option Q);
  j_isAngryWithVahant : bool;
  j_emotionalTriggers : option (list string);
  j_confidence : option Q
}.

(** The call of the model throws, its text holds no JSON object that
    parses, or it parses. *)
Inductive EmotionModelOutcome : Type :=
| EmotionModelError
| EmotionModelUnparsable
| EmotionModelParsed (answer : EmotionAnswer).

Module EmotionDetector.

Definition emotionName (e : Emotion) : string :=
  match e with
  | Happy => "happy" | Sad => "sad" | Angry => "angry" | Excited => "excited"
  | Neutral => "neutral" | Anxious => "anxious" | Frustrated => "frustrated"
  | Love => "love" | Confused => "confused"
  end.

Definition validEmotions : list Emotion :=
  [Happy; Sad; Angry; Excited; Neutral; Anxious; Frustrated; Love; Confused].

(** [scores[e] = score] *)
Definition setScore (e : Emotion) (score : Q) (scores : Emotion -> Q) : Emotion -> Q :=
  fun e' => if decide (e' = e) then score else scores e'.

Definition emotionKeywords : list (Emotion * list string) :=
  [ (Happy, ["happy"; "joy"; "excited"; "amazing"; "wonderful"; "great"; "awesome"; "yay"]);
    (Sad, ["sad"; "depressed"; "down"; "upset"; "crying"; "hurt"; "disappointed"]);
    (Angry, ["angry"; "mad"; "furious"; "annoyed"; "irritated"; "frustrated"; "pissed"]);
    (Excited, ["excited"; "thrilled"; "can't wait"; "amazing"; "omg"; "wow"]);
    (Anxious, ["worried"; "nervous"; "anxious"; "scared"; "concerned"; "stress"]);
    (Confused, ["confused"; "don't understand"; "what"; "huh"; "unclear"]);
    (Love, ["love"; "adore"; "amazing"; "perfect"; "best"; "wonderful"]) ].

(** [keywords.reduce((acc, keyword) => acc + (includes ? 1 : 0), 0)] *)
Definition hits (lowerMessage : string) (keywords : list string) : nat :=
  fold_left (fun acc keyword =>
               (acc + (if Js.includes lowerMessage keyword then 1 else 0))%nat)
            keywords 0%nat.

Definition keywordScore (lowerMessage : string) (keywords : list string) : Q :=
  (inject_Z (Z.of_nat (hits lowerMessage keywords))
   / inject_Z (Z.of_nat (length keywords)))%Q.

(** The variables of the loop over [emotionKeywords]. *)
Record Scan : Type := mkScan {
  s_primaryEmotion : Emotion;
  s_maxScore : Q;
  s_emotionScores : Emotion -> Q
}.

Definition scanEmotion (lowerMessage : string) (st : Scan) (entry : Emotion * list string)
    : Scan :=
  let score := keywordScore lowerMessage entry.2 in
  let scores := setScore entry.1 score (s_emotionScores st) in
  if Num.gtb score (s_maxScore st)
  then mkScan entry.1 score scores
  else mkScan (s_primaryEmotion st) (s_maxScore st) scores.

Definition fallbackScores (e : Emotion) : Q :=
  match e with Neutral => 0.5%Q | _ => 0%Q end.

Definition emotionalWords : list string :=
  ["vahant"; "boyfriend"; "relationship"; "annoying"; "frustrated"; "happy"; "sad";
   "excited"; "worried"; "confused"; "angry"; "love"].

Definition extractTriggers (message : string) : list string :=
  firstn 3 (List.filter (fun word => Js.includes (Js.toLowerCase message) word)
                        emotionalWords).

Definition fallbackEmotionDetection (message : string) : EmotionAnalysis :=
  let lowerMessage := Js.toLowerCase message in
  let st := fold_left (scanEmotion lowerMessage) emotionKeywords
                      (mkScan Neutral 0%Q fallbackScores) in
  let scores := s_emotionScores st in
  let maxScore := s_maxScore st in
  mkAnalysis
    (s_primaryEmotion st)
    (if Num.gtb maxScore 0.6%Q then HighIntensity
     else if Num.gtb maxScore 0.3%Q then MediumIntensity else LowIntensity)
    scores
    (Js.includes lowerMessage "vahant"
     && (Num.gtb (scores Angry) 0.3%Q || Num.gtb (scores Frustrated) 0.3%Q))
    (extractTriggers message)
    0.6%Q.

(** [validEmotions.includes(emotion) ? emotion : "neutral"] *)
Definition validateEmotion (emotion : option string) : Emotion :=
  match emotion with
  | Some name =>
      match List.find (fun e => String.eqb (emotionName e) name) validEmotions with
      | Some e => e
      | None => Neutral
      end
  | None => Neutral
  end.

Definition validateIntensity (value : option string) : EmotionIntensity :=
  match value with
  | Some name =>
      if String.eqb name "low" then LowIntensity
      else if String.eqb name "medium" then MediumIntensity
      else if String.eqb name "high" then HighIntensity
      else MediumIntensity
  | None => MediumIntensity
  end.

(** [Math.max(0, Math.min(1, x))] *)
Definition clamp (x : Q) : Q := Num.max 0%Q (Num.min 1%Q x).

Definition validateEmotionScores (scores : option (Emotion -> option Q)) : Emotion -> Q :=
  match scores with
  | None => fallbackScores
  | Some scoresObj =>
      fun e => match scoresObj e with
               | Some x => clamp x
               | None => fallbackScores e
               end
  end.

(** [Number(parsed.confidence) || 0.5]: 0 and [NaN] are falsy. *)
Definition confidenceOr (n : option Q) : Q :=
  match n with
  | Some x => if Qeq_bool x 0 then 0.5%Q else x
  | None => 0.5%Q
  end.

Definition parseEmotionResponse (parsed : option EmotionAnswer) (originalMessage : string)
    : EmotionAnalysis :=
  match parsed with
  | None => fallbackEmotionDetection originalMessage
  | Some answer =>
      mkAnalysis
        (validateEmotion (j_primaryEmotion answer))
        (validateIntensity (j_intensity answer))
        (validateEmotionScores (j_emotionScores answer))
        (j_isAngryWithVahant answer)
        (match j_emotionalTriggers answer with
         | Some triggers => firstn 5 triggers
         | None => []
         end)
        (clamp (confidenceOr (j_confidence answer)))
  end.

Definition getDefaultEmotion : EmotionAnalysis :=
  mkAnalysis Neutral LowIntensity
             (fun e => match e with Neutral => 1%Q | _ => 0%Q end) false [] 1%Q.

Definition greetings : list string := ["hi"; "hello"; "hey"; "good morning"; "good evening"].

Definition isSimpleGreeting (message : string) : bool :=
  let lowerMessage := Js.trim (Js.toLowerCase message) in
  existsb (fun greeting =>
             String.eqb lowerMessage greeting
             || String.eqb lowerMessage (greeting ++ " gigi")
             || Js.startsWith lowerMessage (greeting ++ " "))
          greetings.

(** The analysis returned for a simple greeting. *)
Definition greetingEmotion : EmotionAnalysis :=
  mkAnalysis Happy LowIntensity
             (fun e => match e with Happy => 0.8%Q | Neutral => 0.2%Q | _ => 0%Q end)
             false ["greeting"] 0.9%Q.

Definition detectEmotion (conversationHistory : list ChatMessage)
    (model : EmotionModelOutcome) : EmotionAnalysis :=
  match last conversationHistory with
  | None => getDefaultEmotion
  | Some latestMessage =>
      if isSimpleGreeting (m_text latestMessage) then greetingEmotion
      else match model with
           | EmotionModelError => fallbackEmotionDetection (m_text latestMessage)
           | EmotionModelUnparsable => parseEmotionResponse None (m_text latestMessage)
           | EmotionModelParsed answer =>
               parseEmotionResponse (Some answer) (m_text latestMessage)
           end
  end.

(** [containsRelationshipComplaint] *)
Definition containsRelationshipComplaint (message : string) : bool :=
  let lowerMessage := Js.toLowerCase message in
  existsb (Js.includes lowerMessage) ["vahant"; "boyfriend"; "he"]
  && existsb (Js.includes lowerMessage)
             ["annoying"; "frustrating"; "stupid"; "wrong"; "bad"; "hate"].

End EmotionDetector.

(** ** The response engine's post-processing (contextual-response-engine.ts) *)

Module ContextualResponseEngine.

Definition newline : string := String "010" EmptyString.

Definition isHighPriority (c : ConflictInfo) : bool :=
  Severity_eqb (c_severity c) High || ConflictType_eqb (c_conflictType c) Contradiction.

Definition isMedium (c : ConflictInfo) : bool := Severity_eqb (c_severity c) Medium.

Definition integrateConflictClarification (response : string) (cs : list ConflictInfo) : string :=
  match List.filter isHighPriority cs with
  | conflict :: _ =>
      response ++ newline ++ newline ++ "Wait bestie, " ++ c_clarificationQuestion conflict
  | [] =>
      match List.filter isMedium cs with
      | conflict :: _ =>
          response ++ newline ++ newline ++ "By the way, " ++ c_clarificationQuestion conflict
      | [] => response
      end
  end.

(** The part of [ResponseContext] that [determineResponseStrategy] reads. *)
Record ResponseContext : Type := mkContext {
  currentMessage : string;
  emotionAnalysis : EmotionAnalysis;
  learnedFacts : list LearnedFact;
  rc_conflicts : list ConflictInfo
}.

Inductive Priority : Type := Immediate | ClarifyFirst | Learn | Respond.

Record Strategy : Type := mkStrategy {
  s_type : string;
  s_confidence : Q;
  s_priority : Priority
}.

Definition greetingPatterns : list Regex.regex :=
  [ (* /^(hi|hello|hey|hiya|sup|yo)(\s|$)/i *)
    Regex.RSeqs [Regex.RBol; Regex.ROneOf ["hi"; "hello"; "hey"; "hiya"; "sup"; "yo"];
                 Regex.RAlt (Regex.RClass false [Regex.CSpace]) Regex.REol];
    (* /^good\s+(morning|afternoon|evening)/i *)
    Regex.RSeqs [Regex.RBol; Regex.RLit "good"; Regex.RPlus (Regex.RClass false [Regex.CSpace]);
                 Regex.ROneOf ["morning"; "afternoon"; "evening"]];
    (* /^what'?s\s+up/i *)
    Regex.RSeqs [Regex.RBol; Regex.RLit "what"; Regex.ROpt (Regex.RLit "'"); Regex.RLit "s";
                 Regex.RPlus (Regex.RClass false [Regex.CSpace]); Regex.RLit "up"] ].

Definition isGreeting (message : string) : bool :=
  existsb (fun pattern => Regex.test true pattern message) greetingPatterns.

Definition isQuestion (message : string) : bool :=
  Js.includes message "?"
  || existsb (Js.startsWith (Js.toLowerCase message))
             ["what"; "how"; "why"; "when"; "where"; "who"; "can you"; "do you"].

(** The three tests of the high-intensity block fall through to the
    next block when none applies; [factTypes.includes] does not depend
    on the deduplication by [new Set], nor on the guard
    [learnedFacts.length > 0]. *)
Definition determineResponseStrategy (context : ResponseContext) : Strategy :=
  let message := Js.toLowerCase (currentMessage context) in
  let analysis := emotionAnalysis context in
  let factTypes := map f_category (learnedFacts context) in
  if (0 <? length (rc_conflicts context))%nat
     && existsb (fun c => Severity_eqb (c_severity c) High) (rc_conflicts context)
  then mkStrategy "clarification_required" 0.95%Q ClarifyFirst
  else if match intensity analysis with HighIntensity => true | _ => false end
          && isAngryWithVahant analysis
  then mkStrategy "supportive_roast" 0.9%Q Immediate
  else if match intensity analysis, primaryEmotion analysis with
          | HighIntensity, Sad => true | _, _ => false end
  then mkStrategy "emotional_support" 0.9%Q Immediate
  else if match intensity analysis, primaryEmotion analysis with
          | HighIntensity, Excited => true | _, _ => false end
  then mkStrategy "excitement_matching" 0.9%Q Immediate
  else if Js.arr_includes factTypes "plans"
  then mkStrategy "plan_acknowledgment" 0.8%Q Learn
  else if Js.arr_includes factTypes "relationship"
  then mkStrategy "relationship_focus" 0.8%Q Learn
  else if Js.arr_includes factTypes "preferences"
  then mkStrategy "preference_exploration" 0.8%Q Learn
  else if isGreeting message
  then mkStrategy "contextual_greeting" 0.9%Q Respond
  else if isQuestion message
  then mkStrategy "intelligent_answer" 0.7%Q Respond
  else mkStrategy "adaptive_conversation" 0.8%Q Respond.

End ContextualResponseEngine.

(** ** The chat endpoint (enhanced-server.ts) *)

Module Server.




End Server.

(** ** States of the memory bank

    The public operations of the bank, the read methods by their
    bookkeeping effect, and the states they reach from the empty bank. *)

Inductive BankOp : Type :=
| OpStoreFact (fact : LearnedFact) (relatedFactIds : list string)
| OpUpdateFactConfidence (factId : string) (newConfidence : Q) (verified : bool)
| OpResolveConflict (conflictInfo : ConflictInfo) (userChoice : UserChoice)
| OpImportKnowledge (knowledge : Knowledge)
| OpCleanup (minConfidence maxAge : Q)
| OpAccess (factIds : list string).

Definition runOp (now : Z) (op : BankOp) (b : MemoryBank) : MemoryBank :=
  match op with
  | OpStoreFact fact related => IntelligentMemoryBank.storeFact now fact related b
  | OpUpdateFactConfidence factId c v =>
      IntelligentMemoryBank.updateFactConfidence now factId c v b
  | OpResolveConflict ci choice => IntelligentMemoryBank.resolveConflict now ci choice b
  | OpImportKnowledge k => IntelligentMemoryBank.importKnowledge now k b
  | OpCleanup minConfidence maxAge =>
      IntelligentMemoryBank.cleanup now minConfidence maxAge b
  | OpAccess factIds => IntelligentMemoryBank.access now factIds b
  end.

(** The states reached from the empty bank by operations that satisfy [ok]. *)
Inductive reachable_by (ok : BankOp -> Prop) : MemoryBank -> Prop :=
| reachable_empty : reachable_by ok IntelligentMemoryBank.empty
| reachable_run now op b :
    ok op -> reachable_by ok b -> reachable_by ok (runOp now op b).

Definition reachable : MemoryBank -> Prop := reachable_by (fun _ => True).

Definition in_unit_interval (q : Q) : Prop := (0 <= q)%Q /\ (q <= 1)%Q.

(** The facts an operation hands to the bank carry a confidence in [0,1]. *)
Definition confident_input (op : BankOp) : Prop :=
  match op with
  | OpStoreFact fact _ => in_unit_interval (f_confidence fact)
  | OpResolveConflict ci _ =>
      in_unit_interval (f_confidence (c_newFact ci))
      /\ in_unit_interval (f_confidence (c_existingFact ci))
  | _ => True
  end.

Definition confidences_in_unit_interval (b : MemoryBank) : Prop :=
  forall k e, memory b !! k = Some e -> in_unit_interval (e_confidence e).

(** Every entry is filed under the id of its fact. *)
Definition keys_ok (b : MemoryBank) : Prop :=
  forall k e, memory b !! k = Some e -> f_id (e_fact e) = k.

(** Every id in an index bucket has an entry. *)
Definition index_sound (b : MemoryBank) : Prop :=
  (forall c s i, categoryIndex b !! c = Some s -> i ∈ s -> is_Some (memory b !! i))
  /\ (forall d s i, timelineIndex b !! d = Some s -> i ∈ s -> is_Some (memory b !! i)).

(** Every entry is in the bucket of its category and of its day. *)
Definition index_complete (b : MemoryBank) : Prop :=
  forall k e, memory b !! k = Some e ->
    (exists s, categoryIndex b !! f_category (e_fact e) = Some s /\ k ∈ s)
    /\ (exists s, timelineIndex b !! IntelligentMemoryBank.toDateString (f_timestamp (e_fact e))
                  = Some s /\ k ∈ s).

(** The (category, id, content) triple of an entry, and the triples of a bank. *)
Definition triple (e : MemoryEntry) : string * string * string :=
  (f_category (e_fact e), f_id (e_fact e), f_content (e_fact e)).

Definition triples (b : MemoryBank) : gset (string * string * string) :=
  list_to_set (triple <$> (map_to_list (memory b)).*2).

(** [knowledge[category][key]] *)
Definition klookup (knowledge : Knowledge) (category key : string) : option string :=
  default ∅ (knowledge !! category) !! key.

(** The (category, key, content) entries of a snapshot, in the order
    [importKnowledge] visits them. *)
Definition flatten (knowledge : Knowledge) : list (string * string * string) :=
  cf ← map_to_list knowledge;
  (fun kv : string * string => (cf.1, kv.1, kv.2)) <$> map_to_list cf.2.

(** One step of [importKnowledge]: storing one snapshot entry. *)
Definition storeImported (now : Z) (b : MemoryBank) (t : string * string * string) : MemoryBank :=
  IntelligentMemoryBank.storeFact now
    (IntelligentMemoryBank.importedFact now t.1.1 t.1.2 t.2) [] b.

(** The entry [importKnowledge] files for a snapshot entry. *)
Definition importedEntry (now : Z) (t : string * string * string) : MemoryEntry :=
  mkEntry (IntelligentMemoryBank.importedFact now t.1.1 t.1.2 t.2) now 0 true 0.8%Q [].

(** ** Conflicts reported by [detectConflicts] *)

(** What the accumulators of [detectConflicts] hold at any time. *)
Definition only_clarifications (acc : ConflictResolver.Acc) : Prop :=
  ConflictResolver.a_auto acc = []
  /\ Forall (fun c => c_conflictType c <> Inconsistency /\ c_suggestedResolution c = Clarify)
            (ConflictResolver.a_conflicts acc).

(** The conflicts reported for the pair of the new fact [factId] and the
    snapshot entry [key]. *)
Definition conflictsOfPair (factId key : string) (cs : list ConflictInfo) : list ConflictInfo :=
  filter (fun c => f_id (c_newFact c) = factId /\ f_id (c_existingFact c) = key) cs.

(** The two contents share a word of more than three characters. *)
Definition shareLongWord (text1 text2 : string) : Prop :=
  exists w, In w (Js.split Js.space text1) /\ In w (Js.split Js.space text2)
            /\ (3 < String.length w)%nat.

(** One content likes, the other dislikes. *)
Definition polarityClash (newContent existingContent : string) : Prop :=
  (ConflictResolver.some_included ConflictResolver.likeWords newContent = true
   /\ ConflictResolver.some_included ConflictResolver.dislikeWords existingContent = true)
  \/ (ConflictResolver.some_included ConflictResolver.dislikeWords newContent = true
      /\ ConflictResolver.some_included ConflictResolver.likeWords existingContent = true).

(** The snapshot of the second end-to-end scenario. *)
Definition spicySnapshot : Knowledge :=
  {[ "preferences" := {[ "fact_1000_1" := "I love spicy food" ]} ]}.

(** ** Concrete inputs *)

Definition dateWithSam : string := "I'm going on a date with Sam tomorrow".
Definition dateWithVahant : string := "I'm going on a date with Vahant tomorrow".

Definition staleFact : LearnedFact :=
  mkFact "fact_1_1" "Current emotion: sad" "emotions" 0.2%Q 1000 "I feel sad" true.

(** A fact stored twice under one id, first as a plan and then as an
    emotion of low confidence. *)
Definition planFact : LearnedFact :=
  mkFact "a" "Plans to visit: the lake" "plans" 0.7%Q 1000 "going to the lake" true.

Definition moodFact : LearnedFact :=
  mkFact "a" "Current emotion: nervous" "emotions" 0.1%Q 1000 "feeling nervous" true.

Definition restoredAndCleaned : MemoryBank :=
  runOp (100 * IntelligentMemoryBank.msPerDay) (OpCleanup 0.3%Q 30%Q)
    (runOp 2000 (OpStoreFact moodFact [])
       (runOp 1000 (OpStoreFact planFact []) IntelligentMemoryBank.empty)).

(** A fact whose category names a property of [Object.prototype]; the
    category of a model answer is not checked against the seven names. *)
Definition constructorFact : LearnedFact :=
  mkFact "fact_1000_9" "Builds model ships" "constructor" 0.8%Q 1000
         "My dad is a constructor of model ships" true.

(** A fact filed under the id ["__proto__"]. *)
Definition protoFact : LearnedFact :=
  mkFact "__proto__" "Has a sister called Mia" "personal" 0.8%Q 1000
         "I have a sister called Mia" true.

(** A model answer that reports a confidence above 1. *)
Definition overconfidentReply : ModelOutcome :=
  ModelParsed [Some (mkFactData "Date with Vahant moved to Friday" "plans" 1.5%Q false)].

Definition overconfidentFact : LearnedFact :=
  mkFact "fact_1000_1" "Date with Vahant moved to Friday" "plans" 1.5%Q 1000
         "We moved our date to Friday" true.

(** Two conflicts between stored preference facts, both resolved by a
    merge while the clock shows the same millisecond. *)
Definition loveFact : LearnedFact :=
  mkFact "fact_1000_1" "I love spicy food" "preferences" 0.8%Q 1000 "I love spicy food" true.

Definition hateFact : LearnedFact :=
  mkFact "fact_2000_2" "I hate spicy food" "preferences" 0.9%Q 2000 "I hate spicy food" true.

Definition enjoyFact : LearnedFact :=
  mkFact "fact_3000_3" "I enjoy hiking" "preferences" 0.6%Q 3000 "I enjoy hiking" true.

Definition avoidFact : LearnedFact :=
  mkFact "fact_4000_4" "I avoid hiking" "preferences" 0.7%Q 4000 "I avoid hiking" true.

Definition spicyConflict : ConflictInfo :=
  mkConflict "conflict_2000_1" hateFact loveFact Contradiction Medium
    "I'm confused - do you like or dislike spicy? You've mentioned both!" Clarify.

(** A conflict of medium severity that is no contradiction. *)
Definition dinnerConflict : ConflictInfo :=
  mkConflict "conflict_3000_3" avoidFact enjoyFact Temporal Medium
    "Wait, when is this happening? I have different timing in my memory!" Clarify.

Definition hikingConflict : ConflictInfo :=
  mkConflict "conflict_4000_2" avoidFact enjoyFact Contradiction Medium
    "I'm confused - do you like or dislike hiking? You've mentioned both!" Clarify.

Definition fourFacts : MemoryBank :=
  runOp 4000 (OpStoreFact avoidFact [])
    (runOp 3000 (OpStoreFact enjoyFact [])
       (runOp 2000 (OpStoreFact hateFact [])
          (runOp 1000 (OpStoreFact loveFact []) IntelligentMemoryBank.empty))).

Definition afterFirstMerge : MemoryBank :=
  runOp 5000 (OpResolveConflict spicyConflict ChooseMerge) fourFacts.

Definition afterSecondMerge : MemoryBank :=
  runOp 5000 (OpResolveConflict hikingConflict ChooseMerge) afterFirstMerge.

(** A message of a chat session. *)
Definition helloMessage : ChatMessage :=
  mkMessage "msg-1" "I am going out with Vahant" User (Some 1000).

(** ** States of the session store *)

Inductive SessionOp : Type :=
| SGetOrCreate (uuid : string) (sid : option string) (initialMessage : option ChatMessage)
| SUpdate (sid : string) (message : ChatMessage) (emotion : option string)
| SCleanupExpired.

Definition runSessionOp (now : Z) (op : SessionOp) (sessions : gmap string ConversationSession)
    : gmap string ConversationSession :=
  match op with
  | SGetOrCreate uuid sid initialMessage =>
      (ConversationSessionManager.getOrCreateSession now uuid sid initialMessage sessions).2
  | SUpdate sid message emotion =>
      ConversationSessionManager.updateSession now sid message emotion sessions
  | SCleanupExpired => ConversationSessionManager.cleanupExpiredSessions now sessions
  end.

Inductive reachable_sessions : gmap string ConversationSession -> Prop :=
| reachable_sessions_empty : reachable_sessions ∅
| reachable_sessions_run now op sessions :
    reachable_sessions sessions -> reachable_sessions (runSessionOp now op sessions).

(** The topics the eight patterns can produce. *)
Definition topicNames : list string :=
  ConversationSessionManager.topicPatterns.*2.

(** A session is filed under its own id and tracks at most five
    distinct topics, all of them known ones. *)
Definition session_ok (sid : string) (session : ConversationSession) : Prop :=
  sessionId session = sid
  /\ (length (currentTopics (context session)) <= 5)%nat
  /\ NoDup (currentTopics (context session))
  /\ Forall (fun t => t ∈ topicNames) (currentTopics (context session)).

(** A user message that no stored message resembles. *)
Definition laterMessage : ChatMessage :=
  mkMessage "msg-2" "We are going to the lake" User (Some 5000).

(** ** Results of the read methods *)

(** A list in descending order of [key]. *)
Definition descending {A} (key : A -> Q) (l : list A) : Prop :=
  StronglySorted (fun a b => (key b <= key a)%Q) l.

(** The ids of a category bucket; none when the category has no bucket. *)
Definition bucketOf (category : string) (b : MemoryBank) : gset string :=
  default ∅ (categoryIndex b !! category).

(** Every index bucket holds at least one id. *)
Definition no_empty_bucket (b : MemoryBank) : Prop :=
  (forall c s, categoryIndex b !! c = Some s -> s <> ∅)
  /\ (forall d s, timelineIndex b !! d = Some s -> s <> ∅).

(** The number of entries of a category. *)
Definition countOfCategory (category : string) (b : MemoryBank) : nat :=
  length (List.filter (fun entry => String.eqb (f_category (e_fact entry)) category)
                      (map_to_list (memory b)).*2).

(** The sum of the numbers of a [factsByCategory] object. *)
Definition numberOf (t : IntelligentMemoryBank.Tally) : nat :=
  match t with
  | IntelligentMemoryBank.Counted n => n
  | IntelligentMemoryBank.Garbled _ => 0%nat
  end.

Definition sumCounts (counts : gmap string IntelligentMemoryBank.Tally) : nat :=
  map_fold (fun _ t acc => (numberOf t + acc)%nat) 0%nat counts.

(** No category of the bank names a property of [Object.prototype], and
    no id is ["__proto__"]: the keys for which a plain object behaves as
    a map. *)
Definition plain_categories (b : MemoryBank) : Prop :=
  forall k e, memory b !! k = Some e -> Js.inherited (f_category (e_fact e)) = false.

Definition plain_keys (b : MemoryBank) : Prop :=
  forall k e, memory b !! k = Some e ->
    Js.inherited (f_category (e_fact e)) = false /\ f_id (e_fact e) <> "__proto__".

(** The buckets list exactly the entries of their category and day. *)
Definition index_exact (b : MemoryBank) : Prop :=
  (forall c k, k ∈ bucketOf c b
               <-> exists e, memory b !! k = Some e /\ f_category (e_fact e) = c)
  /\ (forall d k, k ∈ default ∅ (timelineIndex b !! d)
                  <-> exists e, memory b !! k = Some e
                                /\ IntelligentMemoryBank.toDateString (f_timestamp (e_fact e)) = d).

(** The states reached when no id is ever stored again under another
    category or another day.  The steps are the four primitive writes:
    [resolveConflict], [importKnowledge] and [cleanup] are made of them. *)
Inductive tidy : MemoryBank -> Prop :=
| tidy_empty : tidy IntelligentMemoryBank.empty
| tidy_store now fact related b :
    tidy b ->
    (forall e, memory b !! f_id fact = Some e ->
       f_category (e_fact e) = f_category fact
       /\ IntelligentMemoryBank.toDateString (f_timestamp (e_fact e))
          = IntelligentMemoryBank.toDateString (f_timestamp fact)) ->
    tidy (IntelligentMemoryBank.storeFact now fact related b)
| tidy_update now factId c v b :
    tidy b -> tidy (IntelligentMemoryBank.updateFactConfidence now factId c v b)
| tidy_delete factId b :
    tidy b -> tidy (IntelligentMemoryBank.deleteFact factId b)
| tidy_access now factIds b :
    tidy b -> tidy (IntelligentMemoryBank.access now factIds b).

(** ** What [detectConflicts] keeps track of *)

(** A reported conflict pairs one of the new facts with the stand-in
    built from an entry of the snapshot, under the new fact's category. *)
Definition from_snapshot (now : Z) (newFacts : list LearnedFact) (existingFacts : Knowledge)
    (c : ConflictInfo) : Prop :=
  c_newFact c ∈ newFacts
  /\ exists key content,
       klookup existingFacts (f_category (c_newFact c)) key = Some content
       /\ c_existingFact c = ConflictResolver.mockExistingFact now (c_newFact c) content key.

(** The ids drawn from the counter, starting after [counter]. *)
Definition conflictIds (now : Z) (counter n : nat) : list string :=
  (fun i => ConflictResolver.generateConflictId now (counter + i)) <$> seq 0 n.

Definition bookkeeping (now : Z) (counter : nat) (newFacts : list LearnedFact)
    (existingFacts : Knowledge) (acc : ConflictResolver.Acc) : Prop :=
  ConflictResolver.a_attention acc
  = List.filter ContextualResponseEngine.isHighPriority (ConflictResolver.a_conflicts acc)
  /\ ConflictResolver.a_counter acc = (counter + length (ConflictResolver.a_conflicts acc))%nat
  /\ c_conflictId <$> ConflictResolver.a_conflicts acc
     = conflictIds now counter (length (ConflictResolver.a_conflicts acc))
  /\ Forall (from_snapshot now newFacts existingFacts) (ConflictResolver.a_conflicts acc).

(** The three kinds of conflict [detectConflicts] can report. *)
Definition reported_kind (c : ConflictInfo) : Prop :=
  (c_conflictType c = Contradiction /\ (c_severity c = High \/ c_severity c = Medium))
  \/ (c_conflictType c = Temporal /\ c_severity c = Medium)
  \/ (c_conflictType c = Ambiguity /\ c_severity c = Low /\ f_verified (c_newFact c) = false).

(** ** What the fact learner hands out *)

(** The ids drawn from the fact counter, starting after [counter]. *)
Definition factIds (now : Z) (counter n : nat) : list string :=
  (fun i => (RealTimeFactLearner.generateFactId now (counter + i)).1) <$> seq 0 n.

(** A fact of the fallback path. *)
Definition fallback_fact (now : Z) (message : string) (fact : LearnedFact) : Prop :=
  f_confidence fact = 0.7%Q /\ f_verified fact = true /\ f_timestamp fact = now
  /\ f_source fact = message
  /\ f_category fact ∈ ["plans"; "preferences"; "emotions"].

(** The part of a fact that comes from the model's answer. *)
Definition answered (fact : LearnedFact) : string * string * Q * bool :=
  (f_content fact, f_category fact, f_confidence fact, f_verified fact).

Definition answer (d : FactData) : string * string * Q * bool :=
  (d_content d, d_category d, d_confidence d, negb (d_needsVerification d)).

(** ** What the emotion fallback counts *)

Definition angryKeywords : list string :=
  ["angry"; "mad"; "furious"; "annoyed"; "irritated"; "frustrated"; "pissed"].

(** No keyword of any list occurs in the message. *)
Definition no_keyword (lowerMessage : string) : Prop :=
  forall entry, entry ∈ EmotionDetector.emotionKeywords ->
                EmotionDetector.hits lowerMessage entry.2 = 0%nat.

Definition scores_in_unit_interval (analysis : EmotionAnalysis) : Prop :=
  forall e, in_unit_interval (emotionScores analysis e).

(** A message that greets first and complains after. *)
Definition heyComplaint : ChatMessage :=
  mkMessage "msg-2" "Hey Vahant is so annoying, I am furious, mad and pissed" User (Some 2000).

(** Some conflict of the context is of high severity. *)
Definition has_high_conflict (cs : list ConflictInfo) : Prop :=
  exists c, c ∈ cs /\ c_severity c = High.

(** ** Proof automation *)

(** Evaluate the pattern matches on a closed message. *)
Ltac eval_exec :=
  match goal with
  | |- context [Regex.exec ?b ?r ?m] =>
      let v := eval vm_compute in (Regex.exec b r m) in
      replace (Regex.exec b r m) with v by (vm_compute; reflexivity)
  end.

Ltac run_patterns :=
  unfold RealTimeFactLearner.fallbackFactExtraction, RealTimeFactLearner.fallbackPatterns;
  repeat (cbn [RealTimeFactLearner.applyPatterns RealTimeFactLearner.p_pattern
       RealTimeFactLearner.p_category RealTimeFactLearner.p_template
       RealTimeFactLearner.generateFactId];
          eval_exec);
  cbn [RealTimeFactLearner.applyPatterns RealTimeFactLearner.p_pattern
       RealTimeFactLearner.p_category RealTimeFactLearner.p_template
       RealTimeFactLearner.generateFactId].

(** Case analysis on the tests of a detector. *)
Ltac split_tests H :=
  repeat match type of H with
         | context [if ?b then _ else _] => destruct b eqn:?
         | context [match ?x with _ => _ end] => destruct x eqn:?
         end;
  try discriminate H.

(** * Properties *)

(** ** The fact learner's fallback path *)

Section FactLearnerFacts.

Import RealTimeFactLearner.

Lemma fallback_sam now c :
  fallbackFactExtraction now c dateWithSam = (mkExtraction [] 0%Q [], c).
Proof. run_patterns. reflexivity. Qed.

Lemma fallback_vahant now c :
  fallbackFactExtraction now c dateWithVahant
  = (mkExtraction
       [mkFact ("fact_" ++ pretty now ++ "_" ++ pretty (S c))
               "Plans to go on date with Vahant" "plans" 0.7%Q now dateWithVahant true]
       0.7%Q [], S c).
Proof. run_patterns. reflexivity. Qed.

Lemma isSimpleMessage_vahant : isSimpleMessage dateWithVahant = false.
Proof. vm_compute. reflexivity. Qed.

Lemma isSimpleMessage_sam : isSimpleMessage dateWithSam = false.
Proof. vm_compute. reflexivity. Qed.

(** C1, as the specification states it, fails: with the model disabled
    the message about Sam yields no fact at all, so not one fact of
    category plans. *)
Lemma C1_sam_yields_no_fact :
  ~ (exists f,
        r_facts (extractFacts 0 0 ModelError dateWithSam).1 = [f]
        /\ f_category f = "plans"
        /\ Qeq (f_confidence f) 0.7%Q
        /\ Js.includes (f_content f) "date" = true
        /\ Js.includes (f_content f) "Sam" = true).
Proof.
  unfold extractFacts. rewrite isSimpleMessage_sam, fallback_sam. simpl.
  intros (f & Hf & _). discriminate Hf.
Qed.

(** C1, amended: the fallback path (model call failed) turns the message
    "I'm going on a date with Vahant tomorrow" into exactly one fact, of
    category plans and confidence 0.7, whose content is "Plans to go on
    date with Vahant" and so contains "date" and "Vahant"; the same
    sentence about Sam matches none of the four patterns and yields no
    fact. *)
Theorem C1_fallback_date_with_vahant (now : Z) (factCounter : nat) :
  let fact := mkFact ("fact_" ++ pretty now ++ "_" ++ pretty (S factCounter))
                     "Plans to go on date with Vahant" "plans" 0.7%Q now dateWithVahant true in
  extractFacts now factCounter ModelError dateWithVahant
    = (mkExtraction [fact] 0.7%Q [], S factCounter)
  /\ fallbackFactExtraction now factCounter dateWithVahant
    = (mkExtraction [fact] 0.7%Q [], S factCounter)
  /\ Js.includes (f_content fact) "date" = true
  /\ Js.includes (f_content fact) "Vahant" = true
  /\ r_facts (extractFacts now factCounter ModelError dateWithSam).1 = [].
Proof.
  intros fact.
  pose proof (fallback_vahant now factCounter) as Hfb.
  split; [|split; [|split; [|split]]].
  - unfold extractFacts. rewrite isSimpleMessage_vahant. exact Hfb.
  - exact Hfb.
  - reflexivity.
  - reflexivity.
  - unfold extractFacts. rewrite isSimpleMessage_sam, fallback_sam. reflexivity.
Qed.

End FactLearnerFacts.

(** ** The memory bank: what each operation does to the entry map *)

Section BankBasics.

Import IntelligentMemoryBank.

Lemma memory_storeFact now fact related b :
  memory (storeFact now fact related b)
  = <[f_id fact := mkEntry fact now 0 (f_verified fact) (f_confidence fact) related]> (memory b).
Proof. reflexivity. Qed.

Lemma memory_updateFactConfidence now k c v b :
  memory (updateFactConfidence now k c v b)
  = match memory b !! k with
    | Some e => <[k := mkEntry (e_fact e) now (e_accessCount e) v (clamp01 c) (e_relatedFacts e)]>
                  (memory b)
    | None => memory b
    end.
Proof. unfold updateFactConfidence. destruct (memory b !! k); reflexivity. Qed.

Lemma memory_deleteFact k b : memory (deleteFact k b) = delete k (memory b).
Proof.
  unfold deleteFact. destruct (memory b !! k) eqn:E; [reflexivity|].
  symmetry. apply delete_id. exact E.
Qed.

Lemma memory_fold_deleteFact ks b :
  memory (fold_left (fun b' k => deleteFact k b') ks b)
  = fold_left (fun m k => delete k m) ks (memory b).
Proof.
  revert b. induction ks as [|k ks IH]; intros b; simpl; [reflexivity|].
  rewrite IH, memory_deleteFact. reflexivity.
Qed.

Lemma lookup_fold_delete {V} (ks : list string) (m : gmap string V) (k : string) :
  fold_left (fun m' k' => delete k' m') ks m !! k
  = if decide (k ∈ ks) then None else m !! k.
Proof.
  revert m. induction ks as [|k' ks IH]; intros m; cbn [fold_left].
  - case_decide as H; [inversion H|reflexivity].
  - rewrite IH. destruct (decide (k = k')) as [->|Hne].
    + rewrite lookup_delete_eq, (decide_True (P := k' ∈ k' :: ks)) by left.
      destruct (decide (k' ∈ ks)); reflexivity.
    + rewrite lookup_delete_ne by congruence.
      destruct (decide (k ∈ ks)) as [Hin|Hnin].
      * rewrite decide_True by (right; exact Hin). reflexivity.
      * rewrite decide_False; [reflexivity|].
        intros [?|?]%elem_of_cons; contradiction.
Qed.

Lemma elem_of_toDelete now minConfidence maxAge b k :
  k ∈ toDelete now minConfidence maxAge b
  <-> exists e, memory b !! k = Some e /\ shouldDelete now minConfidence maxAge e = true.
Proof.
  unfold toDelete. rewrite list_elem_of_fmap. split.
  - intros ([k' e] & -> & Hin). apply list_elem_of_In, filter_In in Hin as [Hin Hd].
    apply list_elem_of_In, elem_of_map_to_list in Hin. exists e. split; assumption.
  - intros (e & Hk & Hd). exists (k, e). split; [reflexivity|].
    apply list_elem_of_In, filter_In. split; [|exact Hd].
    apply list_elem_of_In, elem_of_map_to_list. exact Hk.
Qed.

Lemma lookup_cleanup now minConfidence maxAge b k :
  memory (cleanup now minConfidence maxAge b) !! k
  = match memory b !! k with
    | Some e => if shouldDelete now minConfidence maxAge e then None else Some e
    | None => None
    end.
Proof.
  unfold cleanup. rewrite memory_fold_deleteFact, lookup_fold_delete.
  case_decide as Hin.
  - apply elem_of_toDelete in Hin as (e & -> & ->). reflexivity.
  - destruct (memory b !! k) as [e|] eqn:E; [|reflexivity].
    destruct (shouldDelete now minConfidence maxAge e) eqn:Hd; [|reflexivity].
    exfalso. apply Hin, elem_of_toDelete. exists e. split; assumption.
Qed.

Lemma touch_iter now n e :
  e_fact (Nat.iter n (touch now) e) = e_fact e
  /\ e_confidence (Nat.iter n (touch now) e) = e_confidence e.
Proof. induction n as [|n [IH1 IH2]]; simpl; auto. Qed.

Lemma lookup_fold_alter {V} (f : V -> V) (ks : list string) (m : gmap string V) (k : string) :
  exists n, fold_left (fun m' k' => alter f k' m') ks m !! k = Nat.iter n f <$> m !! k.
Proof.
  revert m. induction ks as [|k' ks IH]; intros m; cbn [fold_left].
  - exists 0%nat. destruct (m !! k); reflexivity.
  - destruct (IH (alter f k' m)) as [n Hn]. rewrite Hn.
    destruct (decide (k' = k)) as [->|Hne].
    + exists (S n). rewrite lookup_alter_eq. destruct (m !! k); [|reflexivity].
      cbn. f_equal. symmetry. apply Nat.iter_succ_r.
    + exists n. rewrite lookup_alter_ne by exact Hne. reflexivity.
Qed.

(** Reading touches entries, it neither adds nor removes nor rewrites facts. *)
Lemma lookup_access now ids b k :
  exists n, memory (access now ids b) !! k = Nat.iter n (touch now) <$> memory b !! k.
Proof. apply lookup_fold_alter. Qed.

Lemma ltb_spec (a b : Q) : Num.ltb a b = true <-> (a < b)%Q.
Proof.
  unfold Num.ltb. rewrite negb_true_iff. split.
  - intros H. apply Qnot_le_lt. intros Hle. apply Qle_bool_iff in Hle. congruence.
  - intros H. destruct (Qle_bool b a) eqn:E; [|reflexivity].
    apply Qle_bool_iff in E. exfalso. exact (Qlt_not_le _ _ H E).
Qed.

Lemma validTime_spec (t : Z) : Js.validTime t = true <-> Z.abs t <= Js.maxTime.
Proof. unfold Js.validTime. apply Z.leb_le. Qed.

(** A whole number of [unit]s before [now]: the date is valid exactly
    when the exact difference is within range. *)
Lemma newDate_whole now (n unit : Z) :
  newDate (inject_Z now - inject_Z n * inject_Z unit)%Q
  = if Js.validTime (now - n * unit) then Some (now - n * unit) else None.
Proof.
  unfold newDate.
  assert (Ht : truncate (inject_Z now - inject_Z n * inject_Z unit)%Q = now - n * unit).
  { unfold truncate, inject_Z, Qminus, Qplus, Qmult, Qopp. simpl.
    rewrite Z.quot_1_r. lia. }
  assert (Hlo : Qle_bool (inject_Z (- Js.maxTime))
                         (inject_Z now - inject_Z n * inject_Z unit)%Q
                = (- Js.maxTime <=? now - n * unit)).
  { apply eq_true_iff_eq. rewrite Qle_bool_iff, Z.leb_le.
    unfold Qle, inject_Z, Qminus, Qplus, Qmult, Qopp. simpl. lia. }
  assert (Hhi : Qle_bool (inject_Z now - inject_Z n * inject_Z unit)%Q
                         (inject_Z Js.maxTime)
                = (now - n * unit <=? Js.maxTime)).
  { apply eq_true_iff_eq. rewrite Qle_bool_iff, Z.leb_le.
    unfold Qle, inject_Z, Qminus, Qplus, Qmult, Qopp. simpl. lia. }
  rewrite Hlo, Hhi, Ht. unfold Js.validTime.
  destruct (Z.leb_spec (- Js.maxTime) (now - n * unit));
    destruct (Z.leb_spec (now - n * unit) Js.maxTime);
    destruct (Z.leb_spec (Z.abs (now - n * unit)) Js.maxTime); cbn; try reflexivity; lia.
Qed.

(** For a whole number of days the cutoff is that many days before
    [now], as long as that is a valid date. *)
Lemma cutoffDate_whole_days now (days : Z) :
  cutoffDate now (inject_Z days)
  = if Js.validTime (now - days * msPerDay) then Some (now - days * msPerDay) else None.
Proof. apply newDate_whole. Qed.

Lemma shouldDelete_spec now minConfidence maxAge e :
  shouldDelete now minConfidence maxAge e = true
  <-> (e_confidence e < minConfidence)%Q
      /\ (exists cutoff, cutoffDate now maxAge = Some cutoff
                         /\ f_timestamp (e_fact e) < cutoff)
      /\ e_accessCount e = 0%nat.
Proof.
  unfold shouldDelete. rewrite !andb_true_iff, ltb_spec, Nat.eqb_eq.
  destruct (cutoffDate now maxAge) as [cutoff|].
  - rewrite Z.ltb_lt. split.
    + intros [[? ?] ?]. split; [assumption|]. split; [eauto|assumption].
    + intros (? & (c & [= <-] & ?) & ?). auto.
  - split; [intros [[_ H] _]; discriminate|].
    intros (_ & (c & H & _) & _). discriminate.
Qed.

(** With an invalid cutoff nothing qualifies. *)
Lemma toDelete_invalid now minConfidence maxAge b :
  cutoffDate now maxAge = None -> toDelete now minConfidence maxAge b = [].
Proof.
  intros Hc. unfold toDelete.
  replace (List.filter _ (map_to_list (memory b))) with (@nil (string * MemoryEntry));
    [reflexivity|].
  symmetry. induction (map_to_list (memory b)) as [|kv l IH]; [reflexivity|].
  cbn [List.filter]. unfold shouldDelete at 1. rewrite Hc, andb_false_r. exact IH.
Qed.

End BankBasics.

(** ** Cleanup *)

Section Cleanup.

Import IntelligentMemoryBank.

(** C6, as the specification states it, fails for an age limit whose
    cutoff is not a valid date.  A limit of minus 10^9 days puts the
    cutoff beyond the range of [Date]: every comparison with it is
    false, and the fact stays although its confidence is below the
    floor, its timestamp is before the cutoff and it was never read. *)
Lemma C6_invalid_cutoff_removes_nothing :
  let now := 100 * msPerDay in
  let days := -1000000000 in
  let b := storeFact 1000 staleFact [] empty in
  let entry := mkEntry staleFact 1000 0 true 0.2%Q [] in
  memory b !! "fact_1_1" = Some entry
  /\ ~ (memory (cleanup now 0.3%Q (inject_Z days) b) !! "fact_1_1" = None
        <-> (e_confidence entry < 0.3)%Q
            /\ f_timestamp (e_fact entry) < now - days * msPerDay
            /\ e_accessCount entry = 0%nat).
Proof.
  intros now days b entry. split; [reflexivity|].
  intros [_ H].
  assert (Hkept : memory (cleanup now 0.3%Q (inject_Z days) b) !! "fact_1_1" = Some entry).
  { unfold cleanup. rewrite toDelete_invalid; [reflexivity|].
    rewrite cutoffDate_whole_days. reflexivity. }
  rewrite H in Hkept; [discriminate|].
  split; [reflexivity|]. split; [reflexivity|reflexivity].
Qed.

(** C6, amended: at a valid time [now] and for a whole number of days
    whose cutoff, that many days before now, is a valid date, cleanup
    removes a stored fact exactly
    when its entry's confidence is strictly below [minConfidence], its
    timestamp is before the cutoff and its access count is 0.  When the
    cutoff is not a valid date cleanup removes nothing.  Whatever the
    age limit, a fact that is kept is kept unchanged, and a fact with a
    positive access count is never removed. *)
Theorem C6_cleanup_removes_exactly_the_stale_unused
    (now : Z) (minConfidence maxAge : Q) (b : MemoryBank) (factId : string) (entry : MemoryEntry) :
  memory b !! factId = Some entry ->
  Z.abs now <= 8640000000000000 ->
  let b' := cleanup now minConfidence maxAge b in
  (forall days : Z,
     maxAge = inject_Z days ->
     (Z.abs (now - days * 86400000) <= 8640000000000000 ->
      (memory b' !! factId = None
       <-> (e_confidence entry < minConfidence)%Q
           /\ f_timestamp (e_fact entry) < now - days * 86400000
           /\ e_accessCount entry = 0%nat))
     /\ (8640000000000000 < Z.abs (now - days * 86400000) -> b' = b))
  /\ (memory b' !! factId <> None -> memory b' !! factId = Some entry)
  /\ ((0 < e_accessCount entry)%nat -> memory b' !! factId = Some entry).
Proof.
  intros Hk _ b'. subst b'. split; [|split].
  - intros days ->.
    pose proof (cutoffDate_whole_days now days) as Hc.
    change msPerDay with 86400000 in Hc. split.
    + intros Hvalid. rewrite (proj2 (validTime_spec _) Hvalid) in Hc.
      rewrite lookup_cleanup, Hk.
      destruct (shouldDelete now minConfidence (inject_Z days) entry) eqn:Hd.
      * apply shouldDelete_spec in Hd as (H1 & (c & Hc' & H2) & H3).
        rewrite Hc in Hc'. injection Hc' as <-. tauto.
      * split; [discriminate|]. intros (H1 & H2 & H3). exfalso.
        assert (shouldDelete now minConfidence (inject_Z days) entry = true) as Hd'.
        { apply shouldDelete_spec. split; [exact H1|]. split; [eauto|exact H3]. }
        congruence.
    + intros Hinvalid.
      replace (Js.validTime (now - days * 86400000)) with false in Hc.
      * unfold cleanup. rewrite toDelete_invalid by exact Hc. reflexivity.
      * symmetry. apply not_true_is_false. intros Hv. apply validTime_spec in Hv.
        change Js.maxTime with 8640000000000000 in Hv. lia.
  - rewrite lookup_cleanup, Hk.
    destruct (shouldDelete now minConfidence maxAge entry); [intros H; contradiction|auto].
  - intros Hpos. rewrite lookup_cleanup, Hk.
    destruct (shouldDelete now minConfidence maxAge entry) eqn:Hd; [|reflexivity].
    apply shouldDelete_spec in Hd as (_ & _ & H0). lia.
Qed.

(** A fact of confidence 0.2, a hundred days old and never read, is
    removed by the default cleanup. *)
Lemma C6_cleanup_witness :
  let b := storeFact 1000 staleFact [] empty in
  let b' := cleanup (100 * msPerDay) 0.3%Q (inject_Z 30) b in
  memory b !! "fact_1_1" = Some (mkEntry staleFact 1000 0 true 0.2%Q [])
  /\ memory b' !! "fact_1_1" = None.
Proof.
  intros b b'. split; [reflexivity|].
  assert (Hnow : Z.abs (100 * msPerDay) <= 8640000000000000) by (vm_compute; discriminate).
  destruct (C6_cleanup_removes_exactly_the_stale_unused (100 * msPerDay) 0.3%Q (inject_Z 30) b
              "fact_1_1" (mkEntry staleFact 1000 0 true 0.2%Q []) eq_refl Hnow) as [H _].
  destruct (H 30 eq_refl) as [Hvalid _].
  apply Hvalid; [vm_compute; discriminate|].
  vm_compute. repeat split; reflexivity.
Defined.

End Cleanup.

(** ** Invariants of the reachable states *)

Section BankInvariants.

Import IntelligentMemoryBank.

Lemma fold_left_preserves {A B} (P : A -> Prop) (f : A -> B -> A) (l : list B) (a : A) :
  P a -> (forall a' x, P a' -> P (f a' x)) -> P (fold_left f l a).
Proof.
  intros Ha Hf. revert a Ha. induction l as [|x l IH]; intros a Ha; simpl; auto.
Qed.

Lemma importKnowledge_preserves (P : MemoryBank -> Prop) now knowledge b :
  P b ->
  (forall b' category key content,
      P b' -> P (storeFact now (importedFact now category key content) [] b')) ->
  P (importKnowledge now knowledge b).
Proof.
  intros Hb Hs. unfold importKnowledge.
  apply fold_left_preserves; [exact Hb|].
  intros b1 cf H1. apply fold_left_preserves; [exact H1|].
  intros b2 kv H2. apply Hs, H2.
Qed.

Lemma cleanup_preserves (P : MemoryBank -> Prop) now minConfidence maxAge b :
  P b -> (forall b' k, P b' -> P (deleteFact k b')) ->
  P (cleanup now minConfidence maxAge b).
Proof. intros Hb Hd. unfold cleanup. apply fold_left_preserves; assumption. Qed.

(** *** Keys *)

Lemma keys_ok_storeFact now fact related b :
  keys_ok b -> keys_ok (storeFact now fact related b).
Proof.
  intros Hb k e. rewrite memory_storeFact.
  intros [[<- <-]|[_ H]]%lookup_insert_Some; [reflexivity|]. exact (Hb _ _ H).
Qed.

Lemma keys_ok_updateFactConfidence now k c v b :
  keys_ok b -> keys_ok (updateFactConfidence now k c v b).
Proof.
  intros Hb k' e'. rewrite memory_updateFactConfidence.
  destruct (memory b !! k) as [e|] eqn:E; [|apply Hb].
  intros [[<- <-]|[_ H]]%lookup_insert_Some; [exact (Hb _ _ E)|exact (Hb _ _ H)].
Qed.

Lemma keys_ok_deleteFact k b : keys_ok b -> keys_ok (deleteFact k b).
Proof.
  intros Hb k' e'. rewrite memory_deleteFact.
  intros [_ H]%lookup_delete_Some. exact (Hb _ _ H).
Qed.

Lemma keys_ok_access now ids b : keys_ok b -> keys_ok (access now ids b).
Proof.
  intros Hb k e'. destruct (lookup_access now ids b k) as [n ->].
  destruct (memory b !! k) as [e|] eqn:E; [|discriminate].
  intros [= <-]. rewrite (proj1 (touch_iter now n e)). exact (Hb _ _ E).
Qed.

Lemma keys_ok_runOp now op b : keys_ok b -> keys_ok (runOp now op b).
Proof.
  intros Hb. destruct op as [fact rel|k c v|ci choice|kn|mc ma|ids]; simpl.
  - apply keys_ok_storeFact, Hb.
  - apply keys_ok_updateFactConfidence, Hb.
  - destruct choice; unfold resolveConflict;
      repeat first [apply keys_ok_storeFact | apply keys_ok_updateFactConfidence]; exact Hb.
  - apply importKnowledge_preserves; [exact Hb|]. intros. apply keys_ok_storeFact. assumption.
  - apply cleanup_preserves; [exact Hb|]. intros. apply keys_ok_deleteFact. assumption.
  - apply keys_ok_access, Hb.
Qed.

Lemma reachable_keys_ok b : reachable b -> keys_ok b.
Proof.
  induction 1 as [|now op b _ _ IH].
  - intros k e H. unfold empty in H. cbn [memory] in H. rewrite lookup_empty in H. discriminate.
  - apply keys_ok_runOp, IH.
Qed.

(** *** The indexes hold every entry *)

Lemma addToIndex_lookup `{Countable K} (k k' : K) (i : string) (index : gmap K (gset string)) :
  addToIndex k i index !! k'
  = if decide (k = k') then Some (default ∅ (index !! k) ∪ {[i]}) else index !! k'.
Proof. unfold addToIndex. apply lookup_insert. Qed.

Lemma addToIndex_new `{Countable K} (k : K) (i : string) (index : gmap K (gset string)) :
  exists s, addToIndex k i index !! k = Some s /\ i ∈ s.
Proof.
  rewrite addToIndex_lookup, decide_True by reflexivity.
  eexists. split; [reflexivity|]. set_solver.
Qed.

Lemma addToIndex_keeps `{Countable K} (k k' : K) (i i' : string)
    (index : gmap K (gset string)) (s : gset string) :
  index !! k' = Some s -> i' ∈ s ->
  exists s', addToIndex k i index !! k' = Some s' /\ i' ∈ s'.
Proof.
  intros Hs Hi. rewrite addToIndex_lookup. case_decide as Hk.
  - subst k'. rewrite Hs. eexists. split; [reflexivity|]. simpl. set_solver.
  - exists s. split; assumption.
Qed.

Lemma removeFromIndex_keeps `{Countable K} (k k' : K) (i i' : string)
    (index : gmap K (gset string)) (s : gset string) :
  i' <> i -> index !! k' = Some s -> i' ∈ s ->
  exists s', removeFromIndex k i index !! k' = Some s' /\ i' ∈ s'.
Proof.
  intros Hne Hs Hi. unfold removeFromIndex.
  destruct (index !! k) as [t|] eqn:Ek; [|exists s; split; assumption].
  destruct (decide (k = k')) as [<-|Hk].
  - assert (t = s) as -> by congruence.
    assert (Hin : i' ∈ s ∖ {[i]}) by set_solver.
    case_decide as Hsz.
    + apply size_empty_inv in Hsz. apply Hsz in Hin. exfalso. set_solver.
    + rewrite lookup_insert_eq. eexists. split; [reflexivity|exact Hin].
  - case_decide.
    + rewrite lookup_delete_ne by exact Hk. exists s. split; assumption.
    + rewrite lookup_insert_ne by exact Hk. exists s. split; assumption.
Qed.

Lemma index_complete_storeFact now fact related b :
  index_complete b -> index_complete (storeFact now fact related b).
Proof.
  intros Hb k e. rewrite memory_storeFact.
  intros [[<- <-]|[Hne H]]%lookup_insert_Some; simpl.
  - split; apply addToIndex_new.
  - destruct (Hb _ _ H) as [(s & Hs & Hi) (t & Ht & Hj)].
    split; eapply addToIndex_keeps; eassumption.
Qed.

Lemma index_complete_updateFactConfidence now k c v b :
  index_complete b -> index_complete (updateFactConfidence now k c v b).
Proof.
  intros Hb k' e'. unfold updateFactConfidence.
  destruct (memory b !! k) as [e|] eqn:E; [|apply Hb]. simpl.
  intros [[<- <-]|[_ H]]%lookup_insert_Some; [exact (Hb _ _ E)|exact (Hb _ _ H)].
Qed.

Lemma index_complete_deleteFact k b :
  index_complete b -> index_complete (deleteFact k b).
Proof.
  intros Hb k' e'. unfold deleteFact.
  destruct (memory b !! k) as [e|] eqn:E; [|apply Hb]. simpl.
  intros [Hne H]%lookup_delete_Some.
  destruct (Hb _ _ H) as [(s & Hs & Hi) (t & Ht & Hj)].
  split; eapply removeFromIndex_keeps; try eassumption; congruence.
Qed.

Lemma index_complete_access now ids b :
  index_complete b -> index_complete (access now ids b).
Proof.
  intros Hb k e'. destruct (lookup_access now ids b k) as [n Hn]. rewrite Hn.
  destruct (memory b !! k) as [e|] eqn:E; [|discriminate].
  intros [= <-]. rewrite (proj1 (touch_iter now n e)). exact (Hb _ _ E).
Qed.

Lemma index_complete_runOp now op b : index_complete b -> index_complete (runOp now op b).
Proof.
  intros Hb. destruct op as [fact rel|k c v|ci choice|kn|mc ma|ids]; simpl.
  - apply index_complete_storeFact, Hb.
  - apply index_complete_updateFactConfidence, Hb.
  - destruct choice; unfold resolveConflict;
      repeat first [apply index_complete_storeFact | apply index_complete_updateFactConfidence];
      exact Hb.
  - apply importKnowledge_preserves; [exact Hb|].
    intros. apply index_complete_storeFact. assumption.
  - apply cleanup_preserves; [exact Hb|].
    intros. apply index_complete_deleteFact. assumption.
  - apply index_complete_access, Hb.
Qed.

(** Half of the index invariant holds in every reachable state: every
    entry is listed in the bucket of its category and of its day. *)
Lemma reachable_index_complete b : reachable b -> index_complete b.
Proof.
  induction 1 as [|now op b _ _ IH].
  - intros k e H. unfold empty in H. cbn [memory] in H. rewrite lookup_empty in H. discriminate.
  - apply index_complete_runOp, IH.
Qed.

(** C3: the other half fails.  Storing a fact as a plan, storing it
    again under the same id as an emotion, and cleaning up leaves the id
    in the bucket of plans although no entry is left for it: [storeFact]
    does not take an overwritten fact out of its old buckets, and
    [deleteFact] only visits the buckets of the entry it deletes. *)
Theorem C3_restore_then_cleanup_leaves_dangling_id :
  reachable restoredAndCleaned
  /\ memory restoredAndCleaned !! "a" = None
  /\ (exists s, categoryIndex restoredAndCleaned !! "plans" = Some s /\ "a" ∈ s)
  /\ ~ index_sound restoredAndCleaned.
Proof.
  assert (Hmem : memory restoredAndCleaned !! "a" = None) by (vm_compute; reflexivity).
  assert (Hidx : categoryIndex restoredAndCleaned !! "plans" = Some {[ "a" ]})
    by (vm_compute; reflexivity).
  split; [repeat constructor|]. split; [exact Hmem|]. split.
  - exists {[ "a" ]}. split; [exact Hidx|]. set_solver.
  - intros [Hcat _]. specialize (Hcat "plans" {[ "a" ]} "a" Hidx ltac:(set_solver)).
    rewrite Hmem in Hcat. destruct Hcat as [? ?]. discriminate.
Qed.

End BankInvariants.

(** ** Confidence values *)

Section Confidence.

Import IntelligentMemoryBank RealTimeFactLearner.

Lemma leb_spec (a b : Q) : Num.leb a b = true <-> (a <= b)%Q.
Proof. apply Qle_bool_iff. Qed.

Lemma leb_false (a b : Q) : Num.leb a b = false -> (b < a)%Q.
Proof.
  intros H. apply Qnot_le_lt. intros Hle. apply leb_spec in Hle. congruence.
Qed.

(** [updateFactConfidence] clamps whatever it is given. *)
Lemma clamp01_in_unit_interval (x : Q) : in_unit_interval (clamp01 x).
Proof.
  unfold clamp01, Num.max, Num.min, in_unit_interval.
  destruct (Num.leb 1 x) eqn:E1.
  - destruct (Num.leb 0 1) eqn:E2; [lra|].
    apply leb_false in E2. lra.
  - apply leb_false in E1. destruct (Num.leb 0 x) eqn:E2.
    + apply leb_spec in E2. lra.
    + lra.
Qed.

(** [storeFact] files the confidence of the fact as it is. *)
Lemma storeFact_entry_confidence now fact related b :
  exists e, memory (storeFact now fact related b) !! f_id fact = Some e
            /\ e_confidence e = f_confidence fact.
Proof.
  rewrite memory_storeFact, lookup_insert_eq. eexists. split; reflexivity.
Qed.

Lemma confidences_storeFact now fact related b :
  in_unit_interval (f_confidence fact) ->
  confidences_in_unit_interval b ->
  confidences_in_unit_interval (storeFact now fact related b).
Proof.
  intros Hf Hb k e. rewrite memory_storeFact.
  intros [[_ <-]|[_ H]]%lookup_insert_Some; [exact Hf|exact (Hb _ _ H)].
Qed.

Lemma confidences_updateFactConfidence now k c v b :
  confidences_in_unit_interval b ->
  confidences_in_unit_interval (updateFactConfidence now k c v b).
Proof.
  intros Hb k' e'. rewrite memory_updateFactConfidence.
  destruct (memory b !! k) as [e|] eqn:E; [|apply Hb].
  intros [[_ <-]|[_ H]]%lookup_insert_Some; [apply clamp01_in_unit_interval|exact (Hb _ _ H)].
Qed.

Lemma confidences_deleteFact k b :
  confidences_in_unit_interval b -> confidences_in_unit_interval (deleteFact k b).
Proof.
  intros Hb k' e'. rewrite memory_deleteFact.
  intros [_ H]%lookup_delete_Some. exact (Hb _ _ H).
Qed.

(** As long as every fact handed to the bank has a confidence in [0,1],
    so has every entry. *)
Lemma confident_inputs_keep_confidences b :
  reachable_by confident_input b -> confidences_in_unit_interval b.
Proof.
  induction 1 as [|now op b Hop _ IH].
  - intros k e H. unfold empty in H. cbn [memory] in H. rewrite lookup_empty in H. discriminate.
  - destruct op as [fact rel|k c v|ci choice|kn|mc ma|ids]; simpl in *.
    + apply confidences_storeFact; assumption.
    + apply confidences_updateFactConfidence, IH.
    + destruct Hop as [[Hn0 Hn1] [He0 He1]].
      destruct choice; unfold resolveConflict.
      * apply confidences_storeFact; [split; assumption|].
        apply confidences_updateFactConfidence, IH.
      * apply confidences_storeFact; [split; simpl; lra|].
        apply confidences_updateFactConfidence, IH.
      * apply confidences_storeFact; [|exact IH].
        unfold mergedFact, in_unit_interval. simpl. split.
        -- apply Qle_shift_div_l; lra.
        -- apply Qle_shift_div_r; lra.
    + apply importKnowledge_preserves; [exact IH|].
      intros b' category key content Hb'.
      apply confidences_storeFact; [|exact Hb']. split; simpl; lra.
    + apply cleanup_preserves; [exact IH|].
      intros. apply confidences_deleteFact. assumption.
    + intros k e'. destruct (lookup_access now ids b k) as [n ->].
      destruct (memory b !! k) as [e|] eqn:E; [|discriminate].
      intros [= <-]. rewrite (proj2 (touch_iter now n e)). exact (IH _ _ E).
Qed.

(** C2: the invariant breaks as soon as a fact arrives with a confidence
    outside [0,1].  The answer of the model is filtered from below only
    ([confidence >= 0.5]), so a reported confidence of 1.5 reaches
    [storeFact], which files it unclamped. *)
Theorem C2_model_confidence_is_stored_unclamped :
  (extractFacts 1000 0 overconfidentReply "We moved our date to Friday").1
  = mkExtraction [overconfidentFact] 1.5%Q []
  /\ reachable (runOp 1000 (OpStoreFact overconfidentFact []) empty)
  /\ exists e,
       memory (runOp 1000 (OpStoreFact overconfidentFact []) empty) !! "fact_1000_1" = Some e
       /\ e_confidence e = 1.5%Q
       /\ ~ in_unit_interval (e_confidence e).
Proof.
  split; [vm_compute; reflexivity|].
  split; [repeat constructor|].
  eexists. split; [reflexivity|]. split; [reflexivity|].
  simpl. intros [_ H]. revert H. apply Qlt_not_le. reflexivity.
Qed.

End Confidence.

(** ** Export and import *)

Section RoundTrip.

Import IntelligentMemoryBank.

Lemma klookup_exportEntry (K : Knowledge) (e : MemoryEntry) (c k : string) :
  klookup (exportEntry K e) c k
  = if decide (f_category (e_fact e) = c /\ f_id (e_fact e) = k
               /\ Js.inherited c = false /\ k <> "__proto__")
    then Some (f_content (e_fact e)) else klookup K c k.
Proof.
  unfold klookup, exportEntry. cbv zeta.
  destruct (Js.inherited (f_category (e_fact e))) eqn:Hi.
  { rewrite decide_False; [reflexivity|]. intros (<- & _ & Hc & _). congruence. }
  destruct (String.eqb_spec (f_id (e_fact e)) "__proto__") as [Hp|Hp].
  { rewrite decide_False by (intros (_ & <- & _ & Hk); contradiction).
    destruct (decide (f_category (e_fact e) = c)) as [<-|Hc].
    - rewrite lookup_insert_eq. reflexivity.
    - rewrite lookup_insert_ne by exact Hc. reflexivity. }
  destruct (decide (f_category (e_fact e) = c)) as [<-|Hc].
  - rewrite lookup_insert_eq. cbn [from_option]. unfold id.
    destruct (decide (f_id (e_fact e) = k)) as [<-|Hk].
    + rewrite lookup_insert_eq, decide_True by auto. reflexivity.
    + rewrite lookup_insert_ne by exact Hk. rewrite decide_False by tauto. reflexivity.
  - rewrite lookup_insert_ne by exact Hc. rewrite decide_False by tauto. reflexivity.
Qed.

Lemma klookup_empty (c k : string) : klookup ∅ c k = None.
Proof. unfold klookup. rewrite lookup_empty. apply lookup_empty. Qed.

(** Exporting a list of entries with distinct ids records exactly the
    triples whose category is not an inherited name and whose id is not
    ["__proto__"]. *)
Lemma klookup_export_list (l : list MemoryEntry) (c k s : string) :
  NoDup ((fun e => f_id (e_fact e)) <$> l) ->
  klookup (fold_left exportEntry l ∅) c k = Some s
  <-> (exists e, e ∈ l /\ triple e = (c, k, s))
      /\ Js.inherited c = false /\ k <> "__proto__".
Proof.
  induction l as [|e l IH] using rev_ind; intros Hnd.
  - simpl. rewrite klookup_empty. split; [discriminate|].
    intros [(e & He & _) _]. inversion He.
  - rewrite fmap_app in Hnd. apply NoDup_app in Hnd as (Hl & Hfresh & _).
    rewrite fold_left_app. cbn [fold_left]. rewrite klookup_exportEntry.
    case_decide as Hck.
    + destruct Hck as (<- & <- & Hi & Hp). split.
      * intros [= <-]. split; [|auto].
        exists e. split; [apply elem_of_app; right; left|reflexivity].
      * intros [(e' & [He'|He']%elem_of_app & Ht) _].
        -- exfalso. apply (Hfresh (f_id (e_fact e))).
           ++ apply list_elem_of_fmap. exists e'. split; [|exact He'].
              unfold triple in Ht. congruence.
           ++ cbn. left.
        -- apply list_elem_of_singleton in He' as ->. unfold triple in Ht. congruence.
    + rewrite (IH Hl). split.
      * intros [(e' & He' & Ht) Hplain]. split; [|exact Hplain].
        exists e'. split; [apply elem_of_app; left; exact He'|exact Ht].
      * intros [(e' & [He'|He']%elem_of_app & Ht) Hplain];
          [split; [exists e'; split; assumption|exact Hplain]|].
        apply list_elem_of_singleton in He' as ->. exfalso. apply Hck.
        unfold triple in Ht. destruct Hplain. repeat split; congruence.
Qed.

Lemma keys_ok_values_ids b :
  keys_ok b ->
  (fun e => f_id (e_fact e)) <$> (map_to_list (memory b)).*2 = (map_to_list (memory b)).*1.
Proof.
  intros Hk. rewrite <- list_fmap_compose. apply list_fmap_ext.
  intros i [k e] Hi. cbn. apply Hk.
  apply elem_of_map_to_list. eapply list_elem_of_lookup_2. exact Hi.
Qed.

Lemma elem_of_values {V} (m : gmap string V) (e : V) :
  e ∈ (map_to_list m).*2 <-> exists k, m !! k = Some e.
Proof.
  rewrite list_elem_of_fmap. split.
  - intros ([k e'] & -> & H). exists k. apply elem_of_map_to_list in H. exact H.
  - intros (k & H). exists (k, e). split; [reflexivity|]. apply elem_of_map_to_list. exact H.
Qed.

(** What the exported snapshot holds. *)
Lemma exportKnowledge_spec b c k s :
  keys_ok b ->
  klookup (exportKnowledge b) c k = Some s
  <-> (exists e, memory b !! k = Some e
                 /\ f_category (e_fact e) = c /\ f_content (e_fact e) = s)
      /\ Js.inherited c = false /\ k <> "__proto__".
Proof.
  intros Hk. unfold exportKnowledge. rewrite klookup_export_list.
  - split.
    + intros [(e & (k' & He)%elem_of_values & Ht) Hplain]. split; [|exact Hplain].
      exists e. unfold triple in Ht. injection Ht as Hc Hi Hs.
      rewrite (Hk _ _ He) in Hi. subst k'. auto.
    + intros [(e & He & Hc & Hs) Hplain]. split; [|exact Hplain].
      exists e. split; [apply elem_of_values; eauto|].
      unfold triple. rewrite (Hk _ _ He). congruence.
  - rewrite keys_ok_values_ids by exact Hk. apply NoDup_fst_map_to_list.
Qed.

Lemma elem_of_flatten (K : Knowledge) (c k s : string) :
  (c, k, s) ∈ flatten K <-> klookup K c k = Some s.
Proof.
  unfold flatten, klookup. rewrite list_elem_of_bind. split.
  - intros ([c' facts] & Hin & HK). apply elem_of_map_to_list in HK.
    apply list_elem_of_fmap in Hin as ([k' s'] & [= -> -> ->] & Hkv).
    apply elem_of_map_to_list in Hkv. cbn in *. rewrite HK. exact Hkv.
  - intros H. destruct (K !! c) as [facts|] eqn:E; cbn in H;
      [|rewrite lookup_empty in H; discriminate].
    exists (c, facts). split; [|apply elem_of_map_to_list; exact E].
    apply list_elem_of_fmap. exists (k, s). split; [reflexivity|].
    apply elem_of_map_to_list. exact H.
Qed.

Lemma fold_left_fmap {A B C} (f : A -> C -> A) (h : B -> C) (l : list B) (a : A) :
  fold_left f (h <$> l) a = fold_left (fun a' x => f a' (h x)) l a.
Proof. revert a. induction l as [|x l IH]; intros a; simpl; [reflexivity|apply IH]. Qed.

Lemma fold_left_bind {A B C} (f : A -> C -> A) (g : B -> list C) (l : list B) (a : A) :
  fold_left f (l ≫= g) a = fold_left (fun a' x => fold_left f (g x) a') l a.
Proof.
  revert a. induction l as [|x l IH]; intros a; [reflexivity|].
  cbn [mbind list_bind]. change (fold_left f (g x ++ (l ≫= g)) a = fold_left (fun a' x => fold_left f (g x) a') l (fold_left f (g x) a)).
  rewrite fold_left_app. apply IH.
Qed.

Lemma fold_left_ext {A B} (f g : A -> B -> A) (l : list B) (a : A) :
  (forall a' x, f a' x = g a' x) -> fold_left f l a = fold_left g l a.
Proof.
  intros H. revert a. induction l as [|x l IH]; intros a; simpl; [reflexivity|].
  rewrite H. apply IH.
Qed.

(** [importKnowledge] stores the entries of the snapshot one after the other. *)
Lemma importKnowledge_flatten now K b :
  importKnowledge now K b = fold_left (storeImported now) (flatten K) b.
Proof.
  unfold importKnowledge, flatten. rewrite fold_left_bind.
  apply fold_left_ext. intros b' cf. rewrite fold_left_fmap.
  apply fold_left_ext. intros b'' kv. reflexivity.
Qed.

Lemma memory_storeImported now b t :
  memory (storeImported now b t) = <[t.1.2 := importedEntry now t]> (memory b).
Proof. reflexivity. Qed.

(** Ids that the snapshot does not mention are left alone. *)
Lemma lookup_fold_storeImported_other now (ts : list (string * string * string)) b k :
  k ∉ (fun t => t.1.2) <$> ts ->
  memory (fold_left (storeImported now) ts b) !! k = memory b !! k.
Proof.
  induction ts as [|t ts IH] using rev_ind; intros Hk; [reflexivity|].
  rewrite fold_left_app. cbn [fold_left]. rewrite memory_storeImported.
  rewrite fmap_app in Hk. apply not_elem_of_app in Hk as [Hts Ht].
  rewrite lookup_insert_ne; [apply IH, Hts|].
  intros <-. apply Ht. left.
Qed.

(** An id that the snapshot mentions ends up with an imported entry. *)
Lemma lookup_fold_storeImported_some now (ts : list (string * string * string)) b k :
  k ∈ (fun t => t.1.2) <$> ts ->
  exists t, t ∈ ts /\ t.1.2 = k
            /\ memory (fold_left (storeImported now) ts b) !! k = Some (importedEntry now t).
Proof.
  induction ts as [|t ts IH] using rev_ind; intros Hk; [inversion Hk|].
  rewrite fold_left_app. cbn [fold_left]. rewrite memory_storeImported.
  destruct (decide (t.1.2 = k)) as [<-|Hne].
  - exists t. split; [apply elem_of_app; right; left|]. split; [reflexivity|].
    apply lookup_insert_eq.
  - rewrite fmap_app in Hk. apply elem_of_app in Hk as [Hk|Hk].
    + destruct (IH Hk) as (t' & Ht' & Hid & Hl). exists t'.
      split; [apply elem_of_app; left; exact Ht'|]. split; [exact Hid|].
      rewrite lookup_insert_ne by exact Hne. exact Hl.
    + apply list_elem_of_singleton in Hk. congruence.
Qed.

(** The entry map after importing the export of [b] into any bank [b0]. *)
Lemma lookup_import_export now b b0 k :
  keys_ok b -> plain_keys b ->
  memory (importKnowledge now (exportKnowledge b) b0) !! k
  = match memory b !! k with
    | Some e => Some (importedEntry now (triple e))
    | None => memory b0 !! k
    end.
Proof.
  intros Hk Hplain. rewrite importKnowledge_flatten.
  destruct (memory b !! k) as [e|] eqn:E.
  - assert (Hin : (f_category (e_fact e), k, f_content (e_fact e)) ∈ flatten (exportKnowledge b)).
    { apply elem_of_flatten, exportKnowledge_spec; [exact Hk|].
      split; [eauto|]. destruct (Hplain _ _ E) as [Hi Hp]. split; [exact Hi|].
      rewrite <- (Hk _ _ E). exact Hp. }
    destruct (lookup_fold_storeImported_some now (flatten (exportKnowledge b)) b0 k)
      as ([[c k'] s] & Ht & Hid & Hl).
    { apply list_elem_of_fmap. eexists. split; [|exact Hin]. reflexivity. }
    cbn in Hid. subst k'.
    apply elem_of_flatten, exportKnowledge_spec in Ht as [(e' & He' & Hc & Hs) _]; [|exact Hk].
    assert (e' = e) as -> by congruence.
    rewrite Hl. unfold triple. rewrite (Hk _ _ E), Hc, Hs. reflexivity.
  - apply lookup_fold_storeImported_other.
    intros ([[c k'] s] & Hid & Ht)%list_elem_of_fmap. cbn in Hid. subst k'.
    apply elem_of_flatten, exportKnowledge_spec in Ht as [(e' & He' & _) _]; [|exact Hk].
    congruence.
Qed.

Lemma elem_of_triples b t :
  t ∈ triples b <-> exists k e, memory b !! k = Some e /\ triple e = t.
Proof.
  unfold triples. rewrite elem_of_list_to_set, list_elem_of_fmap. split.
  - intros (e & -> & (k & He)%elem_of_values). eauto.
  - intros (k & e & He & <-). exists e. split; [reflexivity|]. apply elem_of_values. eauto.
Qed.

Lemma triple_importedEntry now e : triple (importedEntry now (triple e)) = triple e.
Proof. reflexivity. Qed.

Lemma triples_import_export now b b0 :
  keys_ok b -> plain_keys b -> (forall k, memory b !! k = None -> memory b0 !! k = None) ->
  triples (importKnowledge now (exportKnowledge b) b0) = triples b.
Proof.
  intros Hk Hplain H0. apply set_eq. intros t. rewrite !elem_of_triples. split.
  - intros (k & e' & He' & <-). rewrite lookup_import_export in He' by assumption.
    destruct (memory b !! k) as [e|] eqn:E.
    + injection He' as <-. exists k, e. split; [exact E|]. symmetry. apply triple_importedEntry.
    + rewrite (H0 _ E) in He'. discriminate.
  - intros (k & e & He & <-). exists k, (importedEntry now (triple e)).
    rewrite lookup_import_export, He by assumption. split; reflexivity.
Qed.

(** C4, as the specification states it, fails for a category that names
    a property of [Object.prototype] and for the id "__proto__".  The
    export is a plain object.  For the category "constructor" it finds
    the inherited function and creates no entry: the snapshot of a bank
    holding one such fact is empty.  Under the id "__proto__" the
    assignment of the content sets no property: the snapshot holds the
    category and nothing in it.  A bank restored from either snapshot
    has lost the fact. *)
Lemma C4_inherited_names_are_not_restored :
  let b1 := runOp 1000 (OpStoreFact constructorFact []) empty in
  let b2 := runOp 1000 (OpStoreFact protoFact []) empty in
  (reachable b1
   /\ triples (importKnowledge 2000 (exportKnowledge b1) empty) <> triples b1)
  /\ (reachable b2
      /\ triples (importKnowledge 2000 (exportKnowledge b2) empty) <> triples b2).
Proof.
  intros b1 b2.
  assert (Hlost : forall b k e,
             memory b !! k = Some e ->
             memory (importKnowledge 2000 (exportKnowledge b) empty) = ∅ ->
             triples (importKnowledge 2000 (exportKnowledge b) empty) <> triples b).
  { intros b k e He Hnone Heq.
    assert (Hin : triple e ∈ triples b) by (apply elem_of_triples; eauto).
    rewrite <- Heq in Hin. apply elem_of_triples in Hin as (k' & e' & He' & _).
    rewrite Hnone, lookup_empty in He'. discriminate. }
  split; (split; [repeat constructor|]).
  - apply (Hlost b1 "fact_1000_9" (mkEntry constructorFact 1000 0 true 0.8%Q []));
      [reflexivity|vm_compute; reflexivity].
  - apply (Hlost b2 "__proto__" (mkEntry protoFact 1000 0 true 0.8%Q []));
      [reflexivity|vm_compute; reflexivity].
Qed.

(** C4, amended: as long as no category of the bank names a property of
    [Object.prototype] and no id is "__proto__" (so for the seven
    categories and the ids the program generates), importing the export
    of a bank, into the bank itself or into an empty one, gives a bank
    with the same set of (category, id, content) triples; and whatever
    snapshot is imported, each of its entries ends up as a fact of
    confidence 0.8 that is marked verified. *)
Theorem C4_import_of_export_restores_triples (now : Z) (b : MemoryBank) :
  reachable b -> plain_keys b ->
  triples (importKnowledge now (exportKnowledge b) b) = triples b
  /\ triples (importKnowledge now (exportKnowledge b) empty) = triples b
  /\ forall (knowledge : Knowledge) (b0 : MemoryBank) (category key content : string)
            (facts : gmap string string),
       knowledge !! category = Some facts -> facts !! key = Some content ->
       exists e, memory (importKnowledge now knowledge b0) !! key = Some e
                 /\ f_confidence (e_fact e) = 0.8%Q /\ e_confidence e = 0.8%Q
                 /\ f_verified (e_fact e) = true /\ e_verified e = true.
Proof.
  intros Hb Hplain. pose proof (reachable_keys_ok b Hb) as Hk.
  split; [apply triples_import_export; [exact Hk|exact Hplain|auto]|].
  split; [apply triples_import_export; [exact Hk|exact Hplain|intros; apply lookup_empty]|].
  intros K b0 c k s facts HK Hf. rewrite importKnowledge_flatten.
  destruct (lookup_fold_storeImported_some now (flatten K) b0 k) as (t & _ & _ & Hl).
  - apply list_elem_of_fmap. exists (c, k, s). split; [reflexivity|].
    apply elem_of_flatten. unfold klookup. rewrite HK. exact Hf.
  - exists (importedEntry now t). split; [exact Hl|]. repeat split.
Qed.

(** The round trip on a bank of two facts. *)
Lemma C4_round_trip_witness :
  let b := runOp 2000 (OpStoreFact staleFact ["a"])
             (runOp 1000 (OpStoreFact planFact []) empty) in
  reachable b /\ plain_keys b
  /\ triples (importKnowledge 3000 (exportKnowledge b) b) = triples b
  /\ triples (importKnowledge 3000 (exportKnowledge b) empty) = triples b.
Proof.
  intros b.
  assert (Hb : reachable b) by (repeat constructor).
  assert (Hplain : plain_keys b).
  { intros k e He. subst b. cbn [runOp] in He. rewrite !memory_storeFact in He.
    apply lookup_insert_Some in He as [[_ <-]|[_ He]]; [split; [reflexivity|discriminate]|].
    apply lookup_insert_Some in He as [[_ <-]|[_ He]]; [split; [reflexivity|discriminate]|].
    unfold empty in He. cbn in He. rewrite lookup_empty in He. discriminate. }
  split; [exact Hb|]. split; [exact Hplain|].
  destruct (C4_import_of_export_restores_triples 3000 b Hb Hplain) as (H1 & H2 & _).
  split; [exact H1|exact H2].
Defined.

End RoundTrip.

(** ** Conflict resolution *)

Section ResolveConflict.

Import IntelligentMemoryBank.

Lemma storeFact_keeps_ids now fact related b k :
  is_Some (memory b !! k) -> is_Some (memory (storeFact now fact related b) !! k).
Proof.
  intros H. rewrite memory_storeFact. apply lookup_insert_is_Some.
  destruct (decide (f_id fact = k)); [left; assumption|right; split; assumption].
Qed.

Lemma updateFactConfidence_keeps_ids now i c v b k :
  is_Some (memory b !! k) -> is_Some (memory (updateFactConfidence now i c v b) !! k).
Proof.
  intros H. rewrite memory_updateFactConfidence.
  destruct (memory b !! i) as [e|]; [|exact H].
  apply lookup_insert_is_Some.
  destruct (decide (i = k)); [left; assumption|right; split; assumption].
Qed.

(** No choice takes an id away. *)
Lemma resolveConflict_keeps_ids now ci choice b k :
  is_Some (memory b !! k) -> is_Some (memory (resolveConflict now ci choice b) !! k).
Proof.
  intros H. destruct choice; unfold resolveConflict;
    repeat first [apply storeFact_keeps_ids | apply updateFactConfidence_keeps_ids]; exact H.
Qed.

(** As long as no fact is stored yet under the id [merged_<now>], a
    merge adds exactly one fact to the bank and changes nothing else:
    its content is the existing fact's content and the new fact's
    content joined by "; ", its confidence is the arithmetic mean of the
    two facts' confidences, and it is linked to both ancestor ids. *)
Lemma merge_with_fresh_id (now : Z) (conflictInfo : ConflictInfo) (b : MemoryBank) :
  memory b !! ("merged_" ++ pretty now) = None ->
  let existingFact := c_existingFact conflictInfo in
  let newFact := c_newFact conflictInfo in
  let b' := resolveConflict now conflictInfo ChooseMerge b in
  (exists merged entry,
      memory b' = <["merged_" ++ pretty now := entry]> (memory b)
      /\ e_fact entry = merged
      /\ f_content merged = f_content existingFact ++ "; " ++ f_content newFact
      /\ (f_confidence merged == (f_confidence existingFact + f_confidence newFact) / 2)%Q
      /\ (e_confidence entry == (f_confidence existingFact + f_confidence newFact) / 2)%Q
      /\ e_relatedFacts entry = [f_id existingFact; f_id newFact])
  /\ size (memory b') = S (size (memory b))
  /\ (forall k e, memory b !! k = Some e -> memory b' !! k = Some e).
Proof.
  intros Hfresh existingFact newFact b'.
  split; [|split].
  - exists (mergedFact now conflictInfo). eexists. split; [reflexivity|].
    cbn. repeat split; reflexivity.
  - subst b'. unfold resolveConflict. rewrite memory_storeFact.
    apply map_size_insert_None. exact Hfresh.
  - intros k e Hk. subst b'. unfold resolveConflict. rewrite memory_storeFact.
    rewrite lookup_insert_ne; [exact Hk|].
    cbn. intros <-. congruence.
Qed.

(** The first merge of the scenario finds its id free and adds one fact. *)
Lemma first_merge_adds_one_fact :
  size (memory afterFirstMerge) = S (size (memory fourFacts)).
Proof.
  apply (merge_with_fresh_id 5000 spicyConflict fourFacts).
  vm_compute. reflexivity.
Qed.

(** C5: the merged fact's id is [merged_<now>], and it is the only part
    of the id.  A second merge in the same millisecond, of a conflict
    whose two facts are stored, finds that id taken: it adds no fact, it
    overwrites the fact of the first merge, whose content can no longer
    be retrieved. *)
Theorem C5_second_merge_in_the_same_millisecond_overwrites :
  reachable afterFirstMerge
  /\ (forall fact, fact ∈ [avoidFact; enjoyFact] ->
       exists e, memory afterFirstMerge !! f_id fact = Some e /\ e_fact e = fact)
  /\ size (memory afterSecondMerge) = size (memory afterFirstMerge)
  /\ ~ (exists k, memory afterFirstMerge !! k = None /\ is_Some (memory afterSecondMerge !! k))
  /\ (exists e, memory afterFirstMerge !! "merged_5000" = Some e
                /\ f_content (e_fact e) = "I love spicy food; I hate spicy food")
  /\ (exists e, memory afterSecondMerge !! "merged_5000" = Some e
                /\ f_content (e_fact e) = "I enjoy hiking; I avoid hiking").
Proof.
  assert (Hold : is_Some (memory afterFirstMerge !! "merged_5000"))
    by (eexists; vm_compute; reflexivity).
  assert (Hmem : memory afterSecondMerge
                 = <["merged_5000" :=
                      mkEntry (mergedFact 5000 hikingConflict) 5000 0 true
                        (f_confidence (mergedFact 5000 hikingConflict))
                        ["fact_3000_3"; "fact_4000_4"]]> (memory afterFirstMerge))
    by reflexivity.
  split; [repeat constructor|].
  split; [|split; [|split; [|split]]].
  - intros fact [->|[->|H]%elem_of_cons]%elem_of_cons; [| |inversion H];
      eexists; (split; [vm_compute; reflexivity|reflexivity]).
  - rewrite Hmem. apply map_size_insert_Some. exact Hold.
  - intros (k & Hnone & Hk). rewrite Hmem in Hk.
    apply lookup_insert_is_Some' in Hk as [<-|Hk]; rewrite Hnone in *;
      [destruct Hold as [? ?]|destruct Hk as [? ?]]; discriminate.
  - eexists. split; [vm_compute; reflexivity|reflexivity].
  - eexists. split; [vm_compute; reflexivity|reflexivity].
Qed.

End ResolveConflict.

(** ** The response engine's clarification *)

Section Clarification.

Import ContextualResponseEngine.

Lemma isHighPriority_spec c :
  isHighPriority c = true <-> c_severity c = High \/ c_conflictType c = Contradiction.
Proof.
  unfold isHighPriority. rewrite orb_true_iff.
  destruct (c_severity c), (c_conflictType c); cbn; split;
    intros [H|H]; try discriminate H; auto.
Qed.

Lemma isHighPriority_false c :
  isHighPriority c = false <-> c_severity c <> High /\ c_conflictType c <> Contradiction.
Proof.
  split.
  - intros H. split; intros Hc;
      (assert (isHighPriority c = true) by (apply isHighPriority_spec; auto)); congruence.
  - intros [H1 H2]. apply not_true_is_false. intros [?|?]%isHighPriority_spec; contradiction.
Qed.

Lemma isMedium_spec c : isMedium c = true <-> c_severity c = Medium.
Proof. unfold isMedium. destruct (c_severity c); cbn; split; intros H; try discriminate H; auto. Qed.

Lemma isMedium_false c : isMedium c = false <-> c_severity c <> Medium.
Proof.
  split.
  - intros H Hc. apply isMedium_spec in Hc. congruence.
  - intros H. apply not_true_is_false. intros ?%isMedium_spec. contradiction.
Qed.

Lemma filter_nothing {A} (p : A -> bool) (l : list A) :
  Forall (fun x => p x = false) l -> List.filter p l = [].
Proof.
  induction 1 as [|x l Hx _ IH]; [reflexivity|]. cbn [List.filter]. rewrite Hx. exact IH.
Qed.

Lemma filter_first {A} (p : A -> bool) (pre : list A) (c : A) (post : list A) :
  Forall (fun x => p x = false) pre -> p c = true ->
  List.filter p (pre ++ c :: post) = c :: List.filter p post.
Proof.
  intros Hpre Hc. rewrite List.filter_app, (filter_nothing _ _ Hpre).
  cbn [app List.filter]. rewrite Hc. reflexivity.
Qed.

Lemma filter_head_elem {A} (p : A -> bool) (l : list A) (c : A) (rest : list A) :
  List.filter p l = c :: rest -> c ∈ l /\ p c = true.
Proof.
  intros H. assert (Hin : In c (List.filter p l)) by (rewrite H; left; reflexivity).
  apply filter_In in Hin as [Hin Hc]. split; [apply list_elem_of_In; exact Hin|exact Hc].
Qed.

(** C9: at most one clarification is appended, whatever the number of
    conflicts.  If some conflict is of high severity or a contradiction,
    the reply is followed by two line feeds, "Wait bestie, " and the
    question of the first such conflict.  Otherwise, if some conflict is
    of medium severity, it is followed by two line feeds, "By the
    way, " and the question of the first such conflict.  Otherwise,
    every conflict being a low one that is no contradiction, the reply
    is returned unchanged.  The two phrases differ. *)
Theorem C9_at_most_one_clarification (response : string) (cs : list ConflictInfo) :
  let wait := String "010" (String "010" "Wait bestie, ") in
  let by_the_way := String "010" (String "010" "By the way, ") in
  (forall pre conflict post,
      cs = (pre ++ conflict :: post)%list ->
      Forall (fun c => c_severity c <> High /\ c_conflictType c <> Contradiction) pre ->
      c_severity conflict = High \/ c_conflictType conflict = Contradiction ->
      integrateConflictClarification response cs
      = response ++ wait ++ c_clarificationQuestion conflict)
  /\ (forall pre conflict post,
        cs = (pre ++ conflict :: post)%list ->
        Forall (fun c => c_severity c <> High /\ c_conflictType c <> Contradiction) cs ->
        Forall (fun c => c_severity c <> Medium) pre ->
        c_severity conflict = Medium ->
        integrateConflictClarification response cs
        = response ++ by_the_way ++ c_clarificationQuestion conflict)
  /\ (Forall (fun c => c_severity c = Low /\ c_conflictType c <> Contradiction) cs ->
      integrateConflictClarification response cs = response)
  /\ (integrateConflictClarification response cs = response
      \/ exists conflict,
           conflict ∈ cs
           /\ (integrateConflictClarification response cs
               = response ++ wait ++ c_clarificationQuestion conflict
               \/ integrateConflictClarification response cs
                  = response ++ by_the_way ++ c_clarificationQuestion conflict))
  /\ wait <> by_the_way.
Proof.
  intros wait by_the_way. subst wait by_the_way.
  unfold integrateConflictClarification.
  split; [|split; [|split; [|split]]].
  - intros pre conflict post -> Hpre Hc.
    rewrite filter_first; [reflexivity| |apply isHighPriority_spec; exact Hc].
    eapply Forall_impl; [exact Hpre|]. intros c Hn. apply isHighPriority_false. exact Hn.
  - intros pre conflict post Hcs Hnone Hpre Hc.
    rewrite (filter_nothing isHighPriority cs).
    + rewrite Hcs, filter_first; [reflexivity| |apply isMedium_spec; exact Hc].
      eapply Forall_impl; [exact Hpre|]. intros c Hn. apply isMedium_false. exact Hn.
    + eapply Forall_impl; [exact Hnone|]. intros c Hn. apply isHighPriority_false. exact Hn.
  - intros Hlow. rewrite (filter_nothing isHighPriority cs), (filter_nothing isMedium cs);
      [reflexivity| |].
    + eapply Forall_impl; [exact Hlow|]. intros c [Hs _]. apply isMedium_false.
      rewrite Hs. discriminate.
    + eapply Forall_impl; [exact Hlow|]. intros c [Hs Ht]. apply isHighPriority_false.
      split; [rewrite Hs; discriminate|exact Ht].
  - destruct (List.filter isHighPriority cs) as [|c rest] eqn:Eh.
    + destruct (List.filter isMedium cs) as [|c rest] eqn:Em; [left; reflexivity|].
      right. exists c. split; [exact (proj1 (filter_head_elem _ _ _ _ Em))|].
      right. reflexivity.
    + right. exists c. split; [exact (proj1 (filter_head_elem _ _ _ _ Eh))|].
      left. reflexivity.
  - discriminate.
Qed.

(** A contradiction of medium severity behind a medium conflict of
    timing: the contradiction is asked about, after "Wait bestie, ". *)
Lemma C9_clarification_witness :
  integrateConflictClarification "Noted!" [dinnerConflict; spicyConflict]
  = "Noted!" ++ String "010" (String "010" "Wait bestie, ")
    ++ "I'm confused - do you like or dislike spicy? You've mentioned both!".
Proof.
  apply (proj1 (C9_at_most_one_clarification "Noted!" [dinnerConflict; spicyConflict])
           [dinnerConflict] spicyConflict []).
  - reflexivity.
  - constructor; [split; discriminate|constructor].
  - right. reflexivity.
Defined.

End Clarification.

(** ** Sessions *)

Section Sessions.

Import ConversationSessionManager.

Lemma sameMessage_refl m : sameMessage m m = true.
Proof. unfold sameMessage. rewrite String.eqb_refl. reflexivity. Qed.

Lemma messageExists_spec session m :
  messageExists session m = true
  <-> exists existing, In existing (messages session) /\ sameMessage m existing = true.
Proof. unfold messageExists. apply existsb_exists. Qed.

Lemma sameMessage_spec m existing :
  sameMessage m existing = true
  <-> m_id existing = m_id m
      \/ (m_text existing = m_text m /\ m_sender existing = m_sender m
          /\ exists t1 t2, m_timestamp existing = Some t1 /\ m_timestamp m = Some t2
                           /\ Z.abs (t1 - t2) < 1000).
Proof.
  unfold sameMessage. rewrite orb_true_iff, !andb_true_iff, !String.eqb_eq.
  assert (Hs : Sender_eqb (m_sender existing) (m_sender m) = true
               <-> m_sender existing = m_sender m).
  { destruct (m_sender existing), (m_sender m); simpl; split; congruence. }
  assert (Ht : withinOneSecond (m_timestamp existing) (m_timestamp m) = true
               <-> exists t1 t2, m_timestamp existing = Some t1 /\ m_timestamp m = Some t2
                                 /\ Z.abs (t1 - t2) < 1000).
  { unfold withinOneSecond.
    destruct (m_timestamp existing) as [a|], (m_timestamp m) as [b|]; split;
      try discriminate; try (intros (t1 & t2 & H1 & H2 & _); discriminate).
    - intros H. exists a, b. apply Z.ltb_lt in H. auto.
    - intros (t1 & t2 & [= <-] & [= <-] & H). apply Z.ltb_lt. exact H. }
  rewrite Hs, Ht. tauto.
Qed.

(** A second [updateSession] with the same message changes nothing. *)
Lemma updateSession_twice now1 now2 sid m emo1 emo2 sessions :
  updateSession now2 sid m emo2 (updateSession now1 sid m emo1 sessions)
  = updateSession now1 sid m emo1 sessions.
Proof.
  unfold updateSession at 2 3.
  destruct (sessions !! sid) as [session|] eqn:E.
  - destruct (messageExists session m) eqn:Hex.
    + unfold updateSession. rewrite E, Hex. reflexivity.
    + unfold updateSession. rewrite lookup_insert_eq.
      unfold messageExists at 1. cbn [messages].
      rewrite existsb_app. cbn [existsb]. rewrite sameMessage_refl.
      rewrite !orb_true_r. reflexivity.
  - unfold updateSession. rewrite E. reflexivity.
Qed.

Lemma messageCount_updateSession now sid m emo sessions :
  (messageCount sid (updateSession now sid m emo sessions)
   <= messageCount sid sessions + 1)%nat.
Proof.
  unfold updateSession, messageCount.
  destruct (sessions !! sid) as [session|] eqn:E; [|rewrite E; lia].
  destruct (messageExists session m); [rewrite E; lia|].
  rewrite lookup_insert_eq. cbn [messages]. rewrite length_app. simpl. lia.
Qed.

(** C8: two calls of [updateSession] with the same message add at most
    one message to the session (the second call changes nothing); and a
    call is skipped, leaving the sessions as they are, whenever a stored
    message has the id of the new one, or its text and sender with a
    timestamp less than 1000 ms away.  Otherwise the message is appended. *)
Theorem C8_updateSession_deduplicates
    (now1 now2 : Z) (sid : string) (m : ChatMessage) (emo1 emo2 : option string)
    (sessions : gmap string ConversationSession) :
  let once := updateSession now1 sid m emo1 sessions in
  let twice := updateSession now2 sid m emo2 once in
  (messageCount sid twice <= messageCount sid sessions + 1)%nat
  /\ twice = once
  /\ forall session, sessions !! sid = Some session ->
       ((exists existing, In existing (messages session)
           /\ (m_id existing = m_id m
               \/ (m_text existing = m_text m /\ m_sender existing = m_sender m
                   /\ exists t1 t2, m_timestamp existing = Some t1 /\ m_timestamp m = Some t2
                                    /\ Z.abs (t1 - t2) < 1000)))
        -> once = sessions)
       /\ (messageExists session m = false ->
           exists session', once !! sid = Some session'
                            /\ messages session' = (messages session ++ [m])%list).
Proof.
  intros once twice. subst once twice.
  split; [|split].
  - rewrite updateSession_twice. apply messageCount_updateSession.
  - apply updateSession_twice.
  - intros session E. split.
    + intros (existing & Hin & Hsame).
      unfold updateSession. rewrite E.
      assert (Hex : messageExists session m = true).
      { apply messageExists_spec. exists existing. split; [exact Hin|].
        apply sameMessage_spec. exact Hsame. }
      rewrite Hex. reflexivity.
    + intros Hex. unfold updateSession. rewrite E, Hex, lookup_insert_eq.
      eexists. split; reflexivity.
Qed.

(** The same message sent twice to a fresh session is stored once. *)
Lemma C8_updateSession_witness :
  let sessions := (getOrCreateSession 500 "uuid-1" (Some "s1") None ∅).2 in
  let once := updateSession 1000 "s1" helloMessage None sessions in
  let twice := updateSession 1001 "s1" helloMessage None once in
  messageCount "s1" sessions = 0%nat
  /\ messageCount "s1" once = 1%nat
  /\ (messageCount "s1" twice <= messageCount "s1" sessions + 1)%nat.
Proof.
  intros sessions once twice.
  split; [reflexivity|]. split; [vm_compute; reflexivity|].
  exact (proj1 (C8_updateSession_deduplicates 1000 1001 "s1" helloMessage None None sessions)).
Defined.

End Sessions.

(** ** Conflict detection *)

Section Detection.

Import ConflictResolver.

Lemma checkEmotionGroups_shape cid nf ef nc ec groups c :
  checkEmotionGroups cid nf ef nc ec groups = Some c ->
  c_newFact c = nf /\ c_existingFact c = ef /\ c_conflictType c = Contradiction
  /\ c_severity c = High /\ c_suggestedResolution c = Clarify.
Proof.
  induction groups as [|[positive negative] groups IH]; simpl; [discriminate|].
  intros H. split_tests H; [|exact (IH H)].
  injection H as <-. repeat split.
Qed.

Lemma checkPreference_shape cid nf ef nc ec c :
  checkPreference cid nf ef nc ec = Some c ->
  c_newFact c = nf /\ c_existingFact c = ef /\ c_conflictType c = Contradiction
  /\ c_severity c = Medium /\ c_suggestedResolution c = Clarify.
Proof.
  unfold checkPreference. intros H. split_tests H.
  injection H as <-. repeat split.
Qed.

Lemma checkContradiction_shape cid nf ef c :
  checkContradiction cid nf ef = Some c ->
  c_newFact c = nf /\ c_existingFact c = ef /\ c_conflictType c = Contradiction
  /\ c_suggestedResolution c = Clarify.
Proof.
  unfold checkContradiction. intros H.
  destruct (if String.eqb (f_category nf) "emotions" then _ else None) as [c'|] eqn:E.
  - injection H as <-. destruct (String.eqb (f_category nf) "emotions"); [|discriminate E].
    apply checkEmotionGroups_shape in E. tauto.
  - clear E. split_tests H.
    + injection H as <-. repeat split.
    + apply checkPreference_shape in H. tauto.
Qed.

Lemma checkTemporalConflict_shape cid nf ef c :
  checkTemporalConflict cid nf ef = Some c ->
  c_newFact c = nf /\ c_existingFact c = ef /\ c_conflictType c = Temporal
  /\ c_severity c = Medium /\ c_suggestedResolution c = Clarify.
Proof.
  unfold checkTemporalConflict. intros H. split_tests H.
  injection H as <-. repeat split.
Qed.

(** Only the inconsistency detector suggests a merge. *)
Lemma checkInconsistency_shape cid nf ef c :
  checkInconsistency cid nf ef = Some c ->
  c_newFact c = nf /\ c_existingFact c = ef /\ c_conflictType c = Inconsistency
  /\ c_severity c = Low /\ c_suggestedResolution c = Merge
  /\ (f_confidence ef > 0.8)%Q.
Proof.
  unfold checkInconsistency. intros H.
  destruct (Num.ltb (f_confidence nf) 0.6 && Num.gtb (f_confidence ef) 0.8) eqn:E;
    [|discriminate H].
  apply andb_true_iff in E as [_ E]. apply ltb_spec in E.
  split_tests H. injection H as <-. repeat split; assumption.
Qed.

Lemma checkAmbiguity_shape cid nf ef c :
  checkAmbiguity cid nf ef = Some c ->
  c_newFact c = nf /\ c_existingFact c = ef /\ c_conflictType c = Ambiguity
  /\ c_severity c = Low /\ c_suggestedResolution c = Clarify.
Proof.
  unfold checkAmbiguity. intros H. split_tests H.
  injection H as <-. repeat split.
Qed.

(** The stand-in for an existing fact has confidence 0.8, which is not
    above 0.8: the inconsistency detector never fires on it. *)
Lemma checkInconsistency_mock now cid nf content key :
  f_confidence (mockExistingFact now nf content key) = 0.8%Q
  /\ checkInconsistency cid nf (mockExistingFact now nf content key) = None.
Proof.
  split; [reflexivity|].
  destruct (checkInconsistency cid nf (mockExistingFact now nf content key)) as [c|] eqn:E;
    [|reflexivity].
  apply checkInconsistency_shape in E as (_ & _ & _ & _ & _ & E).
  exfalso. revert E. apply Qle_not_lt. apply Qle_refl.
Qed.

Lemma analyzeFactConflict_shape now counter nf content key c :
  analyzeFactConflict now counter nf content key = Some c ->
  c_newFact c = nf /\ c_existingFact c = mockExistingFact now nf content key
  /\ c_conflictType c <> Inconsistency /\ c_suggestedResolution c = Clarify.
Proof.
  unfold analyzeFactConflict, first_some. intros H.
  destruct (checkContradiction _ nf _) eqn:E1.
  { injection H as <-. apply checkContradiction_shape in E1 as (? & ? & -> & ?).
    repeat split; try assumption. discriminate. }
  destruct (checkTemporalConflict _ nf _) eqn:E2.
  { injection H as <-. apply checkTemporalConflict_shape in E2 as (? & ? & -> & ? & ?).
    repeat split; try assumption. discriminate. }
  rewrite (proj2 (checkInconsistency_mock now _ nf content key)) in H.
  apply checkAmbiguity_shape in H as (? & ? & -> & ? & ?).
  repeat split; try assumption. discriminate.
Qed.

Lemma visit_only_clarifications now nf acc kv :
  only_clarifications acc -> only_clarifications (visit now nf acc kv).
Proof.
  intros [Hauto Hall]. unfold visit.
  destruct (analyzeFactConflict now (a_counter acc) nf kv.2 kv.1) as [c|] eqn:E;
    [|split; assumption].
  apply analyzeFactConflict_shape in E as (_ & _ & Hty & Hres).
  split; cbn [a_auto a_conflicts].
  - rewrite Hres. cbn. destruct (_ || _); exact Hauto.
  - apply Forall_app. split; [exact Hall|]. constructor; [split; assumption|constructor].
Qed.

(** C10: whatever the new facts and the snapshot, [detectConflicts]
    reports no conflict of type inconsistency and nothing as
    auto-resolvable.  Every stand-in for an existing fact has confidence
    exactly 0.8 while the inconsistency detector asks for more than
    0.8; only that detector suggests a merge, and the three others
    suggest a clarification, never an update. *)
Theorem C10_no_inconsistency_and_nothing_auto_resolvable
    (now : Z) (conflictCounter : nat) (newFacts : list LearnedFact) (existingFacts : Knowledge) :
  let result := (detectConflicts now conflictCounter newFacts existingFacts).1 in
  autoResolvable result = []
  /\ Forall (fun c => c_conflictType c <> Inconsistency
                      /\ c_suggestedResolution c = Clarify) (conflicts result)
  /\ (forall cid newFact content key,
        f_confidence (mockExistingFact now newFact content key) = 0.8%Q
        /\ checkInconsistency cid newFact (mockExistingFact now newFact content key) = None)
  /\ (forall cid newFact existingFact c,
        (checkInconsistency cid newFact existingFact = Some c ->
         (f_confidence existingFact > 0.8)%Q /\ c_suggestedResolution c = Merge)
        /\ (checkContradiction cid newFact existingFact = Some c ->
            c_suggestedResolution c = Clarify)
        /\ (checkTemporalConflict cid newFact existingFact = Some c ->
            c_suggestedResolution c = Clarify)
        /\ (checkAmbiguity cid newFact existingFact = Some c ->
            c_suggestedResolution c = Clarify)).
Proof.
  intros result.
  assert (Hinv : only_clarifications
                   (fold_left (visitFact now existingFacts) newFacts
                              (mkAcc [] [] [] conflictCounter))).
  { apply fold_left_preserves; [split; [reflexivity|constructor]|].
    intros acc nf Hacc. unfold visitFact.
    apply fold_left_preserves; [exact Hacc|].
    intros acc' kv Hacc'. apply visit_only_clarifications, Hacc'. }
  destruct Hinv as [Hauto Hall].
  split; [exact Hauto|]. split; [exact Hall|]. split.
  - intros. apply checkInconsistency_mock.
  - intros cid nf ef c. split; [|split; [|split]]; intros H.
    + apply checkInconsistency_shape in H. tauto.
    + apply checkContradiction_shape in H. tauto.
    + apply checkTemporalConflict_shape in H. tauto.
    + apply checkAmbiguity_shape in H. tauto.
Qed.

(** *** Preference contradictions *)

Lemma findCommonTerms_nonempty (text1 text2 : string) :
  shareLongWord text1 text2 -> findCommonTerms text1 text2 <> [].
Proof.
  intros (w & H1 & H2 & Hlen) Hnil.
  assert (Hin : w ∈ findCommonTerms text1 text2).
  { unfold findCommonTerms. apply list_elem_of_filter. split.
    - unfold Js.arr_includes. apply existsb_exists. exists w.
      split; [|apply String.eqb_refl].
      apply list_elem_of_In, list_elem_of_filter. split.
      + apply Nat.ltb_lt. exact Hlen.
      + apply list_elem_of_In. exact H2.
    - apply list_elem_of_filter. split.
      + apply Nat.ltb_lt. exact Hlen.
      + apply list_elem_of_In. exact H1. }
  rewrite Hnil in Hin. inversion Hin.
Qed.

Lemma checkPreference_clash cid nf ef nc ec :
  polarityClash nc ec -> shareLongWord nc ec ->
  exists question,
    checkPreference cid nf ef nc ec
    = Some (mkConflict cid nf ef Contradiction Medium question Clarify).
Proof.
  intros Hclash Hshare. unfold checkPreference.
  assert (Htest : (some_included likeWords nc && some_included dislikeWords ec)
                  || (some_included dislikeWords nc && some_included likeWords ec) = true).
  { destruct Hclash as [[-> ->]|[-> ->]]; [reflexivity|apply orb_true_r]. }
  rewrite Htest.
  pose proof (findCommonTerms_nonempty nc ec Hshare) as Hne.
  destruct (findCommonTerms nc ec) as [|term rest]; [congruence|].
  eexists. reflexivity.
Qed.

Lemma checkContradiction_preferences cid nf ef :
  f_category nf = "preferences" ->
  checkContradiction cid nf ef
  = checkPreference cid nf ef (Js.toLowerCase (f_content nf)) (Js.toLowerCase (f_content ef)).
Proof. intros Hcat. unfold checkContradiction. rewrite Hcat. reflexivity. Qed.

Lemma analyzeFactConflict_preferences now counter nf content key :
  f_category nf = "preferences" ->
  polarityClash (Js.toLowerCase (f_content nf)) (Js.toLowerCase content) ->
  shareLongWord (Js.toLowerCase (f_content nf)) (Js.toLowerCase content) ->
  exists question,
    analyzeFactConflict now counter nf content key
    = Some (mkConflict (generateConflictId now counter) nf
              (mockExistingFact now nf content key) Contradiction Medium question Clarify).
Proof.
  intros Hcat Hclash Hshare. unfold analyzeFactConflict.
  rewrite checkContradiction_preferences by exact Hcat.
  destruct (checkPreference_clash (generateConflictId now counter) nf
              (mockExistingFact now nf content key) _ _ Hclash Hshare) as [q Hq].
  exists q. cbn [f_content mockExistingFact] in *. rewrite Hq. reflexivity.
Qed.

Lemma conflictsOfPair_app factId key cs1 cs2 :
  conflictsOfPair factId key (cs1 ++ cs2)%list
  = (conflictsOfPair factId key cs1 ++ conflictsOfPair factId key cs2)%list.
Proof. apply filter_app. Qed.

Lemma visit_conflicts now nf acc kv :
  a_conflicts (visit now nf acc kv)
  = (a_conflicts acc
     ++ match analyzeFactConflict now (a_counter acc) nf kv.2 kv.1 with
        | Some c => [c]
        | None => []
        end)%list.
Proof.
  unfold visit. destruct (analyzeFactConflict _ _ _ _ _); [reflexivity|].
  symmetry. apply app_nil_r.
Qed.

(** Another new fact, or an entry under another key, adds nothing to
    the conflicts of the pair. *)
Lemma visit_other_pair now nf acc kv factId key :
  f_id nf <> factId \/ kv.1 <> key ->
  conflictsOfPair factId key (a_conflicts (visit now nf acc kv))
  = conflictsOfPair factId key (a_conflicts acc).
Proof.
  intros Hne. rewrite visit_conflicts, conflictsOfPair_app.
  destruct (analyzeFactConflict _ _ _ _ _) as [c|] eqn:E; [|apply app_nil_r].
  apply analyzeFactConflict_shape in E as (Hnf & Hex & _).
  replace (conflictsOfPair factId key [c]) with (@nil ConflictInfo); [apply app_nil_r|].
  unfold conflictsOfPair. rewrite filter_cons_False; [reflexivity|].
  rewrite Hnf, Hex. cbn. tauto.
Qed.

Lemma fold_visit_other_keys now nf factId key (l : list (string * string)) acc :
  key ∉ l.*1 ->
  conflictsOfPair factId key (a_conflicts (fold_left (visit now nf) l acc))
  = conflictsOfPair factId key (a_conflicts acc).
Proof.
  revert acc. induction l as [|kv l IH]; intros acc Hk; [reflexivity|].
  cbn [fold_left]. apply not_elem_of_cons in Hk as [Hne Hk].
  rewrite IH by exact Hk. apply visit_other_pair. right. congruence.
Qed.

Lemma visitFact_other_fact now existingFacts nf factId key acc :
  f_id nf <> factId ->
  conflictsOfPair factId key (a_conflicts (visitFact now existingFacts acc nf))
  = conflictsOfPair factId key (a_conflicts acc).
Proof.
  intros Hne. unfold visitFact.
  generalize (categoryFacts existingFacts (f_category nf)). intros l. revert acc.
  induction l as [|kv l IH]; intros acc; [reflexivity|].
  cbn [fold_left]. rewrite IH. apply visit_other_pair. left. exact Hne.
Qed.

Lemma fold_visitFact_other_facts now existingFacts factId key (l : list LearnedFact) acc :
  factId ∉ f_id <$> l ->
  conflictsOfPair factId key (a_conflicts (fold_left (visitFact now existingFacts) l acc))
  = conflictsOfPair factId key (a_conflicts acc).
Proof.
  revert acc. induction l as [|nf l IH]; intros acc Hk; [reflexivity|].
  cbn [fold_left]. rewrite fmap_cons in Hk. apply not_elem_of_cons in Hk as [Hne Hk].
  rewrite IH by exact Hk. apply visitFact_other_fact. congruence.
Qed.

(** C7: take new facts with distinct ids, one of them a preference
    fact, and a snapshot entry of the preferences category, such that
    the two contents (in lower case) clash in polarity, one holding a
    like word and the other a dislike word, and share a word of more
    than three characters.  Then [detectConflicts] reports exactly one
    conflict for that pair, a contradiction of medium severity. *)
Theorem C7_preference_clash_is_one_medium_contradiction
    (now : Z) (conflictCounter : nat) (newFacts : list LearnedFact) (newFact : LearnedFact)
    (existingFacts : Knowledge) (preferences : gmap string string) (key content : string) :
  NoDup (f_id <$> newFacts) ->
  newFact ∈ newFacts ->
  f_category newFact = "preferences" ->
  existingFacts !! "preferences" = Some preferences ->
  preferences !! key = Some content ->
  polarityClash (Js.toLowerCase (f_content newFact)) (Js.toLowerCase content) ->
  shareLongWord (Js.toLowerCase (f_content newFact)) (Js.toLowerCase content) ->
  let result := (detectConflicts now conflictCounter newFacts existingFacts).1 in
  hasConflicts result = true
  /\ exists c, conflictsOfPair (f_id newFact) key (conflicts result) = [c]
               /\ c_conflictType c = Contradiction
               /\ c_severity c = Medium
               /\ c_newFact c = newFact
               /\ f_category (c_existingFact c) = "preferences"
               /\ f_content (c_existingFact c) = content.
Proof.
  intros Hids Hnew Hcat Hprefs Hkey Hclash Hshare result.
  assert (Hex : exists c, conflictsOfPair (f_id newFact) key (conflicts result) = [c]
                /\ c_conflictType c = Contradiction /\ c_severity c = Medium
                /\ c_newFact c = newFact
                /\ f_category (c_existingFact c) = "preferences"
                /\ f_content (c_existingFact c) = content).
  { subst result. unfold detectConflicts. cbn [fst conflicts].
    apply list_elem_of_split in Hnew as (before & after & ->).
    rewrite fmap_app, fmap_cons in Hids.
    apply NoDup_app in Hids as (_ & Hbefore & Hafter). apply NoDup_cons in Hafter as [Hafter _].
    rewrite fold_left_app. cbn [fold_left].
    rewrite fold_visitFact_other_facts by exact Hafter.
    set (acc := fold_left (visitFact now existingFacts) before (mkAcc [] [] [] conflictCounter)).
    assert (Hacc : conflictsOfPair (f_id newFact) key (a_conflicts acc) = []).
    { subst acc. rewrite fold_visitFact_other_facts; [reflexivity|].
      intros Hin. apply (Hbefore _ Hin). left. }
    unfold visitFact, categoryFacts. rewrite Hcat, Hprefs. cbn [from_option]. unfold id.
    pose proof (NoDup_fst_map_to_list preferences) as Hnd.
    assert (Hin : (key, content) ∈ map_to_list preferences)
      by (apply elem_of_map_to_list; exact Hkey).
    apply list_elem_of_split in Hin as (l1 & l2 & Hl). rewrite Hl in *.
    rewrite fmap_app, fmap_cons in Hnd.
    apply NoDup_app in Hnd as (_ & H1 & H2). apply NoDup_cons in H2 as [H2 _].
    rewrite fold_left_app. cbn [fold_left].
    rewrite fold_visit_other_keys by exact H2.
    rewrite visit_conflicts, conflictsOfPair_app.
    rewrite fold_visit_other_keys.
    2:{ intros Hk. apply (H1 _ Hk). left. }
    rewrite Hacc. cbn [fst snd app].
    destruct (analyzeFactConflict_preferences now
                (a_counter (fold_left (visit now newFact) l1 acc))
                newFact content key Hcat Hclash Hshare) as [q Hq].
    rewrite Hq. eexists. split.
    - unfold conflictsOfPair. rewrite filter_cons_True by (split; reflexivity).
      rewrite filter_nil. reflexivity.
    - cbn. repeat split. exact Hcat. }
  split; [|exact Hex].
  destruct Hex as (c & Hc & _). subst result. unfold detectConflicts in *.
  cbn [fst conflicts hasConflicts] in *.
  destruct (a_conflicts _) as [|c0 cs]; [discriminate Hc|reflexivity].
Qed.

(** The second end-to-end scenario: "I hate spicy food" against a
    snapshot that holds "I love spicy food". *)
Lemma C7_spicy_food_witness :
  f_category hateFact = "preferences"
  /\ spicySnapshot !! "preferences" = Some {[ "fact_1000_1" := "I love spicy food" ]}
  /\ (exists c, conflicts (detectConflicts 2000 0 [hateFact] spicySnapshot).1 = [c]
                /\ c_clarificationQuestion c
                   = "I'm confused - do you like or dislike spicy? You've mentioned both!")
  /\ exists c, conflictsOfPair "fact_2000_2" "fact_1000_1"
                 (conflicts (detectConflicts 2000 0 [hateFact] spicySnapshot).1) = [c]
               /\ c_conflictType c = Contradiction
               /\ c_severity c = Medium.
Proof.
  split; [reflexivity|]. split; [reflexivity|]. split.
  - eexists. split; vm_compute; reflexivity.
  - destruct (C7_preference_clash_is_one_medium_contradiction 2000 0 [hateFact] hateFact
                spicySnapshot {[ "fact_1000_1" := "I love spicy food" ]}
                "fact_1000_1" "I love spicy food")
      as (_ & c & Hc & Hty & Hsev & _).
    + repeat constructor. intros H. inversion H.
    + left.
    + reflexivity.
    + reflexivity.
    + reflexivity.
    + right. split; reflexivity.
    + exists "spicy". repeat split; [vm_compute; tauto|vm_compute; tauto|vm_compute; lia].
    + exists c. repeat split; assumption.
Defined.

End Detection.

(** * Further properties of the modelled code *)

(** ** The session store *)

Section SessionStore.

Import ConversationSessionManager.

Lemma lookup_fold_delete_if {V} (p : V -> bool) (l : list (string * V)) (m : gmap string V)
    (k : string) :
  fold_left (fun m' (kv : string * V) => if p kv.2 then delete kv.1 m' else m') l m !! k
  = if existsb (fun kv : string * V => String.eqb kv.1 k && p kv.2) l then None else m !! k.
Proof.
  revert m. induction l as [|[k' v'] l IH]; intros m; cbn [fold_left existsb]; [reflexivity|].
  rewrite IH. cbn [fst snd].
  destruct (existsb _ l); [rewrite orb_true_r; reflexivity|]. rewrite orb_false_r.
  destruct (p v'); [|rewrite andb_false_r; reflexivity]. rewrite andb_true_r.
  destruct (String.eqb_spec k' k) as [->|Hne].
  - apply lookup_delete_eq.
  - apply lookup_delete_ne. exact Hne.
Qed.

Lemma lookup_cleanupExpiredSessions now sessions sid :
  cleanupExpiredSessions now sessions !! sid
  = match sessions !! sid with
    | Some session => if isExpired now session then None else Some session
    | None => None
    end.
Proof.
  unfold cleanupExpiredSessions. rewrite lookup_fold_delete_if.
  destruct (existsb _ _) eqn:Hex.
  - apply existsb_exists in Hex as ([k session] & Hin & Hk).
    apply andb_true_iff in Hk as [Hk Hx]. apply String.eqb_eq in Hk. cbn in Hk, Hx. subst k.
    apply list_elem_of_In, elem_of_map_to_list in Hin. rewrite Hin, Hx. reflexivity.
  - destruct (sessions !! sid) as [session|] eqn:E; [|reflexivity].
    destruct (isExpired now session) eqn:Hx; [|reflexivity].
    exfalso. apply not_true_iff_false in Hex. apply Hex, existsb_exists.
    exists (sid, session). split.
    + apply list_elem_of_In, elem_of_map_to_list. exact E.
    + cbn. rewrite String.eqb_refl, Hx. reflexivity.
Qed.

Lemma lookup_getOrCreateSession_fresh now uuid sid initialMessage sessions :
  sid <> "" ->
  exists session,
    (getOrCreateSession now uuid (Some sid) initialMessage sessions).2 !! sid = Some session
    /\ lastActivity session = now.
Proof.
  intros Hsid. unfold getOrCreateSession.
  destruct (String.eqb sid "") eqn:E; [apply String.eqb_eq in E; contradiction|].
  destruct (sessions !! sid) as [session|]; cbn [snd];
    rewrite lookup_insert_eq; eexists; split; reflexivity.
Qed.

(** X1: the periodic sweep removes exactly the sessions idle for more
    than thirty minutes and leaves the others as they are; in particular
    a session obtained from [getOrCreateSession] survives every sweep up
    to thirty minutes later. *)
Theorem X1_cleanupExpiredSessions_removes_exactly_the_idle
    (now : Z) (sessions : gmap string ConversationSession) (sid : string) :
  (forall session, sessions !! sid = Some session ->
     (cleanupExpiredSessions now sessions !! sid = None
      <-> 30 * 60 * 1000 < now - lastActivity session)
     /\ (now - lastActivity session <= 30 * 60 * 1000 ->
         cleanupExpiredSessions now sessions !! sid = Some session))
  /\ (sessions !! sid = None -> cleanupExpiredSessions now sessions !! sid = None)
  /\ (forall touched uuid initialMessage,
        sid <> "" -> now - touched <= 30 * 60 * 1000 ->
        is_Some (cleanupExpiredSessions now
                   (getOrCreateSession touched uuid (Some sid) initialMessage sessions).2
                 !! sid)).
Proof.
  split; [|split].
  - intros session E. rewrite lookup_cleanupExpiredSessions, E.
    unfold isExpired, SESSION_TIMEOUT.
    destruct (Z.ltb_spec (30 * 60 * 1000) (now - lastActivity session)) as [H|H].
    + split; [tauto|]. intros H'. lia.
    + split; [|reflexivity]. split; [discriminate|lia].
  - intros E. rewrite lookup_cleanupExpiredSessions, E. reflexivity.
  - intros touched uuid initialMessage Hsid Hidle.
    destruct (lookup_getOrCreateSession_fresh touched uuid sid initialMessage sessions Hsid)
      as (session & E & Hact).
    rewrite lookup_cleanupExpiredSessions, E. unfold isExpired, SESSION_TIMEOUT.
    rewrite Hact. destruct (Z.ltb_spec (30 * 60 * 1000) (now - touched)) as [H|H]; [lia|].
    eexists. reflexivity.
Qed.

(** A session idle for 31 minutes is swept, one touched a second ago is kept. *)
Lemma X1_cleanupExpiredSessions_witness :
  let sessions := (getOrCreateSession 0 "uuid-1" (Some "s1") None ∅).2 in
  cleanupExpiredSessions (31 * 60 * 1000) sessions !! "s1" = None
  /\ is_Some (cleanupExpiredSessions (31 * 60 * 1000)
                (getOrCreateSession (31 * 60 * 1000 - 1000) "uuid-2" (Some "s1") None sessions).2
              !! "s1").
Proof.
  intros sessions.
  pose proof (X1_cleanupExpiredSessions_removes_exactly_the_idle
                (31 * 60 * 1000) sessions "s1") as (H1 & _ & H3).
  split.
  - destruct (H1 (mkSession "s1" [] 0 (mkContext [] "neutral" [])) eq_refl) as [[_ H] _].
    apply H. reflexivity.
  - apply H3; [discriminate|lia].
Defined.

(** *** The latest user message *)

Lemma getUserMessages_updateSession_append now sid m emo sessions session :
  sessions !! sid = Some session -> messageExists session m = false -> m_sender m = User ->
  getUserMessages sid (updateSession now sid m emo sessions)
  = (getUserMessages sid sessions ++ [m])%list.
Proof.
  intros E Hex Hu. unfold getUserMessages, updateSession.
  rewrite E, Hex, lookup_insert_eq. cbn [messages].
  rewrite List.filter_app. cbn [List.filter]. unfold isUser at 2. rewrite Hu. reflexivity.
Qed.

(** X2: [isMessageNewer] compares a message with the latest stored user
    message.  Without one every message is newer; the latest message
    itself (same id, same timestamp) is not newer; a valid timestamp
    after a valid latest one is newer, one before it is not.  Right
    after [updateSession] has appended a user message, that message is
    the latest and is no longer newer, so a resubmission is recognised. *)
Theorem X2_isMessageNewer_recognises_the_latest_message
    (sid : string) (sessions : gmap string ConversationSession) (message : ChatMessage) :
  (getLatestUserMessage sid sessions = None -> isMessageNewer sid message sessions = true)
  /\ (forall latest, getLatestUserMessage sid sessions = Some latest ->
        (m_id message = m_id latest -> m_timestamp message = m_timestamp latest ->
         isMessageNewer sid message sessions = false)
        /\ (forall t t', m_timestamp latest = Some t -> m_timestamp message = Some t' ->
              (t < t' -> isMessageNewer sid message sessions = true)
              /\ (t' < t -> isMessageNewer sid message sessions = false)))
  /\ (forall now emo session,
        sessions !! sid = Some session -> messageExists session message = false ->
        m_sender message = User ->
        getLatestUserMessage sid (updateSession now sid message emo sessions) = Some message
        /\ isMessageNewer sid message (updateSession now sid message emo sessions) = false).
Proof.
  assert (Hself : forall ss, getLatestUserMessage sid ss = Some message ->
                             isMessageNewer sid message ss = false).
  { intros ss H. unfold isMessageNewer. rewrite H.
    destruct (m_timestamp message) as [t|]; [|reflexivity].
    rewrite Z.ltb_irrefl, Z.eqb_refl, String.eqb_refl. reflexivity. }
  split; [|split].
  - intros H. unfold isMessageNewer. rewrite H. reflexivity.
  - intros latest H. split.
    + intros Hid Ht. unfold isMessageNewer. rewrite H, Ht.
      destruct (m_timestamp latest) as [t|]; [|reflexivity].
      rewrite Z.ltb_irrefl, Z.eqb_refl, Hid, String.eqb_refl. reflexivity.
    + intros t t' Hl Hm. unfold isMessageNewer. rewrite H, Hl, Hm. split; intros Hlt.
      * apply Z.ltb_lt in Hlt. rewrite Hlt. reflexivity.
      * destruct (Z.ltb_spec t t') as [?|_]; [lia|].
        destruct (Z.eqb_spec t' t) as [?|_]; [lia|]. reflexivity.
  - intros now emo session E Hex Hu.
    assert (Hlatest : getLatestUserMessage sid (updateSession now sid message emo sessions)
                      = Some message).
    { unfold getLatestUserMessage.
      rewrite (getUserMessages_updateSession_append _ _ _ _ _ _ E Hex Hu).
      apply last_snoc. }
    split; [exact Hlatest|apply Hself, Hlatest].
Qed.

(** A fresh session, its first user message, and the same message again. *)
Lemma X2_isMessageNewer_witness :
  let sessions := (getOrCreateSession 500 "uuid-1" (Some "s1") None ∅).2 in
  isMessageNewer "s1" helloMessage sessions = true
  /\ isMessageNewer "s1" helloMessage (updateSession 1000 "s1" helloMessage None sessions) = false
  /\ isMessageNewer "s1" laterMessage (updateSession 1000 "s1" helloMessage None sessions) = true.
Proof.
  intros sessions.
  pose proof (X2_isMessageNewer_recognises_the_latest_message "s1" sessions helloMessage)
    as (H1 & _ & H3).
  split; [apply H1; reflexivity|].
  split.
  - apply (H3 1000 None (mkSession "s1" [] 500 (mkContext [] "neutral" []))); reflexivity.
  - pose proof (X2_isMessageNewer_recognises_the_latest_message "s1"
                  (updateSession 1000 "s1" helloMessage None sessions) laterMessage)
      as (_ & H2 & _).
    destruct (H2 helloMessage eq_refl) as [_ H].
    apply (H 1000 5000); [reflexivity|reflexivity|lia].
Defined.

(** *** What a session keeps *)

Lemma uniq_spec (seen xs : list string) :
  NoDup (uniq seen xs)
  /\ forall x, x ∈ uniq seen xs -> x ∈ xs /\ x ∉ seen.
Proof.
  revert seen. induction xs as [|x xs IH]; intros seen; cbn [uniq].
  - split; [constructor|]. intros x H. inversion H.
  - destruct (Js.arr_includes seen x) eqn:Hin.
    + destruct (IH seen) as [Hnd Hsub]. split; [exact Hnd|].
      intros y Hy. destruct (Hsub y Hy) as [? ?]. split; [right; assumption|assumption].
    + destruct (IH (x :: seen)) as [Hnd Hsub].
      assert (Hx : x ∉ seen).
      { intros Hx. apply not_true_iff_false in Hin. apply Hin.
        unfold Js.arr_includes. apply existsb_exists. exists x.
        split; [apply list_elem_of_In; exact Hx|apply String.eqb_refl]. }
      split.
      * constructor; [|exact Hnd]. intros Hy. destruct (Hsub x Hy) as [_ Hn].
        apply Hn. left.
      * intros y [->|Hy]%elem_of_cons; [split; [left|exact Hx]|].
        destruct (Hsub y Hy) as [? Hn]. split; [right; assumption|].
        intros Hs. apply Hn. right. exact Hs.
Qed.

Lemma extractTopicsFromMessage_known text :
  Forall (fun t => t ∈ topicNames) (extractTopicsFromMessage text).
Proof.
  unfold extractTopicsFromMessage, topicNames. apply Forall_forall. intros t Ht.
  apply list_elem_of_fmap in Ht as (pt & -> & Hpt).
  apply list_elem_of_In, filter_In in Hpt as [Hpt _].
  apply list_elem_of_fmap. exists pt. split; [reflexivity|apply list_elem_of_In; exact Hpt].
Qed.

Lemma topics_ok_updateTopics m ctx :
  (length (currentTopics ctx) <= 5)%nat -> NoDup (currentTopics ctx) ->
  Forall (fun t => t ∈ topicNames) (currentTopics ctx) ->
  (length (currentTopics (updateTopics m ctx)) <= 5)%nat
  /\ NoDup (currentTopics (updateTopics m ctx))
  /\ Forall (fun t => t ∈ topicNames) (currentTopics (updateTopics m ctx)).
Proof.
  intros Hlen Hnd Hall. unfold updateTopics. destruct (m_sender m); [|auto].
  cbn [currentTopics].
  set (l := (currentTopics ctx ++ extractTopicsFromMessage (m_text m))%list).
  destruct (uniq_spec [] l) as [Hu Hsub].
  assert (Hknown : Forall (fun t => t ∈ topicNames) (uniq [] l)).
  { apply Forall_forall. intros t Ht. destruct (Hsub t Ht) as [Hin _].
    subst l. apply elem_of_app in Hin as [Hin|Hin].
    - eapply Forall_forall in Hall; eassumption.
    - pose proof (extractTopicsFromMessage_known (m_text m)) as He.
      eapply Forall_forall in He; eassumption. }
  destruct (Nat.ltb_spec 5 (length (uniq [] l))) as [Hgt|Hle].
  - unfold lastFive. split; [rewrite length_drop; lia|]. split.
    + eapply sublist_NoDup; [exact Hu|apply sublist_drop].
    + apply Forall_drop. exact Hknown.
  - auto.
Qed.

Lemma session_ok_runSessionOp now op sessions :
  (forall sid session, sessions !! sid = Some session -> session_ok sid session) ->
  forall sid session, runSessionOp now op sessions !! sid = Some session -> session_ok sid session.
Proof.
  intros IH sid session. destruct op as [uuid osid initialMessage|sid' m emo|]; cbn [runSessionOp].
  - unfold getOrCreateSession.
    set (sid' := match osid with
                 | Some s0 => if String.eqb s0 "" then uuid else s0
                 | None => uuid
                 end).
    destruct (sessions !! sid') as [old|] eqn:E; cbn [snd].
    + intros [[<- <-]|[_ H]]%lookup_insert_Some; [|exact (IH _ _ H)].
      destruct (IH _ _ E) as (H1 & H2 & H3 & H4). repeat split; assumption.
    + intros [[<- <-]|[_ H]]%lookup_insert_Some; [|exact (IH _ _ H)].
      repeat split; cbn; [lia|constructor|constructor].
  - unfold updateSession. destruct (sessions !! sid') as [old|] eqn:E; [|apply IH].
    destruct (messageExists old m); [apply IH|].
    intros [[<- <-]|[_ H]]%lookup_insert_Some; [|exact (IH _ _ H)].
    destruct (IH _ _ E) as (H1 & H2 & H3 & H4).
    split; [exact H1|]. cbn [context].
    apply topics_ok_updateTopics; unfold updateEmotion;
      destruct emo as [e|]; try destruct (String.eqb e ""); assumption.
  - rewrite lookup_cleanupExpiredSessions.
    destruct (sessions !! sid) as [old|] eqn:E; [|discriminate].
    destruct (isExpired now old); [discriminate|]. intros [= <-]. exact (IH _ _ E).
Qed.

(** X3: whatever sequence of [getOrCreateSession], [updateSession] and
    [cleanupExpiredSessions] has run, every session is filed under its
    own id and lists at most five topics, without repetition, each one
    of the eight topics of the pattern table. *)
Theorem X3_sessions_track_at_most_five_distinct_known_topics
    (sessions : gmap string ConversationSession) (sid : string) (session : ConversationSession) :
  reachable_sessions sessions -> sessions !! sid = Some session ->
  sessionId session = sid
  /\ (length (currentTopics (context session)) <= 5)%nat
  /\ NoDup (currentTopics (context session))
  /\ Forall (fun t => t ∈ ["dating"; "fashion"; "food"; "relationship"; "projects";
                           "emotions"; "work"; "social"])
            (currentTopics (context session)).
Proof.
  intros Hr. revert sid session. induction Hr as [|now op sessions _ IH].
  - intros sid session H. rewrite lookup_empty in H. discriminate.
  - intros sid session H. exact (session_ok_runSessionOp now op sessions IH sid session H).
Qed.

(** A session that has seen a message about a date, an outfit and food. *)
Lemma X3_sessions_witness :
  let sessions :=
    runSessionOp 1000
      (SUpdate "s1" (mkMessage "m1" "Going on a date, wearing a dress, then food" User (Some 900))
               None)
      (runSessionOp 500 (SGetOrCreate "uuid-1" (Some "s1") None) ∅) in
  exists session,
    sessions !! "s1" = Some session
    /\ currentTopics (context session) = ["dating"; "fashion"; "food"]
    /\ (length (currentTopics (context session)) <= 5)%nat.
Proof.
  intros sessions.
  assert (Hr : reachable_sessions sessions) by (repeat constructor).
  eexists. split; [vm_compute; reflexivity|]. split; [reflexivity|].
  refine (proj1 (proj2 (X3_sessions_track_at_most_five_distinct_known_topics
                          sessions "s1" _ Hr _))).
  vm_compute. reflexivity.
Defined.

(** X4: [updateSession] does nothing for an unknown session id; for a
    known one the message is in the session afterwards, either appended
    or already there as a duplicate, and no other session changes. *)
Theorem X4_updateSession_message_is_in_the_session
    (now : Z) (sid : string) (m : ChatMessage) (emo : option string)
    (sessions : gmap string ConversationSession) :
  (sessions !! sid = None -> updateSession now sid m emo sessions = sessions)
  /\ (forall session, sessions !! sid = Some session ->
        exists session', updateSession now sid m emo sessions !! sid = Some session'
                         /\ messageExists session' m = true
                         /\ sessionId session' = sessionId session)
  /\ (forall other, other <> sid ->
        updateSession now sid m emo sessions !! other = sessions !! other).
Proof.
  split; [|split].
  - intros E. unfold updateSession. rewrite E. reflexivity.
  - intros session E. unfold updateSession. rewrite E.
    destruct (messageExists session m) eqn:Hex.
    + exists session. auto.
    + rewrite lookup_insert_eq. eexists. split; [reflexivity|]. split; [|reflexivity].
      unfold messageExists. cbn [messages]. rewrite existsb_app. cbn [existsb].
      rewrite sameMessage_refl, !orb_true_r. reflexivity.
  - intros other Hne. unfold updateSession.
    destruct (sessions !! sid) as [session|]; [|reflexivity].
    destruct (messageExists session m); [reflexivity|].
    apply lookup_insert_ne. congruence.
Qed.

(** The first message of a fresh session. *)
Lemma X4_updateSession_witness :
  let sessions := (getOrCreateSession 500 "uuid-1" (Some "s1") None ∅).2 in
  exists session', updateSession 1000 "s1" helloMessage None sessions !! "s1" = Some session'
                   /\ messageExists session' helloMessage = true.
Proof.
  intros sessions.
  destruct (proj1 (proj2 (X4_updateSession_message_is_in_the_session
                            1000 "s1" helloMessage None sessions))
              (mkSession "s1" [] 500 (mkContext [] "neutral" [])) eq_refl)
    as (session' & H1 & H2 & _).
  exists session'. split; assumption.
Defined.

End SessionStore.

(** ** The read methods of the memory bank *)

Section BankReads.

Import IntelligentMemoryBank.

Lemma insertDescending_perm {A} (key : A -> Q) (x : A) (l : list A) :
  insertDescending key x l ≡ₚ x :: l.
Proof.
  induction l as [|y l IH]; cbn [insertDescending]; [reflexivity|].
  destruct (Num.leb (key y) (key x)); [reflexivity|].
  rewrite IH. apply Permutation_swap.
Qed.

Lemma sortDescending_perm {A} (key : A -> Q) (l : list A) : sortDescending key l ≡ₚ l.
Proof.
  induction l as [|x l IH]; cbn [sortDescending]; [reflexivity|].
  rewrite insertDescending_perm, IH. reflexivity.
Qed.

Lemma elem_of_sortDescending {A} (key : A -> Q) (l : list A) (x : A) :
  x ∈ sortDescending key l <-> x ∈ l.
Proof. rewrite sortDescending_perm. reflexivity. Qed.

Lemma insertDescending_sorted {A} (key : A -> Q) (x : A) (l : list A) :
  descending key l -> descending key (insertDescending key x l).
Proof.
  unfold descending. induction 1 as [|y l Hl IH Hy]; cbn [insertDescending].
  - repeat constructor.
  - destruct (Num.leb (key y) (key x)) eqn:E.
    + apply leb_spec in E. constructor; [constructor; assumption|].
      constructor; [exact E|].
      eapply Forall_impl; [exact Hy|]. cbn. intros z Hz. eapply Qle_trans; eassumption.
    + apply leb_false in E. constructor; [exact IH|].
      apply Forall_forall. intros z Hz.
      rewrite insertDescending_perm in Hz. apply elem_of_cons in Hz as [->|Hz].
      * apply Qlt_le_weak. exact E.
      * eapply Forall_forall in Hy; eassumption.
Qed.

Lemma sortDescending_sorted {A} (key : A -> Q) (l : list A) :
  descending key (sortDescending key l).
Proof.
  induction l as [|x l IH]; cbn [sortDescending]; [constructor|].
  apply insertDescending_sorted, IH.
Qed.

Lemma lookup_fold_alter_NoDup {V} (f : V -> V) (ks : list string) (m : gmap string V)
    (k : string) :
  NoDup ks ->
  fold_left (fun m' k' => alter f k' m') ks m !! k
  = if decide (k ∈ ks) then f <$> m !! k else m !! k.
Proof.
  intros Hnd. revert m. induction Hnd as [|k' ks Hk' Hnd IH]; intros m; cbn [fold_left].
  - rewrite decide_False; [reflexivity|]. intros H. inversion H.
  - rewrite IH. destruct (decide (k = k')) as [->|Hne].
    + rewrite decide_False by exact Hk'. rewrite decide_True by left.
      apply lookup_alter_eq.
    + rewrite lookup_alter_ne by congruence.
      destruct (decide (k ∈ ks)) as [Hin|Hnin].
      * rewrite decide_True by (right; exact Hin). reflexivity.
      * rewrite decide_False; [reflexivity|].
        intros [?|?]%elem_of_cons; contradiction.
Qed.

Lemma lookup_access_NoDup now ids b k :
  NoDup ids ->
  memory (access now ids b) !! k
  = if decide (k ∈ ids) then touch now <$> memory b !! k else memory b !! k.
Proof. apply lookup_fold_alter_NoDup. Qed.

Lemma geb_spec (a b : Q) : Num.geb a b = true <-> (b <= a)%Q.
Proof. apply leb_spec. Qed.

Lemma elem_of_categoryHits category minConfidence b k :
  k ∈ categoryHits category minConfidence b
  <-> k ∈ bucketOf category b
      /\ exists e, memory b !! k = Some e /\ (minConfidence <= e_confidence e)%Q.
Proof.
  unfold categoryHits, bucketOf.
  rewrite list_elem_of_In, filter_In, <- list_elem_of_In, elem_of_elements.
  split; intros [Hin H]; (split; [exact Hin|]).
  - destruct (memory b !! k) as [e|]; [|discriminate].
    exists e. split; [reflexivity|]. apply geb_spec. exact H.
  - destruct H as (e & -> & H). apply geb_spec. exact H.
Qed.

Lemma NoDup_list_filter {A} (f : A -> bool) (l : list A) :
  NoDup l -> NoDup (List.filter f l).
Proof.
  induction 1 as [|x l Hx Hl IH]; cbn [List.filter]; [constructor|].
  destruct (f x); [|exact IH]. constructor; [|exact IH].
  intros Hin. apply Hx. apply list_elem_of_In, filter_In in Hin as [Hin _].
  apply list_elem_of_In. exact Hin.
Qed.

Lemma NoDup_categoryHits category minConfidence b :
  NoDup (categoryHits category minConfidence b).
Proof. apply NoDup_list_filter, NoDup_elements. Qed.

Lemma elem_of_getFactsByCategory now category minConfidence b fact :
  fact ∈ (getFactsByCategory now category minConfidence b).1
  <-> exists k e, k ∈ bucketOf category b /\ memory b !! k = Some e
                  /\ (minConfidence <= e_confidence e)%Q /\ e_fact e = fact.
Proof.
  unfold getFactsByCategory. cbn [fst].
  rewrite elem_of_sortDescending. unfold factsOf. rewrite list_elem_of_omap. split.
  - intros (k & Hk & Hf). apply elem_of_categoryHits in Hk as (Hin & e & He & Hc).
    rewrite He in Hf. injection Hf as <-. eauto 10.
  - intros (k & e & Hin & He & Hc & <-). exists k.
    split; [apply elem_of_categoryHits; eauto|]. rewrite He. reflexivity.
Qed.

(** X5: a fact just stored is returned by [getFactsByCategory] for its
    own category exactly when its confidence reaches the threshold. *)
Theorem X5_stored_fact_is_found_by_category
    (now now' : Z) (fact : LearnedFact) (related : list string) (minConfidence : Q)
    (b : MemoryBank) :
  reachable b ->
  fact ∈ (getFactsByCategory now' (f_category fact) minConfidence
            (storeFact now fact related b)).1
  <-> (minConfidence <= f_confidence fact)%Q.
Proof.
  intros Hb. pose proof (keys_ok_storeFact now fact related b (reachable_keys_ok b Hb)) as Hk.
  rewrite elem_of_getFactsByCategory. split.
  - intros (k & e & _ & He & Hc & Hf).
    pose proof (Hk _ _ He) as Hid. rewrite Hf in Hid. subst k.
    rewrite memory_storeFact, lookup_insert_eq in He. injection He as <-. exact Hc.
  - intros Hc. exists (f_id fact). eexists. split; [|split; [|split]].
    + unfold bucketOf, storeFact, updateIndexes. cbn [categoryIndex].
      destruct (addToIndex_new (f_category fact) (f_id fact) (categoryIndex b))
        as (s & -> & Hin). exact Hin.
    + rewrite memory_storeFact. apply lookup_insert_eq.
    + exact Hc.
    + reflexivity.
Qed.

(** A plan of confidence 0.7 is found at the default threshold 0.5. *)
Lemma X5_stored_fact_witness :
  reachable empty
  /\ planFact ∈ (getFactsByCategory 2000 "plans" 0.5%Q (storeFact 1000 planFact [] empty)).1.
Proof.
  assert (Hr : reachable empty) by constructor.
  split; [exact Hr|].
  apply (X5_stored_fact_is_found_by_category 1000 2000 planFact [] 0.5%Q empty Hr).
  vm_compute. discriminate.
Defined.

(** X6: [getFactsByCategory] returns, in descending order of confidence,
    the facts of the entries listed in the category's bucket whose entry
    confidence reaches the threshold; it touches exactly those entries
    (access count plus one, [lastAccessed] set) and changes nothing
    else; for a category without a bucket it returns nothing and
    leaves the entries as they are. *)
Theorem X6_getFactsByCategory_result_and_effect
    (now : Z) (category : string) (minConfidence : Q) (b : MemoryBank) :
  let facts := (getFactsByCategory now category minConfidence b).1 in
  let b' := (getFactsByCategory now category minConfidence b).2 in
  descending f_confidence facts
  /\ (forall fact, fact ∈ facts
        <-> exists k e, k ∈ bucketOf category b /\ memory b !! k = Some e
                        /\ (minConfidence <= e_confidence e)%Q /\ e_fact e = fact)
  /\ (forall k e, memory b !! k = Some e ->
        (k ∈ bucketOf category b /\ (minConfidence <= e_confidence e)%Q ->
         memory b' !! k = Some (touch now e))
        /\ (~ (k ∈ bucketOf category b /\ (minConfidence <= e_confidence e)%Q) ->
            memory b' !! k = Some e))
  /\ (forall k, memory b !! k = None -> memory b' !! k = None)
  /\ categoryIndex b' = categoryIndex b /\ timelineIndex b' = timelineIndex b
  /\ (categoryIndex b !! category = None -> facts = [] /\ memory b' = memory b).
Proof.
  intros facts b'. subst facts b'.
  split; [apply sortDescending_sorted|].
  split; [intros fact; apply elem_of_getFactsByCategory|].
  unfold getFactsByCategory. cbn [snd fst].
  split; [|split; [|split; [reflexivity|split; [reflexivity|]]]].
  - intros k e He. rewrite lookup_access_NoDup by apply NoDup_categoryHits. rewrite He.
    split.
    + intros [Hin Hc]. rewrite decide_True; [reflexivity|].
      apply elem_of_categoryHits. eauto.
    + intros Hn. rewrite decide_False; [reflexivity|].
      intros (Hin & e' & He' & Hc)%elem_of_categoryHits. apply Hn.
      assert (e' = e) as -> by congruence. auto.
  - intros k He. rewrite lookup_access_NoDup by apply NoDup_categoryHits. rewrite He.
    destruct (decide _); reflexivity.
  - intros Hnone. unfold categoryHits. rewrite Hnone. cbn [from_option].
    rewrite elements_empty. split; reflexivity.
Qed.

(** *** Recent facts and search *)

Lemma NoDup_filter_keys {V} (f : string * V -> bool) (m : gmap string V) :
  NoDup (List.filter f (map_to_list m)).*1.
Proof.
  pose proof (NoDup_fst_map_to_list m) as Hnd. revert Hnd.
  generalize (map_to_list m). intros l. induction l as [|[k v] l IH]; intros Hnd.
  - constructor.
  - cbn in Hnd. apply NoDup_cons in Hnd as [Hk Hnd]. cbn [List.filter].
    destruct (f (k, v)); [|exact (IH Hnd)].
    cbn. constructor; [|exact (IH Hnd)].
    intros Hin. apply Hk. apply list_elem_of_fmap in Hin as ([k' v'] & -> & Hin).
    apply list_elem_of_In, filter_In in Hin as [Hin _].
    apply list_elem_of_fmap. exists (k', v'). split; [reflexivity|apply list_elem_of_In; exact Hin].
Qed.

Lemma elem_of_filter_entries {V} (f : string * V -> bool) (m : gmap string V) k v :
  (k, v) ∈ List.filter f (map_to_list m) <-> m !! k = Some v /\ f (k, v) = true.
Proof.
  rewrite list_elem_of_In, filter_In, <- list_elem_of_In, elem_of_map_to_list. reflexivity.
Qed.

Lemma elem_of_filter_keys {V} (f : string * V -> bool) (m : gmap string V) k :
  k ∈ (List.filter f (map_to_list m)).*1 <-> exists v, m !! k = Some v /\ f (k, v) = true.
Proof.
  rewrite list_elem_of_fmap. split.
  - intros ([k' v] & -> & H). exists v. apply elem_of_filter_entries. exact H.
  - intros (v & H). exists (k, v). split; [reflexivity|]. apply elem_of_filter_entries. exact H.
Qed.

Lemma elem_of_filter_facts (f : string * MemoryEntry -> bool) (m : gmap string MemoryEntry) fact :
  fact ∈ e_fact <$> (List.filter f (map_to_list m)).*2
  <-> exists k e, m !! k = Some e /\ f (k, e) = true /\ e_fact e = fact.
Proof.
  rewrite list_elem_of_fmap. split.
  - intros (e & -> & He). apply list_elem_of_fmap in He as ([k e'] & -> & H).
    apply elem_of_filter_entries in H as [H1 H2]. eauto.
  - intros (k & e & H1 & H2 & <-). exists e. split; [reflexivity|].
    apply list_elem_of_fmap. exists (k, e). split; [reflexivity|].
    apply elem_of_filter_entries. auto.
Qed.

(** What a read does to the entries, given the test that selects them. *)
Lemma lookup_access_filter now (f : string * MemoryEntry -> bool) b k :
  memory (access now (List.filter f (map_to_list (memory b))).*1 b) !! k
  = match memory b !! k with
    | Some e => Some (if f (k, e) then touch now e else e)
    | None => None
    end.
Proof.
  rewrite lookup_access_NoDup by apply NoDup_filter_keys.
  destruct (memory b !! k) as [e|] eqn:E.
  - destruct (f (k, e)) eqn:Hf.
    + rewrite decide_True; [reflexivity|]. apply elem_of_filter_keys. eauto.
    + rewrite decide_False; [reflexivity|].
      intros (e' & He' & Hf')%elem_of_filter_keys.
      assert (e' = e) as -> by congruence. congruence.
  - destruct (decide _); reflexivity.
Qed.

Lemma recentCutoff_whole_hours now (hours : Z) :
  recentCutoff now (inject_Z hours)
  = if Js.validTime (now - hours * (60 * 60 * 1000))
    then Some (now - hours * (60 * 60 * 1000)) else None.
Proof. apply newDate_whole. Qed.

Lemma filter_none {A} (l : list A) : List.filter (fun _ => false) l = [].
Proof. induction l as [|x l IH]; [reflexivity|exact IH]. Qed.

(** X7: [getRecentFacts] returns its facts newest first.  When the
    cutoff, [hoursBack] hours before now, is a valid date, the facts
    returned are those whose timestamp is not before it, and the call
    touches exactly their entries and leaves the others as they are.
    When the cutoff is an Invalid Date no timestamp compares with it:
    nothing is returned and the bank is unchanged.  For a whole number
    of hours the cutoff is valid exactly when the time that many hours
    before now is at most 8 640 000 000 000 000 ms from the epoch, and
    it is that time. *)
Theorem X7_getRecentFacts_result_and_effect (now : Z) (hoursBack : Q) (b : MemoryBank) :
  let facts := (getRecentFacts now hoursBack b).1 in
  let b' := (getRecentFacts now hoursBack b).2 in
  descending (fun fact => inject_Z (f_timestamp fact)) facts
  /\ (forall cutoff, recentCutoff now hoursBack = Some cutoff ->
        (forall fact, fact ∈ facts
           <-> exists k e, memory b !! k = Some e /\ e_fact e = fact
                           /\ cutoff <= f_timestamp fact)
        /\ (forall k e, memory b !! k = Some e ->
              memory b' !! k
              = Some (if cutoff <=? f_timestamp (e_fact e) then touch now e else e)))
  /\ (recentCutoff now hoursBack = None -> facts = [] /\ b' = b)
  /\ (forall k, memory b !! k = None -> memory b' !! k = None)
  /\ (forall hours : Z,
        Z.abs now <= 8640000000000000 ->
        (Z.abs (now - hours * 3600000) <= 8640000000000000 ->
         recentCutoff now (inject_Z hours) = Some (now - hours * 3600000))
        /\ (8640000000000000 < Z.abs (now - hours * 3600000) ->
            recentCutoff now (inject_Z hours) = None)).
Proof.
  intros facts b'. subst facts b'. unfold getRecentFacts, recentHits. cbn [fst snd].
  split; [apply sortDescending_sorted|].
  split; [|split; [|split]].
  - intros cutoff ->. split.
    + intros fact. rewrite elem_of_sortDescending, elem_of_filter_facts. split.
      * intros (k & e & H1 & H2 & <-). cbn in H2. apply Z.leb_le in H2. eauto.
      * intros (k & e & H1 & <- & H2). exists k, e. split; [exact H1|].
        split; [cbn; apply Z.leb_le; exact H2|reflexivity].
    + intros k e He. rewrite lookup_access_filter, He. reflexivity.
  - intros ->. rewrite filter_none. split; [reflexivity|].
    destruct b; reflexivity.
  - intros k He. rewrite lookup_access_filter, He. reflexivity.
  - intros hours _. rewrite recentCutoff_whole_hours.
    change (60 * 60 * 1000) with 3600000.
    pose proof (validTime_spec (now - hours * 3600000)) as Hv.
    change Js.maxTime with 8640000000000000 in Hv.
    destruct (Js.validTime (now - hours * 3600000)).
    + split; [reflexivity|]. intros Hgt. pose proof (proj1 Hv eq_refl). lia.
    + split; [|reflexivity]. intros Hle. apply Hv in Hle. discriminate.
Qed.

Lemma includes_empty s : Js.includes s "" = true.
Proof. destruct s; reflexivity. Qed.

(** X8: [searchFacts] returns, in descending order of confidence, the
    facts whose entry confidence is not below the threshold and whose
    content contains one of the keywords, ignoring case; it touches
    exactly their entries.  Without keywords it finds nothing and
    changes nothing; an empty keyword matches every content. *)
Theorem X8_searchFacts_result_and_effect
    (now : Z) (keywords : list string) (minConfidence : Q) (b : MemoryBank) :
  let facts := (searchFacts now keywords minConfidence b).1 in
  let b' := (searchFacts now keywords minConfidence b).2 in
  descending f_confidence facts
  /\ (forall fact, fact ∈ facts
        <-> exists k e keyword,
              memory b !! k = Some e /\ e_fact e = fact
              /\ (minConfidence <= e_confidence e)%Q
              /\ keyword ∈ keywords
              /\ Js.includes (Js.toLowerCase (f_content fact)) (Js.toLowerCase keyword) = true)
  /\ (forall k e, memory b !! k = Some e ->
        memory b' !! k
        = Some (if negb (Num.ltb (e_confidence e) minConfidence)
                   && hasKeyword keywords (f_content (e_fact e))
                then touch now e else e))
  /\ (keywords = [] -> facts = [] /\ memory b' = memory b)
  /\ ("" ∈ keywords ->
      forall k e, memory b !! k = Some e -> (minConfidence <= e_confidence e)%Q ->
                  e_fact e ∈ facts).
Proof.
  intros facts b'.
  assert (Hmem : forall fact, fact ∈ facts
        <-> exists k e keyword,
              memory b !! k = Some e /\ e_fact e = fact
              /\ (minConfidence <= e_confidence e)%Q
              /\ keyword ∈ keywords
              /\ Js.includes (Js.toLowerCase (f_content fact)) (Js.toLowerCase keyword) = true).
  { intros fact. subst facts. unfold searchFacts, searchHits. cbn [fst].
    rewrite elem_of_sortDescending, elem_of_filter_facts. split.
    - intros (k & e & H1 & H2 & <-). cbn in H2. apply andb_true_iff in H2 as [Hc Hk].
      apply existsb_exists in Hk as (keyword & Hin & Hk).
      exists k, e, keyword. repeat split; try assumption.
      + apply Qnot_lt_le. intros Hlt. apply ltb_spec in Hlt. rewrite Hlt in Hc. discriminate.
      + apply list_elem_of_In. exact Hin.
    - intros (k & e & keyword & H1 & <- & Hc & Hin & Hk). exists k, e.
      split; [exact H1|]. split; [|reflexivity]. cbn. apply andb_true_iff. split.
      + apply negb_true_iff. destruct (Num.ltb (e_confidence e) minConfidence) eqn:E;
          [|reflexivity].
        apply ltb_spec in E. exfalso. exact (Qlt_not_le _ _ E Hc).
      + apply existsb_exists. exists keyword. split; [apply list_elem_of_In; exact Hin|exact Hk]. }
  split; [apply sortDescending_sorted|]. split; [exact Hmem|].
  split; [|split].
  - intros k e He. subst b'. unfold searchFacts, searchHits. cbn [snd].
    rewrite lookup_access_filter, He. reflexivity.
  - intros ->. subst facts b'. unfold searchFacts, searchHits, hasKeyword. cbn [existsb fst snd].
    assert (Hnil : List.filter
              (fun kv : string * MemoryEntry =>
                 negb (Num.ltb (e_confidence kv.2) minConfidence) && false)
              (map_to_list (memory b)) = []).
    { induction (map_to_list (memory b)) as [|kv l IH]; [reflexivity|].
      cbn [List.filter]. rewrite andb_false_r. exact IH. }
    rewrite Hnil. split; reflexivity.
  - intros Hempty k e He Hc. apply Hmem. exists k, e, "".
    repeat split; try assumption. apply includes_empty.
Qed.

(** *** Reads and cleanup *)

Lemma lookup_fold_alter_in {V} (f : V -> V) (ks : list string) (m : gmap string V) (k : string) :
  k ∈ ks ->
  exists n, fold_left (fun m' k' => alter f k' m') ks m !! k = Nat.iter (S n) f <$> m !! k.
Proof.
  revert m. induction ks as [|k' ks IH]; intros m Hin; [inversion Hin|].
  cbn [fold_left]. destruct (decide (k = k')) as [->|Hne].
  - destruct (lookup_fold_alter f ks (alter f k' m) k') as [n Hn]. exists n.
    rewrite Hn, lookup_alter_eq. destruct (m !! k'); [|reflexivity].
    cbn. f_equal. f_equal. symmetry. apply Nat.iter_succ_r.
  - apply elem_of_cons in Hin as [?|Hin]; [contradiction|].
    destruct (IH (alter f k' m) Hin) as [n Hn]. exists n.
    rewrite Hn, lookup_alter_ne by congruence. reflexivity.
Qed.

Lemma touch_iter_count now n e :
  e_accessCount (Nat.iter n (touch now) e) = (n + e_accessCount e)%nat.
Proof. induction n as [|n IH]; simpl; [reflexivity|]. rewrite IH. reflexivity. Qed.

Lemma access_protects now ids b k e now' minConfidence maxAge :
  memory b !! k = Some e -> k ∈ ids ->
  exists e', memory (cleanup now' minConfidence maxAge (access now ids b)) !! k = Some e'
             /\ e_fact e' = e_fact e /\ (0 < e_accessCount e')%nat.
Proof.
  intros He Hin. destruct (lookup_fold_alter_in (touch now) ids (memory b) k Hin) as [n Hn].
  rewrite He in Hn. cbn [fmap option_fmap option_map] in Hn.
  exists (Nat.iter (S n) (touch now) e). rewrite lookup_cleanup.
  unfold access at 1. cbn [memory]. rewrite Hn.
  assert (Hc : e_accessCount (Nat.iter (S n) (touch now) e) = (S n + e_accessCount e)%nat)
    by apply touch_iter_count.
  unfold shouldDelete. rewrite Hc. cbn [Nat.add Nat.eqb]. rewrite andb_false_r.
  split; [reflexivity|]. split; [apply touch_iter|lia].
Qed.

(** X9: a fact that a read method has just returned is not removed by
    the next cleanup, whatever the thresholds and however old or
    doubtful the fact: the read raised its access count above zero.
    This holds for [getFactsByCategory], [getRecentFacts] and
    [searchFacts] alike. *)
Theorem X9_returned_facts_survive_cleanup
    (now now' : Z) (minConfidence maxAge : Q) (b : MemoryBank) (k : string) (e : MemoryEntry) :
  memory b !! k = Some e ->
  (forall category threshold,
      k ∈ bucketOf category b -> (threshold <= e_confidence e)%Q ->
      exists e', memory (cleanup now' minConfidence maxAge
                           (getFactsByCategory now category threshold b).2) !! k = Some e'
                 /\ e_fact e' = e_fact e)
  /\ (forall hoursBack cutoff,
        recentCutoff now hoursBack = Some cutoff ->
        cutoff <= f_timestamp (e_fact e) ->
        exists e', memory (cleanup now' minConfidence maxAge
                             (getRecentFacts now hoursBack b).2) !! k = Some e'
                   /\ e_fact e' = e_fact e)
  /\ (forall keywords threshold keyword,
        (threshold <= e_confidence e)%Q -> keyword ∈ keywords ->
        Js.includes (Js.toLowerCase (f_content (e_fact e))) (Js.toLowerCase keyword) = true ->
        exists e', memory (cleanup now' minConfidence maxAge
                             (searchFacts now keywords threshold b).2) !! k = Some e'
                   /\ e_fact e' = e_fact e).
Proof.
  intros He. split; [|split].
  - intros category threshold Hin Hc. unfold getFactsByCategory. cbn [snd].
    destruct (access_protects now (categoryHits category threshold b) b k e now'
                minConfidence maxAge He) as (e' & H1 & H2 & _).
    { apply elem_of_categoryHits. eauto. }
    eauto.
  - intros hoursBack cutoff Hcut Hc. unfold getRecentFacts. cbn [snd].
    destruct (access_protects now (recentHits now hoursBack b).*1 b k e now'
                minConfidence maxAge He) as (e' & H1 & H2 & _).
    { apply elem_of_filter_keys. exists e. split; [exact He|]. cbn.
      rewrite Hcut. apply Z.leb_le. exact Hc. }
    eauto.
  - intros keywords threshold keyword Hc Hin Hk. unfold searchFacts. cbn [snd].
    destruct (access_protects now (searchHits keywords threshold b).*1 b k e now'
                minConfidence maxAge He) as (e' & H1 & H2 & _).
    { apply elem_of_filter_keys. exists e. split; [exact He|]. cbn.
      apply andb_true_iff. split.
      - apply negb_true_iff. destruct (Num.ltb (e_confidence e) threshold) eqn:E; [|reflexivity].
        apply ltb_spec in E. exfalso. exact (Qlt_not_le _ _ E Hc).
      - apply existsb_exists. exists keyword. split; [apply list_elem_of_In; exact Hin|exact Hk]. }
    eauto.
Qed.

(** The stale fact of the cleanup scenario is kept once it has been read. *)
Lemma X9_returned_facts_witness :
  let b := storeFact 1000 staleFact [] empty in
  memory (cleanup (100 * msPerDay) 0.3%Q 30%Q b) !! "fact_1_1" = None
  /\ is_Some (memory (cleanup (100 * msPerDay) 0.3%Q 30%Q
                        (getFactsByCategory 2000 "emotions" 0.1%Q b).2) !! "fact_1_1").
Proof.
  intros b. split; [vm_compute; reflexivity|].
  destruct (proj1 (X9_returned_facts_survive_cleanup 2000 (100 * msPerDay) 0.3%Q 30%Q b
                     "fact_1_1" (mkEntry staleFact 1000 0 true 0.2%Q []) eq_refl)
              "emotions" 0.1%Q) as (e' & H & _).
  - vm_compute. reflexivity.
  - vm_compute. discriminate.
  - exists e'. exact H.
Defined.

End BankReads.

(** ** Relevance, statistics and single-entry updates *)

Section BankQueries.

Import IntelligentMemoryBank.

(** X10: [getContextualFacts] returns at most [limit] facts, in
    descending order of relevance; each of them is the fact of a stored
    entry whose relevance score is above 0.5.  The call only touches
    entries: every entry keeps its fact, its confidence and its place,
    and with [limit = 0] nothing is returned and nothing changes. *)
Theorem X10_getContextualFacts_bounded_and_relevant
    (now : Z) (currentMessage : string) (categories : list string) (limit : nat)
    (b : MemoryBank) :
  let facts := (getContextualFacts now currentMessage categories limit b).1 in
  let b' := (getContextualFacts now currentMessage categories limit b).2 in
  let messageWords := Js.split Js.space (Js.toLowerCase currentMessage) in
  (length facts <= limit)%nat
  /\ (forall fact, fact ∈ facts ->
        exists k e, memory b !! k = Some e /\ e_fact e = fact
                    /\ (0.5 < relevanceScore now messageWords categories e)%Q)
  /\ (forall k, exists n, memory b' !! k = Nat.iter n (touch now) <$> memory b !! k)
  /\ (forall k e', memory b' !! k = Some e' ->
        exists e, memory b !! k = Some e /\ e_fact e' = e_fact e
                  /\ e_confidence e' = e_confidence e)
  /\ (limit = 0%nat -> facts = [] /\ memory b' = memory b).
Proof.
  intros facts b' messageWords. subst facts b'. unfold getContextualFacts. cbn [fst snd].
  split; [|split; [|split; [|split]]].
  - rewrite length_fmap, length_take. lia.
  - intros fact Hin. apply list_elem_of_fmap in Hin as ([fact' score] & -> & Hin).
    apply (fun H => elem_of_sublist _ _ _ H (sublist_take _ _)) in Hin.
    apply elem_of_sortDescending in Hin. unfold relevantFacts in Hin.
    apply list_elem_of_fmap in Hin as (e & [= -> ->] & He).
    apply list_elem_of_In, filter_In in He as [He Hs].
    apply list_elem_of_In, elem_of_values in He as [k Hk].
    exists k, e. split; [exact Hk|]. split; [reflexivity|].
    apply ltb_spec. exact Hs.
  - intros k. apply lookup_access.
  - intros k e' He'. destruct (lookup_access now
      (f_id <$> (take limit (sortDescending snd
                               (relevantFacts now currentMessage categories b))).*1) b k)
      as [n Hn].
    rewrite Hn in He'. destruct (memory b !! k) as [e|]; [|discriminate].
    injection He' as <-. exists e. split; [reflexivity|]. apply touch_iter.
  - intros ->. split; reflexivity.
Qed.

(** *** Statistics *)

Lemma countCategory_plain counts e :
  Js.inherited (f_category (e_fact e)) = false ->
  countCategory counts e
  = <[f_category (e_fact e) :=
        Counted (S (match counts !! f_category (e_fact e) with
                    | Some (Counted n) => n
                    | _ => 0%nat
                    end))]> counts.
Proof.
  intros Hi. unfold countCategory. cbv zeta. rewrite Hi.
  destruct (String.eqb_spec (f_category (e_fact e)) "__proto__") as [Hp|_]; [|reflexivity].
  rewrite Hp in Hi. discriminate.
Qed.

Lemma countCategory_lookup_ne counts e c :
  f_category (e_fact e) <> c -> countCategory counts e !! c = counts !! c.
Proof.
  intros Hne. unfold countCategory. cbv zeta.
  destruct (String.eqb _ "__proto__"); [reflexivity|].
  destruct (Js.inherited _); apply lookup_insert_ne; exact Hne.
Qed.

(** The slot of a category that names no inherited property, after a
    run of [countCategory]. *)
Lemma fold_countCategory_plain (entries : list MemoryEntry) (counts : gmap string Tally) c :
  Js.inherited c = false ->
  fold_left countCategory entries counts !! c
  = match length (List.filter (fun e => String.eqb (f_category (e_fact e)) c) entries) with
    | O => counts !! c
    | S n => Some (Counted (S n + match counts !! c with
                                  | Some (Counted m) => m
                                  | _ => 0%nat
                                  end))
    end.
Proof.
  intros Hi. revert counts. induction entries as [|e entries IH]; intros counts; [reflexivity|].
  cbn [fold_left List.filter]. rewrite IH.
  destruct (String.eqb_spec (f_category (e_fact e)) c) as [Hc|Hc].
  - rewrite countCategory_plain by (rewrite Hc; exact Hi). rewrite Hc, lookup_insert_eq.
    cbn [length]. destruct (length _) as [|n]; [reflexivity|].
    f_equal. f_equal. lia.
  - rewrite countCategory_lookup_ne by exact Hc. reflexivity.
Qed.

(** The slot of an inherited name other than ["__proto__"]: a string. *)
Lemma fold_countCategory_inherited (entries : list MemoryEntry) (counts : gmap string Tally) c :
  Js.inherited c = true -> c <> "__proto__" ->
  fold_left countCategory entries counts !! c
  = match length (List.filter (fun e => String.eqb (f_category (e_fact e)) c) entries) with
    | O => counts !! c
    | S n => Some (Garbled (S n + match counts !! c with
                                  | Some (Garbled m) => m
                                  | _ => 0%nat
                                  end))
    end.
Proof.
  intros Hi Hp. revert counts. induction entries as [|e entries IH]; intros counts; [reflexivity|].
  cbn [fold_left List.filter]. rewrite IH.
  destruct (String.eqb_spec (f_category (e_fact e)) c) as [Hc|Hc].
  - assert (Hstep : countCategory counts e !! c
                    = Some (Garbled (S (match counts !! c with
                                        | Some (Garbled m) => m
                                        | _ => 0%nat
                                        end)))).
    { unfold countCategory. cbv zeta. rewrite Hc, Hi.
      destruct (String.eqb_spec c "__proto__") as [?|_]; [contradiction|].
      apply lookup_insert_eq. }
    rewrite Hstep. cbn [length]. destruct (length _) as [|n]; [reflexivity|].
    f_equal. f_equal. lia.
  - rewrite countCategory_lookup_ne by exact Hc. reflexivity.
Qed.

(** The name ["__proto__"] never becomes a slot. *)
Lemma fold_countCategory_proto (entries : list MemoryEntry) (counts : gmap string Tally) :
  fold_left countCategory entries counts !! "__proto__" = counts !! "__proto__".
Proof.
  revert counts. induction entries as [|e entries IH]; intros counts; [reflexivity|].
  cbn [fold_left]. rewrite IH.
  destruct (String.eqb_spec (f_category (e_fact e)) "__proto__") as [Hc|Hc].
  - unfold countCategory. cbv zeta. rewrite Hc. reflexivity.
  - apply countCategory_lookup_ne. exact Hc.
Qed.

(** A category is listed exactly when some entry has it. *)
Lemma fold_countCategory_is_Some (entries : list MemoryEntry) (counts : gmap string Tally) c :
  Forall (fun e => Js.inherited (f_category (e_fact e)) = false) entries ->
  is_Some (fold_left countCategory entries counts !! c)
  <-> is_Some (counts !! c) \/ exists e, e ∈ entries /\ f_category (e_fact e) = c.
Proof.
  intros Hplain. revert counts.
  induction Hplain as [|e entries He _ IH]; intros counts; cbn [fold_left].
  - split; [auto|]. intros [H|(e & H & _)]; [exact H|inversion H].
  - rewrite IH, (countCategory_plain _ _ He), lookup_insert_is_Some. split.
    + intros [[H|[_ H]]|(e' & He' & Hc)].
      * right. exists e. split; [left|exact H].
      * left. exact H.
      * right. exists e'. split; [right; exact He'|exact Hc].
    + intros [H|(e' & He' & Hc)].
      * left. destruct (decide (f_category (e_fact e) = c)); [left; assumption|right; auto].
      * apply elem_of_cons in He' as [->|He']; [left; left; exact Hc|].
        right. exists e'. split; assumption.
Qed.

Lemma sumCounts_insert (counts : gmap string Tally) c t :
  sumCounts (<[c := t]> counts) = (numberOf t + sumCounts (delete c counts))%nat.
Proof.
  unfold sumCounts. rewrite <- insert_delete_eq.
  apply (map_fold_insert_L (fun _ t acc => (numberOf t + acc)%nat)).
  - intros. lia.
  - apply lookup_delete_eq.
Qed.

Lemma sumCounts_delete (counts : gmap string Tally) c :
  sumCounts counts
  = (match counts !! c with Some t => numberOf t | None => 0 end
     + sumCounts (delete c counts))%nat.
Proof.
  destruct (counts !! c) as [t|] eqn:E.
  - rewrite <- (insert_id counts c t E) at 1. apply sumCounts_insert.
  - rewrite delete_id by exact E. reflexivity.
Qed.

Lemma sumCounts_fold_countCategory (entries : list MemoryEntry) (counts : gmap string Tally) :
  Forall (fun e => Js.inherited (f_category (e_fact e)) = false) entries ->
  sumCounts (fold_left countCategory entries counts) = (length entries + sumCounts counts)%nat.
Proof.
  intros Hplain. revert counts.
  induction Hplain as [|e entries He _ IH]; intros counts; [reflexivity|].
  cbn [fold_left length]. rewrite IH, (countCategory_plain _ _ He).
  rewrite sumCounts_insert, (sumCounts_delete counts (f_category (e_fact e))).
  destruct (counts !! f_category (e_fact e)) as [[n|ones]|]; cbn [numberOf]; lia.
Qed.

Lemma exportKnowledge_is_Some_fold (entries : list MemoryEntry) (K : Knowledge) c :
  Forall (fun e => Js.inherited (f_category (e_fact e)) = false) entries ->
  is_Some (fold_left exportEntry entries K !! c)
  <-> is_Some (K !! c) \/ exists e, e ∈ entries /\ f_category (e_fact e) = c.
Proof.
  intros Hplain. revert K.
  induction Hplain as [|e entries He _ IH]; intros K; cbn [fold_left].
  - split; [auto|]. intros [H|(e & H & _)]; [exact H|inversion H].
  - rewrite IH.
    assert (Hstep : is_Some (exportEntry K e !! c)
                    <-> f_category (e_fact e) = c \/ is_Some (K !! c)).
    { unfold exportEntry. cbv zeta. rewrite He.
      destruct (String.eqb _ "__proto__"); rewrite lookup_insert_is_Some;
        destruct (decide (f_category (e_fact e) = c)); tauto. }
    rewrite Hstep. split.
    + intros [[H|H]|(e' & He' & Hc)].
      * right. exists e. split; [left|exact H].
      * left. exact H.
      * right. exists e'. split; [right; exact He'|exact Hc].
    + intros [H|(e' & He' & Hc)].
      * left. right. exact H.
      * apply elem_of_cons in He' as [->|He']; [left; left; exact Hc|].
        right. exists e'. split; assumption.
Qed.

Lemma plain_categories_entries b :
  plain_categories b ->
  Forall (fun e => Js.inherited (f_category (e_fact e)) = false) (map_to_list (memory b)).*2.
Proof.
  intros Hplain. apply Forall_forall. intros e [k He]%elem_of_values. exact (Hplain k e He).
Qed.

(** X11: [getMemoryStats] counts consistently: [totalFacts] is the number
    of entries, and the verified and recent counts never exceed it.  The
    slot of a category that names no property of [Object.prototype] is
    absent when no entry has the category and otherwise holds the number
    of its entries.  The slot of an inherited name never holds a number:
    it holds a string once an entry has that category, and "__proto__"
    never becomes a slot.  In a bank without such categories the counts
    add up to [totalFacts] and the categories listed are exactly those
    of [exportKnowledge].  For an empty bank the average confidence
    is 0. *)
Theorem X11_getMemoryStats_counts_are_consistent (now : Z) (b : MemoryBank) :
  let stats := getMemoryStats now b in
  totalFacts stats = size (memory b)
  /\ (forall c, Js.inherited c = false ->
        factsByCategory stats !! c
        = if (countOfCategory c b =? 0)%nat then None
          else Some (Counted (countOfCategory c b)))
  /\ (forall c, Js.inherited c = true ->
        factsByCategory stats !! c
        = if String.eqb c "__proto__" || (countOfCategory c b =? 0)%nat then None
          else Some (Garbled (countOfCategory c b)))
  /\ (plain_categories b ->
        sumCounts (factsByCategory stats) = totalFacts stats
        /\ forall c, is_Some (factsByCategory stats !! c) <-> is_Some (exportKnowledge b !! c))
  /\ (verifiedFacts stats <= totalFacts stats)%nat
  /\ (recentlyLearned stats <= totalFacts stats)%nat
  /\ (memory b = ∅ -> totalFacts stats = 0%nat /\ averageConfidence stats = 0%Q).
Proof.
  intros stats. subst stats. unfold getMemoryStats.
  cbn [totalFacts factsByCategory verifiedFacts recentlyLearned averageConfidence].
  assert (Hlen : length (map_to_list (memory b)).*2 = size (memory b)).
  { rewrite length_fmap. apply length_map_to_list. }
  split; [reflexivity|]. split; [|split; [|split; [|split; [|split]]]].
  - intros c Hi. rewrite (fold_countCategory_plain _ _ _ Hi), lookup_empty.
    unfold countOfCategory. destruct (length (List.filter _ _)) as [|n]; [reflexivity|].
    cbn [Nat.eqb]. f_equal. f_equal. lia.
  - intros c Hi. destruct (String.eqb_spec c "__proto__") as [->|Hp].
    + rewrite fold_countCategory_proto. apply lookup_empty.
    + rewrite (fold_countCategory_inherited _ _ _ Hi Hp), lookup_empty.
      unfold countOfCategory. cbn [orb].
      destruct (length (List.filter _ _)) as [|n]; [reflexivity|].
      cbn [Nat.eqb]. f_equal. f_equal. lia.
  - intros Hplain%plain_categories_entries. split.
    + rewrite (sumCounts_fold_countCategory _ _ Hplain), Hlen. unfold sumCounts.
      rewrite map_fold_empty. lia.
    + intros c. unfold exportKnowledge.
      rewrite (fold_countCategory_is_Some _ _ _ Hplain),
        (exportKnowledge_is_Some_fold _ _ _ Hplain), !lookup_empty.
      split; (intros [[? ?]|H]; [discriminate|right; exact H]).
  - rewrite <- Hlen. apply List.filter_length_le.
  - rewrite <- Hlen. apply List.filter_length_le.
  - intros ->. rewrite map_size_empty. split; reflexivity.
Qed.

End BankQueries.

(** ** Writes to the memory bank *)

Section BankWrites.

Import IntelligentMemoryBank.

Lemma clamp01_cases (x : Q) :
  ((x < 0)%Q -> clamp01 x = 0%Q)
  /\ ((0 <= x)%Q -> (x <= 1)%Q -> (clamp01 x == x)%Q)
  /\ ((1 < x)%Q -> clamp01 x = 1%Q).
Proof.
  unfold clamp01, Num.max, Num.min.
  destruct (Num.leb 1 x) eqn:E1.
  - apply leb_spec in E1. replace (Num.leb 0 1) with true by reflexivity.
    split; [intros; lra|]. split; [intros; lra|reflexivity].
  - apply leb_false in E1. destruct (Num.leb 0 x) eqn:E2.
    + apply leb_spec in E2. split; [intros; lra|]. split; [reflexivity|intros; lra].
    + apply leb_false in E2. split; [reflexivity|]. split; intros; lra.
Qed.

(** X12: [updateFactConfidence] leaves the bank as it is when the id is
    unknown.  For a stored id it rewrites that one entry: the confidence
    becomes the new value clamped to [0,1] (0 below, 1 above), the
    verified flag is the one given, the fact, the access count and the
    links stay; no other entry and no index changes. *)
Theorem X12_updateFactConfidence_clamps_one_entry
    (now : Z) (factId : string) (newConfidence : Q) (verified : bool) (b : MemoryBank) :
  let b' := updateFactConfidence now factId newConfidence verified b in
  (memory b !! factId = None -> b' = b)
  /\ (forall e, memory b !! factId = Some e ->
        exists e', memory b' !! factId = Some e'
                   /\ e_fact e' = e_fact e /\ e_accessCount e' = e_accessCount e
                   /\ e_relatedFacts e' = e_relatedFacts e /\ e_verified e' = verified
                   /\ (0 <= e_confidence e')%Q /\ (e_confidence e' <= 1)%Q
                   /\ ((newConfidence < 0)%Q -> e_confidence e' = 0%Q)
                   /\ ((0 <= newConfidence)%Q -> (newConfidence <= 1)%Q ->
                       (e_confidence e' == newConfidence)%Q)
                   /\ ((1 < newConfidence)%Q -> e_confidence e' = 1%Q))
  /\ (forall k, k <> factId -> memory b' !! k = memory b !! k)
  /\ categoryIndex b' = categoryIndex b /\ timelineIndex b' = timelineIndex b.
Proof.
  intros b'. subst b'. unfold updateFactConfidence.
  split; [|split; [|split]].
  - intros ->. reflexivity.
  - intros e ->. cbn [memory]. rewrite lookup_insert_eq. eexists. split; [reflexivity|].
    cbn. destruct (clamp01_in_unit_interval newConfidence) as [H0 H1].
    destruct (clamp01_cases newConfidence) as (Ha & Hb & Hc).
    repeat split; assumption.
  - intros k Hne. destruct (memory b !! factId); [|reflexivity].
    cbn [memory]. apply lookup_insert_ne. congruence.
  - destruct (memory b !! factId); split; reflexivity.
Qed.

(** Raising the stale fact of the cleanup scenario far above 1 stores 1. *)
Lemma X12_updateFactConfidence_witness :
  let b := storeFact 1000 staleFact [] empty in
  exists e', memory (updateFactConfidence 2000 "fact_1_1" 7%Q true b) !! "fact_1_1" = Some e'
             /\ e_confidence e' = 1%Q /\ e_verified e' = true.
Proof.
  intros b.
  destruct (proj1 (proj2 (X12_updateFactConfidence_clamps_one_entry
                            2000 "fact_1_1" 7%Q true b))
              (mkEntry staleFact 1000 0 true 0.2%Q []) eq_refl)
    as (e' & H & _ & _ & _ & Hv & _ & _ & _ & _ & H1).
  exists e'. split; [exact H|]. split; [apply H1; reflexivity|exact Hv].
Defined.

(** *** Buckets *)

Lemma addToIndex_nonempty `{Countable K} (k : K) (i : string) (index : gmap K (gset string)) :
  (forall c s, index !! c = Some s -> s <> ∅) ->
  forall c s, addToIndex k i index !! c = Some s -> s <> ∅.
Proof.
  intros Hidx c s. rewrite addToIndex_lookup. case_decide.
  - intros [= <-]. set_solver.
  - apply Hidx.
Qed.

Lemma removeFromIndex_nonempty `{Countable K} (k : K) (i : string)
    (index : gmap K (gset string)) :
  (forall c s, index !! c = Some s -> s <> ∅) ->
  forall c s, removeFromIndex k i index !! c = Some s -> s <> ∅.
Proof.
  intros Hidx c s. unfold removeFromIndex.
  destruct (index !! k) as [t|] eqn:E; [|apply Hidx].
  case_decide as Hsz.
  - intros [_ Hc]%lookup_delete_Some. exact (Hidx _ _ Hc).
  - intros [[<- <-]|[_ Hc]]%lookup_insert_Some; [|exact (Hidx _ _ Hc)].
    intros Hempty. apply Hsz. rewrite Hempty. apply size_empty.
Qed.

Lemma no_empty_bucket_storeFact now fact related b :
  no_empty_bucket b -> no_empty_bucket (storeFact now fact related b).
Proof.
  intros [Hc Ht]. split; unfold storeFact, updateIndexes; cbn [categoryIndex timelineIndex];
    apply addToIndex_nonempty; assumption.
Qed.

Lemma no_empty_bucket_updateFactConfidence now k c v b :
  no_empty_bucket b -> no_empty_bucket (updateFactConfidence now k c v b).
Proof. intros Hb. unfold updateFactConfidence. destruct (memory b !! k); exact Hb. Qed.

Lemma no_empty_bucket_deleteFact k b :
  no_empty_bucket b -> no_empty_bucket (deleteFact k b).
Proof.
  intros [Hc Ht]. unfold deleteFact. destruct (memory b !! k); [|split; assumption].
  split; cbn [categoryIndex timelineIndex]; apply removeFromIndex_nonempty; assumption.
Qed.

Lemma no_empty_bucket_runOp now op b : no_empty_bucket b -> no_empty_bucket (runOp now op b).
Proof.
  intros Hb. destruct op as [fact rel|k c v|ci choice|kn|mc ma|ids]; simpl.
  - apply no_empty_bucket_storeFact, Hb.
  - apply no_empty_bucket_updateFactConfidence, Hb.
  - destruct choice; unfold resolveConflict;
      repeat first [apply no_empty_bucket_storeFact
                   | apply no_empty_bucket_updateFactConfidence]; exact Hb.
  - apply importKnowledge_preserves; [exact Hb|].
    intros. apply no_empty_bucket_storeFact. assumption.
  - apply cleanup_preserves; [exact Hb|].
    intros. apply no_empty_bucket_deleteFact. assumption.
  - exact Hb.
Qed.

(** X13: in every state the bank can reach, each entry is filed under
    the id of its fact and is listed in the bucket of its category and
    in the bucket of its day, and no bucket of either index is empty
    (a bucket that loses its last id is dropped). *)
Theorem X13_entries_are_indexed_and_no_bucket_is_empty (b : MemoryBank) :
  reachable b ->
  (forall k e, memory b !! k = Some e ->
     f_id (e_fact e) = k
     /\ k ∈ default ∅ (categoryIndex b !! f_category (e_fact e))
     /\ k ∈ default ∅ (timelineIndex b !! toDateString (f_timestamp (e_fact e))))
  /\ (forall c s, categoryIndex b !! c = Some s -> s <> ∅)
  /\ (forall d s, timelineIndex b !! d = Some s -> s <> ∅).
Proof.
  intros Hb. split.
  - intros k e He. split; [exact (reachable_keys_ok b Hb k e He)|].
    destruct (reachable_index_complete b Hb k e He) as [(s & -> & Hs) (t & -> & Ht)].
    split; assumption.
  - change (no_empty_bucket b). induction Hb as [|now op b _ _ IH].
    + split; intros ? s H; unfold empty in H; cbn in H; rewrite lookup_empty in H; discriminate.
    + apply no_empty_bucket_runOp, IH.
Qed.

(** After the cleanup of the scenario the bucket of emotions is gone. *)
Lemma X13_buckets_witness :
  let b := runOp (100 * msPerDay) (OpCleanup 0.3%Q 30%Q)
             (runOp 1000 (OpStoreFact staleFact []) empty) in
  reachable b /\ categoryIndex b !! "emotions" = None
  /\ forall c s, categoryIndex b !! c = Some s -> s <> ∅.
Proof.
  intros b. assert (Hr : reachable b) by (repeat constructor).
  split; [exact Hr|]. split; [vm_compute; reflexivity|].
  exact (proj1 (proj2 (X13_entries_are_indexed_and_no_bucket_is_empty b Hr))).
Defined.

End BankWrites.

(** ** Exact indexes *)

Section ExactIndex.

Import IntelligentMemoryBank.

Context {K : Type} {EqK : EqDecision K} {CountK : Countable K} (keyOf : LearnedFact -> K).

(** One index against the entry map. *)
Let exact (index : gmap K (gset string)) (m : gmap string MemoryEntry) : Prop :=
  forall c k, k ∈ default ∅ (index !! c)
              <-> exists e, m !! k = Some e /\ keyOf (e_fact e) = c.

Lemma elem_of_addToIndex (c0 c : K) (k0 k : string) (index : gmap K (gset string)) :
  k ∈ default ∅ (addToIndex c0 k0 index !! c)
  <-> k ∈ default ∅ (index !! c) \/ (c = c0 /\ k = k0).
Proof.
  rewrite addToIndex_lookup. case_decide as Hc.
  - subst c. cbn [from_option]. unfold id.
    rewrite elem_of_union, elem_of_singleton. tauto.
  - split; [auto|]. intros [?|[? _]]; [assumption|congruence].
Qed.

Lemma elem_of_removeFromIndex (c0 c : K) (k0 k : string) (index : gmap K (gset string)) :
  k ∈ default ∅ (removeFromIndex c0 k0 index !! c)
  <-> k ∈ default ∅ (index !! c) /\ ~ (c = c0 /\ k = k0).
Proof.
  unfold removeFromIndex. destruct (index !! c0) as [s|] eqn:E.
  - case_decide as Hsz.
    + apply size_empty_inv in Hsz. destruct (decide (c = c0)) as [->|Hc].
      * rewrite lookup_delete_eq, E. cbn [from_option]. unfold id.
        rewrite elem_of_empty. split; [tauto|]. intros [Hk Hn].
        apply (proj1 (elem_of_empty (C := gset string) k)). apply Hsz.
        apply elem_of_difference. split; [exact Hk|].
        rewrite elem_of_singleton. tauto.
      * rewrite lookup_delete_ne by congruence. tauto.
    + destruct (decide (c = c0)) as [->|Hc].
      * rewrite lookup_insert_eq, E. cbn [from_option]. unfold id.
        rewrite elem_of_difference, elem_of_singleton. tauto.
      * rewrite lookup_insert_ne by congruence. tauto.
  - split; [|tauto]. intros Hk. split; [exact Hk|].
    intros [-> _]. rewrite E in Hk. cbn in Hk. apply elem_of_empty in Hk. destruct Hk.
Qed.

Lemma exact_store index m fact entry :
  e_fact entry = fact ->
  (forall e, m !! f_id fact = Some e -> keyOf (e_fact e) = keyOf fact) ->
  exact index m ->
  exact (addToIndex (keyOf fact) (f_id fact) index) (<[f_id fact := entry]> m).
Proof.
  intros Hf Hsame Hex c k. rewrite elem_of_addToIndex, (Hex c k). split.
  - intros [(e & He & Hc)|[-> ->]].
    + destruct (decide (k = f_id fact)) as [->|Hne].
      * exists entry. rewrite lookup_insert_eq. split; [reflexivity|].
        rewrite Hf, <- Hc. symmetry. apply Hsame, He.
      * exists e. rewrite lookup_insert_ne by congruence. auto.
    + exists entry. rewrite lookup_insert_eq, Hf. auto.
  - intros (e & He & Hc). apply lookup_insert_Some in He as [[<- <-]|[Hne He]].
    + right. rewrite Hf in Hc. auto.
    + left. eauto.
Qed.

Lemma exact_rewrite index m k0 e0 e0' :
  m !! k0 = Some e0 -> e_fact e0' = e_fact e0 ->
  exact index m -> exact index (<[k0 := e0']> m).
Proof.
  intros He0 Hf Hex c k. rewrite (Hex c k). split.
  - intros (e & He & Hc). destruct (decide (k = k0)) as [->|Hne].
    + exists e0'. rewrite lookup_insert_eq. split; [reflexivity|]. congruence.
    + exists e. rewrite lookup_insert_ne by congruence. auto.
  - intros (e & He & Hc). apply lookup_insert_Some in He as [[<- <-]|[Hne He]].
    + exists e0. split; [exact He0|]. congruence.
    + eauto.
Qed.

Lemma exact_delete index m k0 e0 :
  m !! k0 = Some e0 ->
  exact index m ->
  exact (removeFromIndex (keyOf (e_fact e0)) k0 index) (delete k0 m).
Proof.
  intros He0 Hex c k. rewrite elem_of_removeFromIndex, (Hex c k). split.
  - intros [(e & He & Hc) Hn]. exists e. split; [|exact Hc].
    apply lookup_delete_Some. split; [|exact He].
    intros <-. apply Hn. split; [|reflexivity]. congruence.
  - intros (e & [Hne He]%lookup_delete_Some & Hc). split; [eauto|].
    intros [_ ->]. congruence.
Qed.

Lemma exact_touched index (m m' : gmap string MemoryEntry) now :
  (forall k, exists n, m' !! k = Nat.iter n (touch now) <$> m !! k) ->
  exact index m -> exact index m'.
Proof.
  intros Hm Hex c k. rewrite (Hex c k). destruct (Hm k) as [n Hn]. rewrite Hn. split.
  - intros (e & -> & Hc). eexists. split; [reflexivity|].
    rewrite (proj1 (touch_iter now n e)). exact Hc.
  - intros (e' & He' & Hc). destruct (m !! k) as [e|]; [|discriminate].
    injection He' as <-. exists e. split; [reflexivity|].
    rewrite (proj1 (touch_iter now n e)) in Hc. exact Hc.
Qed.

End ExactIndex.

Section TidyBanks.

Import IntelligentMemoryBank.

Lemma index_exact_tidy b : tidy b -> index_exact b.
Proof.
  induction 1 as [|now fact related b _ IH Hsame|now factId c v b _ IH|factId b _ IH
                  |now ids b _ IH].
  - split; intros c k; unfold bucketOf, empty; cbn [categoryIndex timelineIndex memory];
      rewrite !lookup_empty; cbn [from_option];
      (split; [intros Hk; apply elem_of_empty in Hk; destruct Hk
              |intros (e & He & _); discriminate]).
  - destruct IH as [Hc Ht]. split.
    + apply (exact_store f_category); [reflexivity| |exact Hc].
      intros e He. apply (Hsame e He).
    + apply (exact_store (fun f => toDateString (f_timestamp f))); [reflexivity| |exact Ht].
      intros e He. apply (Hsame e He).
  - destruct IH as [Hc Ht]. unfold updateFactConfidence.
    destruct (memory b !! factId) as [e|] eqn:E; [|split; assumption].
    split; cbn [categoryIndex timelineIndex memory].
    + apply (exact_rewrite f_category _ _ _ e); [exact E|reflexivity|exact Hc].
    + apply (exact_rewrite (fun f => toDateString (f_timestamp f)) _ _ _ e);
        [exact E|reflexivity|exact Ht].
  - destruct IH as [Hc Ht]. unfold deleteFact.
    destruct (memory b !! factId) as [e|] eqn:E; [|split; assumption].
    split; cbn [categoryIndex timelineIndex memory].
    + apply (exact_delete f_category); [exact E|exact Hc].
    + apply (exact_delete (fun f => toDateString (f_timestamp f))); [exact E|exact Ht].
  - destruct IH as [Hc Ht]. split.
    + apply (exact_touched f_category _ (memory b) _ now); [apply lookup_access|exact Hc].
    + apply (exact_touched (fun f => toDateString (f_timestamp f)) _ (memory b) _ now);
        [apply lookup_access|exact Ht].
Qed.

Lemma tidy_cleanup now minConfidence maxAge b :
  tidy b -> tidy (cleanup now minConfidence maxAge b).
Proof.
  intros Hb. apply cleanup_preserves; [exact Hb|]. intros b' k Hb'. apply tidy_delete, Hb'.
Qed.

(** X14: as long as no id is stored again under another category or
    another day, the two indexes are exact: an id is in a bucket exactly
    when the bank holds an entry for it with that category (that day).
    So every indexed id has an entry, also after a cleanup, and
    [getFactsByCategory] returns only facts of the category asked for. *)
Theorem X14_indexes_are_exact_without_restoring (b : MemoryBank) :
  tidy b ->
  index_exact b
  /\ index_sound b
  /\ (forall now minConfidence maxAge,
        index_exact (cleanup now minConfidence maxAge b)
        /\ index_sound (cleanup now minConfidence maxAge b))
  /\ (forall now category minConfidence fact,
        fact ∈ (getFactsByCategory now category minConfidence b).1 ->
        f_category fact = category).
Proof.
  assert (Hsound : forall b0, index_exact b0 -> index_sound b0).
  { intros b0 [Hc Ht]. split.
    - intros c s i Hs Hi. destruct (proj1 (Hc c i)) as (e & He & _).
      + unfold bucketOf. rewrite Hs. exact Hi.
      + eexists. exact He.
    - intros d s i Hs Hi. destruct (proj1 (Ht d i)) as (e & He & _).
      + rewrite Hs. exact Hi.
      + eexists. exact He. }
  intros Hb. pose proof (index_exact_tidy b Hb) as Hex.
  split; [exact Hex|]. split; [exact (Hsound b Hex)|]. split.
  - intros now mc ma. pose proof (index_exact_tidy _ (tidy_cleanup now mc ma b Hb)) as H.
    split; [exact H|exact (Hsound _ H)].
  - intros now category mc fact Hin.
    apply elem_of_getFactsByCategory in Hin as (k & e & Hk & He & _ & <-).
    destruct (proj1 (proj1 Hex category k) Hk) as (e' & He' & Hc). congruence.
Qed.

(** The plan of the scenario stored once, then cleaned up. *)
Lemma X14_indexes_witness :
  tidy (storeFact 1000 planFact [] empty)
  /\ index_sound (cleanup (100 * msPerDay) 0.3%Q 30%Q (storeFact 1000 planFact [] empty)).
Proof.
  assert (Ht : tidy (storeFact 1000 planFact [] empty)).
  { apply tidy_store; [constructor|]. intros e He. vm_compute in He. discriminate. }
  split; [exact Ht|].
  apply (proj1 (proj2 (proj2 (X14_indexes_are_exact_without_restoring _ Ht)))).
Defined.

End TidyBanks.

(** ** Resolving conflicts *)

Section BankResolution.

Import IntelligentMemoryBank.

Lemma boosted_confidence (c : Q) :
  in_unit_interval (clamp01 (Num.min 1 (c + 0.2)))
  /\ ((0 <= c)%Q -> (c <= 1)%Q -> (c <= clamp01 (Num.min 1 (c + 0.2)))%Q)
  /\ ((-0.2 <= c)%Q -> (c <= 0.8)%Q ->
      (c + 0.2 - (1 # 1000000000000000) <= clamp01 (Num.min 1 (c + 0.2)))%Q
      /\ (clamp01 (Num.min 1 (c + 0.2)) <= c + 0.2 + (1 # 1000000000000000))%Q)
  /\ ((0.8 <= c)%Q -> (clamp01 (Num.min 1 (c + 0.2)) == 1)%Q).
Proof.
  split; [apply clamp01_in_unit_interval|].
  unfold Num.min. destruct (Num.leb 1 (c + 0.2)) eqn:E.
  - apply leb_spec in E. replace (clamp01 1) with 1%Q by reflexivity.
    split; [intros; lra|]. split; [intros; lra|reflexivity].
  - apply leb_false in E.
    pose proof (proj1 (proj2 (clamp01_cases (c + 0.2)))) as Hc.
    split; [intros H0 H1; rewrite Hc; lra|].
    split; [intros H0 H1; rewrite Hc; lra|intros; lra].
Qed.

(** X15: the two one-sided choices keep both facts and demote the
    loser.  With 'new' the stored existing fact drops to confidence 0.3,
    unverified, and the new fact is stored as it is, linked to the
    existing one; 0.3 is not below the default cleanup threshold, so a
    default cleanup never removes the demoted fact.  With 'existing' the
    stored fact is verified and its confidence is boosted: it lies in
    [0,1], is not below the conflict's recorded confidence when that
    lies in [0,1], is that confidence plus 0.2 up to the rounding of
    the addition (within 1/10^15), and is 1 from 0.8 on.  The new fact
    is stored with confidence 0.2, and a cleanup with the default
    threshold and a whole number of days, whose cutoff is a valid date,
    removes it exactly when its timestamp is older than the cutoff.  No
    other entry changes. *)
Theorem X15_one_sided_choices_keep_both_facts_and_demote_one
    (now : Z) (conflictInfo : ConflictInfo) (b : MemoryBank) (e : MemoryEntry) :
  let existingFact := c_existingFact conflictInfo in
  let newFact := c_newFact conflictInfo in
  f_id newFact <> f_id existingFact ->
  memory b !! f_id existingFact = Some e ->
  (let b' := resolveConflict now conflictInfo ChooseNew b in
   memory b' !! f_id existingFact
   = Some (mkEntry (e_fact e) now (e_accessCount e) false 0.3%Q (e_relatedFacts e))
   /\ memory b' !! f_id newFact
      = Some (mkEntry newFact now 0 (f_verified newFact) (f_confidence newFact)
                      [f_id existingFact])
   /\ (forall k, k <> f_id existingFact -> k <> f_id newFact ->
                 memory b' !! k = memory b !! k)
   /\ (forall now' maxAge,
         is_Some (memory (cleanup now' 0.3%Q maxAge b') !! f_id existingFact)))
  /\ (let b' := resolveConflict now conflictInfo ChooseExisting b in
      (exists e', memory b' !! f_id existingFact = Some e'
                  /\ e_fact e' = e_fact e /\ e_verified e' = true
                  /\ in_unit_interval (e_confidence e')
                  /\ ((0 <= f_confidence existingFact)%Q ->
                      (f_confidence existingFact <= 1)%Q ->
                      (f_confidence existingFact <= e_confidence e')%Q)
                  /\ ((-0.2 <= f_confidence existingFact)%Q ->
                      (f_confidence existingFact <= 0.8)%Q ->
                      (f_confidence existingFact + 0.2 - (1 # 1000000000000000)
                       <= e_confidence e')%Q
                      /\ (e_confidence e'
                          <= f_confidence existingFact + 0.2 + (1 # 1000000000000000))%Q)
                  /\ ((0.8 <= f_confidence existingFact)%Q -> (e_confidence e' == 1)%Q))
      /\ memory b' !! f_id newFact
         = Some (mkEntry (with_confidence newFact 0.2%Q) now 0 (f_verified newFact) 0.2%Q
                         [f_id existingFact])
      /\ (forall k, k <> f_id existingFact -> k <> f_id newFact ->
                    memory b' !! k = memory b !! k)
      /\ (forall now' (days : Z),
            Z.abs now' <= 8640000000000000 ->
            Z.abs (now' - days * 86400000) <= 8640000000000000 ->
            (memory (cleanup now' 0.3%Q (inject_Z days) b') !! f_id newFact = None
             <-> f_timestamp newFact < now' - days * 86400000))).
Proof.
  intros existingFact newFact Hne He. split.
  - intros b'. subst b'. unfold resolveConflict.
    assert (Hex : memory (storeFact now newFact [f_id existingFact]
                            (updateFactConfidence now (f_id existingFact) 0.3 false b))
                  !! f_id existingFact
                  = Some (mkEntry (e_fact e) now (e_accessCount e) false 0.3%Q
                                  (e_relatedFacts e))).
    { rewrite memory_storeFact, lookup_insert_ne by exact Hne.
      rewrite memory_updateFactConfidence. fold existingFact. rewrite He.
      rewrite lookup_insert_eq. reflexivity. }
    fold existingFact newFact. split; [exact Hex|]. split; [|split].
    + rewrite memory_storeFact, lookup_insert_eq. reflexivity.
    + intros k Hk1 Hk2. rewrite memory_storeFact, lookup_insert_ne by congruence.
      rewrite memory_updateFactConfidence, He. rewrite lookup_insert_ne by congruence.
      reflexivity.
    + intros now' maxAge. rewrite lookup_cleanup, Hex.
      replace (shouldDelete now' 0.3 maxAge _) with false; [eexists; reflexivity|].
      symmetry. unfold shouldDelete. cbn [e_confidence].
      replace (Num.ltb 0.3 0.3) with false by reflexivity. reflexivity.
  - intros b'. subst b'. unfold resolveConflict. fold existingFact newFact.
    split; [|split; [|split]].
    + eexists. split.
      * rewrite memory_storeFact. cbn [with_confidence f_id].
        rewrite lookup_insert_ne by exact Hne.
        rewrite memory_updateFactConfidence, He, lookup_insert_eq. reflexivity.
      * cbn [e_fact e_verified e_confidence].
        split; [reflexivity|]. split; [reflexivity|].
        apply boosted_confidence.
    + rewrite memory_storeFact. cbn [with_confidence f_id f_verified f_confidence].
      rewrite lookup_insert_eq. reflexivity.
    + intros k Hk1 Hk2. rewrite memory_storeFact. cbn [with_confidence f_id].
      rewrite lookup_insert_ne by congruence.
      rewrite memory_updateFactConfidence, He. rewrite lookup_insert_ne by congruence.
      reflexivity.
    + intros now' days _ Hvalid. rewrite lookup_cleanup, memory_storeFact.
      cbn [with_confidence f_id f_verified f_confidence].
      rewrite lookup_insert_eq.
      assert (Hcut : cutoffDate now' (inject_Z days) = Some (now' - days * 86400000)).
      { rewrite cutoffDate_whole_days. change msPerDay with 86400000.
        rewrite (proj2 (validTime_spec _) Hvalid). reflexivity. }
      destruct (shouldDelete now' 0.3 (inject_Z days) _) eqn:Hd.
      * apply shouldDelete_spec in Hd as (_ & (cutoff & Hc & Ht) & _).
        rewrite Hcut in Hc. injection Hc as <-. cbn in Ht. tauto.
      * split; [discriminate|]. intros Ht. exfalso.
        assert (shouldDelete now' 0.3 (inject_Z days)
                  (mkEntry (with_confidence newFact 0.2) now 0 (f_verified newFact) 0.2
                           [f_id existingFact]) = true) as Hd'.
        { apply shouldDelete_spec. cbn.
          split; [lra|]. split; [|reflexivity].
          exists (now' - days * 86400000). split; [exact Hcut|exact Ht]. }
        cbn [with_confidence] in Hd'. congruence.
Qed.

(** The spicy-food conflict of the scenario, resolved either way. *)
Lemma X15_one_sided_choices_witness :
  is_Some (memory (cleanup (400 * msPerDay) 0.3%Q 30%Q
                     (resolveConflict 5000 spicyConflict ChooseNew fourFacts))
           !! "fact_1000_1")
  /\ memory (cleanup (400 * msPerDay) 0.3%Q (inject_Z 30)
               (resolveConflict 5000 spicyConflict ChooseExisting fourFacts))
     !! "fact_2000_2" = None.
Proof.
  assert (Hne : f_id (c_newFact spicyConflict) <> f_id (c_existingFact spicyConflict))
    by (vm_compute; discriminate).
  assert (He : memory fourFacts !! f_id (c_existingFact spicyConflict)
               = Some (mkEntry loveFact 1000 0 true 0.8%Q []))
    by (vm_compute; reflexivity).
  pose proof (X15_one_sided_choices_keep_both_facts_and_demote_one
                5000 spicyConflict fourFacts _ Hne He) as [Hnew Hex].
  split.
  - apply (proj2 (proj2 (proj2 Hnew))).
  - apply (proj2 (proj2 (proj2 Hex)) (400 * msPerDay) 30);
      [vm_compute; discriminate|vm_compute; discriminate|vm_compute; reflexivity].
Defined.

(** X16: no choice ever removes a fact from the bank.  A merge whose id
    [merged_<now>] is still free adds exactly one fact and changes no
    other entry: its content is the existing content and the new content
    joined by "; ", its category is the new fact's, it is verified and
    linked to both ancestors, which both stay stored as they were.  For
    two confidences in [0,1] its confidence lies between them, and is
    their mean up to the rounding of the addition (within 1/10^15). *)
Theorem X16_merge_adds_one_fact_and_no_choice_removes_any
    (now : Z) (conflictInfo : ConflictInfo) (b : MemoryBank) :
  (forall choice k, is_Some (memory b !! k) ->
                    is_Some (memory (resolveConflict now conflictInfo choice b) !! k))
  /\ (memory b !! ("merged_" ++ pretty now) = None ->
      let existingFact := c_existingFact conflictInfo in
      let newFact := c_newFact conflictInfo in
      let b' := resolveConflict now conflictInfo ChooseMerge b in
      (exists entry,
          memory b' !! ("merged_" ++ pretty now) = Some entry
          /\ f_content (e_fact entry) = f_content existingFact ++ "; " ++ f_content newFact
          /\ f_category (e_fact entry) = f_category newFact
          /\ (in_unit_interval (f_confidence existingFact) ->
              in_unit_interval (f_confidence newFact) ->
              ((f_confidence existingFact <= f_confidence newFact)%Q ->
               (f_confidence existingFact <= e_confidence entry)%Q
               /\ (e_confidence entry <= f_confidence newFact)%Q)
              /\ ((f_confidence newFact <= f_confidence existingFact)%Q ->
                  (f_confidence newFact <= e_confidence entry)%Q
                  /\ (e_confidence entry <= f_confidence existingFact)%Q)
              /\ ((f_confidence existingFact + f_confidence newFact) / 2
                  - (1 # 1000000000000000) <= e_confidence entry)%Q
              /\ (e_confidence entry
                  <= (f_confidence existingFact + f_confidence newFact) / 2
                     + (1 # 1000000000000000))%Q)
          /\ e_verified entry = true
          /\ e_accessCount entry = 0%nat
          /\ e_relatedFacts entry = [f_id existingFact; f_id newFact])
      /\ size (memory b') = S (size (memory b))
      /\ (forall k e, memory b !! k = Some e -> memory b' !! k = Some e)).
Proof.
  split.
  - intros choice k. apply resolveConflict_keeps_ids.
  - intros Hfresh existingFact newFact b'.
    destruct (merge_with_fresh_id now conflictInfo b Hfresh) as (_ & Hsize & Hkeep).
    split; [|split; [exact Hsize|exact Hkeep]].
    eexists. split.
    + subst b'. unfold resolveConflict. rewrite memory_storeFact.
      cbn [mergedFact f_id]. rewrite lookup_insert_eq. reflexivity.
    + cbn [e_fact e_confidence e_verified e_accessCount e_relatedFacts mergedFact
           f_content f_category f_confidence].
      split; [reflexivity|]. split; [reflexivity|]. split; [|repeat split; reflexivity].
      intros _ _. unfold existingFact, newFact.
      set (a := f_confidence (c_existingFact conflictInfo)).
      set (c := f_confidence (c_newFact conflictInfo)).
      assert (Hmean : ((a + c) / 2 == (a + c) * (1 # 2))%Q) by (unfold Qdiv; reflexivity).
      rewrite !Hmean. repeat split; intros; lra.
Qed.

(** The first merge of the scenario. *)
Lemma X16_merge_witness :
  size (memory (resolveConflict 5000 spicyConflict ChooseMerge fourFacts)) = 5%nat.
Proof.
  apply (proj2 (X16_merge_adds_one_fact_and_no_choice_removes_any 5000 spicyConflict fourFacts)).
  vm_compute. reflexivity.
Defined.

End BankResolution.

(** ** Confidence range and cleanup *)

Section BankHygiene.

Import IntelligentMemoryBank.

Lemma sum_of_confidences (entries : list MemoryEntry) (acc : Q) :
  Forall (fun entry => in_unit_interval (e_confidence entry)) entries ->
  let total := fold_left (fun acc entry => (acc + e_confidence entry)%Q) entries acc in
  (acc <= total)%Q /\ (total <= acc + inject_Z (Z.of_nat (length entries)))%Q.
Proof.
  intros Hall. revert acc. induction Hall as [|e entries [H0 H1] _ IH]; intros acc.
  - cbn [fold_left length]. cbv zeta. change (inject_Z (Z.of_nat 0)) with 0%Q. split; lra.
  - cbn [fold_left length]. destruct (IH (acc + e_confidence e)%Q) as [IH0 IH1].
    cbv zeta in *. rewrite Nat2Z.inj_succ. unfold Z.succ. rewrite inject_Z_plus.
    change (inject_Z 1) with 1%Q. unfold in_unit_interval in *.
    set (total := fold_left _ entries _) in *.
    set (n := inject_Z (Z.of_nat (length entries))) in *.
    split; lra.
Qed.

(** X17: as long as every fact handed to [storeFact] and every fact of a
    resolved conflict carries a confidence in [0,1], every stored entry
    has a confidence in [0,1], whatever else was called, and so has the
    average that [getMemoryStats] reports. *)
Theorem X17_confident_inputs_keep_every_confidence_in_range (now : Z) (b : MemoryBank) :
  reachable_by confident_input b ->
  (forall k e, memory b !! k = Some e -> (0 <= e_confidence e)%Q /\ (e_confidence e <= 1)%Q)
  /\ (0 <= averageConfidence (getMemoryStats now b))%Q
  /\ (averageConfidence (getMemoryStats now b) <= 1)%Q.
Proof.
  intros Hb. pose proof (confident_inputs_keep_confidences b Hb) as Hc.
  split; [exact Hc|].
  unfold getMemoryStats. cbv zeta. cbn [averageConfidence].
  destruct (0 <? size (memory b))%nat eqn:Hsz; [|split; lra].
  apply Nat.ltb_lt in Hsz.
  assert (Hall : Forall (fun entry => in_unit_interval (e_confidence entry))
                        (map_to_list (memory b)).*2).
  { apply Forall_forall. intros e (k & He)%elem_of_values. exact (Hc _ _ He). }
  destruct (sum_of_confidences _ 0%Q Hall) as [H0 H1]. cbv zeta in H0, H1.
  rewrite length_fmap, length_map_to_list in H1.
  assert (Hpos : (0 < inject_Z (Z.of_nat (size (memory b))))%Q).
  { replace 0%Q with (inject_Z 0) by reflexivity. rewrite <- Zlt_Qlt. lia. }
  split.
  - apply Qle_shift_div_l; [exact Hpos|]. lra.
  - apply Qle_shift_div_r; [exact Hpos|]. lra.
Qed.

(** Two facts of the scenario, the second read once. *)
Lemma X17_confidence_witness :
  let b := runOp 3000 (OpAccess ["fact_1_1"])
             (runOp 2000 (OpStoreFact staleFact ["a"])
                (runOp 1000 (OpStoreFact planFact []) empty)) in
  reachable_by confident_input b
  /\ (averageConfidence (getMemoryStats 4000 b) <= 1)%Q.
Proof.
  intros b.
  assert (Hb : reachable_by confident_input b).
  { repeat constructor; cbn; lra. }
  split; [exact Hb|].
  exact (proj2 (proj2 (X17_confident_inputs_keep_every_confidence_in_range 4000 b Hb))).
Defined.

Lemma size_fold_delete {V} (ks : list string) (m : gmap string V) :
  NoDup ks -> (forall k, k ∈ ks -> is_Some (m !! k)) ->
  (size (fold_left (fun m' k => delete k m') ks m) + length ks = size m)%nat.
Proof.
  intros Hnd. revert m. induction Hnd as [|k ks Hk _ IH]; intros m Hin.
  - cbn. lia.
  - cbn [fold_left length]. rewrite Nat.add_succ_r, IH.
    + rewrite map_size_delete_Some by (apply Hin; left).
      destruct (Hin k) as [v Hv]; [left|].
      assert (size m <> 0)%nat; [|lia].
      intros Hz. apply map_size_empty_inv in Hz. subst m.
      rewrite lookup_empty in Hv. discriminate.
    + intros k' Hk'. rewrite lookup_delete_ne by (intros ->; contradiction).
      apply Hin. right. exact Hk'.
Qed.

(** X18: [cleanup] removes as many entries as it reports, and a second
    cleanup of the same instant and thresholds finds nothing left to
    delete and leaves the bank, indexes included, as the first one left
    it.  Entries that stay keep every field. *)
Theorem X18_cleanup_removes_what_it_counts_and_is_idempotent
    (now : Z) (minConfidence maxAge : Q) (b : MemoryBank) :
  let b' := cleanup now minConfidence maxAge b in
  (size (memory b') + length (toDelete now minConfidence maxAge b) = size (memory b))%nat
  /\ toDelete now minConfidence maxAge b' = []
  /\ cleanup now minConfidence maxAge b' = b'
  /\ (forall k e, memory b' !! k = Some e -> memory b !! k = Some e).
Proof.
  intros b'.
  assert (Hnone : toDelete now minConfidence maxAge b' = []).
  { destruct (toDelete now minConfidence maxAge b') as [|k ks] eqn:E; [reflexivity|].
    assert (Hk : k ∈ toDelete now minConfidence maxAge b') by (rewrite E; left).
    apply elem_of_toDelete in Hk as (e & He & Hd).
    subst b'. rewrite lookup_cleanup in He.
    destruct (memory b !! k) as [e0|]; [|discriminate].
    destruct (shouldDelete now minConfidence maxAge e0) eqn:Hd0; [discriminate|].
    congruence. }
  split; [|split; [exact Hnone|split]].
  - subst b'. unfold cleanup. rewrite memory_fold_deleteFact.
    apply size_fold_delete.
    + apply NoDup_filter_keys.
    + intros k (e & He & _)%elem_of_toDelete. eexists. exact He.
  - unfold cleanup at 1. rewrite Hnone. reflexivity.
  - intros k e. subst b'. rewrite lookup_cleanup.
    destruct (memory b !! k) as [e0|]; [|discriminate].
    destruct (shouldDelete now minConfidence maxAge e0); [discriminate|]. auto.
Qed.

End BankHygiene.

(** ** Bookkeeping of the conflict resolver *)

Section Bookkeeping.

Import ConflictResolver ContextualResponseEngine.

Lemma fold_left_preserves_in {A B} (P : A -> Prop) (f : A -> B -> A) (l : list B) (a : A) :
  P a -> (forall a' x, x ∈ l -> P a' -> P (f a' x)) -> P (fold_left f l a).
Proof.
  revert a. induction l as [|x l IH]; intros a Ha Hf; [exact Ha|].
  cbn [fold_left]. apply IH.
  - apply Hf; [left|exact Ha].
  - intros a' y Hy. apply Hf. right. exact Hy.
Qed.

Lemma checkEmotionGroups_id cid nf ef nc ec groups c :
  checkEmotionGroups cid nf ef nc ec groups = Some c -> c_conflictId c = cid.
Proof.
  induction groups as [|[positive negative] groups IH]; simpl; [discriminate|].
  intros H. split_tests H; [|exact (IH H)]. injection H as <-. reflexivity.
Qed.

Lemma analyzeFactConflict_id now counter nf content key c :
  analyzeFactConflict now counter nf content key = Some c ->
  c_conflictId c = generateConflictId now counter.
Proof.
  unfold analyzeFactConflict, first_some. intros H.
  destruct (checkContradiction _ nf _) as [c1|] eqn:E1.
  { injection H as <-. unfold checkContradiction in E1.
    destruct (if String.eqb (f_category nf) "emotions" then _ else None) as [c'|] eqn:E.
    - injection E1 as <-. destruct (String.eqb (f_category nf) "emotions"); [|discriminate E].
      eapply checkEmotionGroups_id. exact E.
    - clear E. split_tests E1.
      + injection E1 as <-. reflexivity.
      + unfold checkPreference in E1. split_tests E1. injection E1 as <-. reflexivity. }
  destruct (checkTemporalConflict _ nf _) as [c2|] eqn:E2.
  { injection H as <-. unfold checkTemporalConflict in E2. split_tests E2.
    injection E2 as <-. reflexivity. }
  destruct (checkInconsistency _ nf _) as [c3|] eqn:E3.
  { injection H as <-. unfold checkInconsistency in E3. split_tests E3.
    injection E3 as <-. reflexivity. }
  unfold checkAmbiguity in H. split_tests H. injection H as <-. reflexivity.
Qed.

Lemma analyzeFactConflict_kind now counter nf content key c :
  analyzeFactConflict now counter nf content key = Some c -> reported_kind c.
Proof.
  unfold analyzeFactConflict, first_some. intros H.
  destruct (checkContradiction _ nf _) as [c1|] eqn:E1.
  { injection H as <-. left. unfold checkContradiction in E1.
    destruct (if String.eqb (f_category nf) "emotions" then _ else None) as [c'|] eqn:E.
    - injection E1 as <-. destruct (String.eqb (f_category nf) "emotions"); [|discriminate E].
      apply checkEmotionGroups_shape in E as (_ & _ & -> & -> & _). auto.
    - clear E. split_tests E1.
      + injection E1 as <-. auto.
      + apply checkPreference_shape in E1 as (_ & _ & -> & -> & _). auto. }
  destruct (checkTemporalConflict _ nf _) as [c2|] eqn:E2.
  { injection H as <-. right. left.
    apply checkTemporalConflict_shape in E2 as (_ & _ & -> & -> & _). auto. }
  rewrite (proj2 (checkInconsistency_mock now _ nf content key)) in H.
  right. right. pose proof H as H'.
  apply checkAmbiguity_shape in H as (-> & _ & -> & -> & _).
  unfold checkAmbiguity in H'. destruct (f_verified nf); [|auto].
  rewrite andb_false_r in H'. discriminate.
Qed.

Lemma conflictIds_snoc now counter n :
  conflictIds now counter (S n)
  = (conflictIds now counter n ++ [generateConflictId now (counter + n)])%list.
Proof. unfold conflictIds. rewrite seq_S, fmap_app. reflexivity. Qed.

Lemma generateConflictId_inj now : Inj eq eq (generateConflictId now).
Proof.
  intros n m H. unfold generateConflictId in H.
  do 3 apply String.app_inj in H. apply pretty_nat_inj in H. congruence.
Qed.

Lemma NoDup_conflictIds now counter n : NoDup (conflictIds now counter n).
Proof.
  unfold conflictIds. apply NoDup_fmap_2; [|apply NoDup_seq].
  intros i j H. apply generateConflictId_inj in H. lia.
Qed.

Lemma visit_bookkeeping now counter newFacts existingFacts nf acc kv :
  nf ∈ newFacts ->
  klookup existingFacts (f_category nf) kv.1 = Some kv.2 ->
  bookkeeping now counter newFacts existingFacts acc ->
  bookkeeping now counter newFacts existingFacts (visit now nf acc kv).
Proof.
  intros Hnf Hkv (Hatt & Hcnt & Hids & Hall). unfold visit.
  destruct (analyzeFactConflict now (a_counter acc) nf kv.2 kv.1) as [c|] eqn:E;
    [|repeat split; assumption].
  pose proof (analyzeFactConflict_id _ _ _ _ _ _ E) as Hid.
  apply analyzeFactConflict_shape in E as (Hn & He & _ & _).
  unfold bookkeeping. cbn [a_attention a_conflicts a_counter].
  rewrite List.filter_app, length_app. cbn [List.filter length].
  fold (isHighPriority c). split; [|split; [|split]].
  - rewrite Hatt. destruct (isHighPriority c); [reflexivity|]. rewrite app_nil_r. reflexivity.
  - lia.
  - rewrite fmap_app, Hids, Nat.add_1_r, conflictIds_snoc. cbn. rewrite Hid, Hcnt.
    reflexivity.
  - apply Forall_app. split; [exact Hall|]. constructor; [|constructor].
    split; [rewrite Hn; exact Hnf|]. exists kv.1, kv.2. rewrite Hn. split; assumption.
Qed.

Lemma detectConflicts_bookkeeping now counter newFacts existingFacts :
  bookkeeping now counter newFacts existingFacts
    (fold_left (visitFact now existingFacts) newFacts (mkAcc [] [] [] counter)).
Proof.
  apply fold_left_preserves_in.
  - unfold bookkeeping. cbn. repeat split; [lia|constructor].
  - intros acc nf Hnf Hacc. unfold visitFact.
    apply fold_left_preserves_in; [exact Hacc|].
    intros acc' [key content] Hkv Hacc'. apply visit_bookkeeping; [exact Hnf| |exact Hacc'].
    unfold categoryFacts in Hkv. apply elem_of_map_to_list in Hkv. exact Hkv.
Qed.

(** X19: the result of [detectConflicts] is consistent with itself,
    whatever the inputs.  [hasConflicts] says whether a conflict was
    found; [needsImmediateAttention] lists, in order, the conflicts of
    high severity or of type contradiction; the counter advances by one
    per conflict and the conflict ids, [conflict_<now>_<n>] with
    consecutive [n], are pairwise distinct; each conflict pairs one of
    the new facts with an entry that the snapshot holds under that
    fact's category.  An empty snapshot or no new fact gives no
    conflict. *)
Theorem X19_detectConflicts_keeps_consistent_books
    (now : Z) (conflictCounter : nat) (newFacts : list LearnedFact) (existingFacts : Knowledge) :
  let result := (detectConflicts now conflictCounter newFacts existingFacts).1 in
  let counter' := (detectConflicts now conflictCounter newFacts existingFacts).2 in
  (hasConflicts result = true <-> conflicts result <> [])
  /\ needsImmediateAttention result = List.filter isHighPriority (conflicts result)
  /\ counter' = (conflictCounter + length (conflicts result))%nat
  /\ c_conflictId <$> conflicts result
     = conflictIds now conflictCounter (length (conflicts result))
  /\ NoDup (c_conflictId <$> conflicts result)
  /\ Forall (from_snapshot now newFacts existingFacts) (conflicts result)
  /\ (existingFacts = ∅ \/ newFacts = [] -> conflicts result = []).
Proof.
  intros result counter'.
  destruct (detectConflicts_bookkeeping now conflictCounter newFacts existingFacts)
    as (Hatt & Hcnt & Hids & Hall).
  subst result counter'. unfold detectConflicts. cbv zeta.
  cbn [fst snd conflicts hasConflicts needsImmediateAttention].
  set (acc := fold_left _ newFacts _) in *.
  split; [|split; [exact Hatt|split; [exact Hcnt|split; [exact Hids|split; [|split]]]]].
  - rewrite Nat.ltb_lt. destruct (a_conflicts acc); cbn; split; try lia; congruence.
  - rewrite Hids. apply NoDup_conflictIds.
  - exact Hall.
  - intros Hempty. destruct (a_conflicts acc) as [|c cs]; [reflexivity|]. exfalso.
    apply Forall_cons in Hall as [(Hin & key & content & Hk & _) _].
    destruct Hempty as [-> | ->].
    + unfold klookup in Hk. rewrite lookup_empty in Hk. cbn in Hk.
      rewrite lookup_empty in Hk. discriminate.
    + inversion Hin.
Qed.

(** X20: the conflicts that [detectConflicts] reports are contradictions
    (high or medium), temporal conflicts (medium) and ambiguities (low,
    and only for an unverified new fact).  So the conflicts singled out
    for immediate attention, the ones the server hands to the response
    engine, are exactly the contradictions; a temporal conflict is never
    among them.  On that list the engine appends nothing when it is
    empty and otherwise the first question after "Wait bestie, "; the
    "By the way, " branch is not reached. *)
Theorem X20_only_contradictions_reach_the_response
    (now : Z) (conflictCounter : nat) (newFacts : list LearnedFact) (existingFacts : Knowledge)
    (response : string) :
  let result := (detectConflicts now conflictCounter newFacts existingFacts).1 in
  Forall reported_kind (conflicts result)
  /\ needsImmediateAttention result
     = List.filter (fun c => ConflictType_eqb (c_conflictType c) Contradiction) (conflicts result)
  /\ Forall (fun c => c_conflictType c = Contradiction) (needsImmediateAttention result)
  /\ integrateConflictClarification response (needsImmediateAttention result)
     = match needsImmediateAttention result with
       | [] => response
       | conflict :: _ =>
           response ++ newline ++ newline ++ "Wait bestie, " ++ c_clarificationQuestion conflict
       end
  /\ (Forall (fun fact => f_verified fact = true) newFacts ->
      Forall (fun c => c_conflictType c <> Ambiguity) (conflicts result)).
Proof.
  intros result.
  assert (Hkind : Forall reported_kind (conflicts result)).
  { subst result. unfold detectConflicts. cbv zeta. cbn [fst conflicts].
    apply (fold_left_preserves (fun acc => Forall reported_kind (a_conflicts acc)));
      [constructor|].
    intros acc nf Hacc. unfold visitFact. apply fold_left_preserves; [exact Hacc|].
    intros acc' kv Hacc'. unfold visit.
    destruct (analyzeFactConflict now (a_counter acc') nf kv.2 kv.1) as [c|] eqn:E;
      [|exact Hacc'].
    cbn [a_conflicts]. apply Forall_app. split; [exact Hacc'|].
    constructor; [|constructor]. eapply analyzeFactConflict_kind. exact E. }
  destruct (detectConflicts_bookkeeping now conflictCounter newFacts existingFacts)
    as (Hatt & _ & _ & Hall).
  assert (Hfilter : needsImmediateAttention result
                    = List.filter (fun c => ConflictType_eqb (c_conflictType c) Contradiction)
                        (conflicts result)).
  { subst result. unfold detectConflicts in *. cbv zeta in *.
    cbn [fst conflicts needsImmediateAttention] in *. rewrite Hatt.
    apply List.filter_ext_in. intros c Hc. apply list_elem_of_In in Hc.
    apply (proj1 (Forall_forall _ _) Hkind) in Hc.
    unfold isHighPriority.
    destruct Hc as [[-> _]|[[-> ->]|(-> & -> & _)]];
      [cbn; apply orb_true_r|reflexivity|reflexivity]. }
  assert (Hcontra : Forall (fun c => c_conflictType c = Contradiction)
                           (needsImmediateAttention result)).
  { rewrite Hfilter. apply Forall_forall. intros c Hc.
    apply list_elem_of_In, filter_In in Hc as [_ Hc].
    destruct (c_conflictType c); try discriminate. reflexivity. }
  split; [exact Hkind|]. split; [exact Hfilter|]. split; [exact Hcontra|]. split.
  - unfold integrateConflictClarification.
    destruct (needsImmediateAttention result) as [|c cs]; [reflexivity|].
    apply Forall_cons in Hcontra as [Hc _]. cbn [List.filter].
    unfold isHighPriority at 1. rewrite Hc, orb_true_r. reflexivity.
  - intros Hver.
    assert (Hboth : Forall (fun c => reported_kind c
                                     /\ from_snapshot now newFacts existingFacts c)
                           (conflicts result)).
    { apply Forall_and. split; [exact Hkind|]. subst result. unfold detectConflicts.
      cbv zeta. cbn [fst conflicts]. exact Hall. }
    eapply Forall_impl; [exact Hboth|].
    cbn beta. intros c [Hk (Hin & _)].
    destruct Hk as [[-> _]|[[-> _]|(_ & _ & Hv)]]; try discriminate.
    apply (proj1 (Forall_forall _ _) Hver) in Hin. congruence.
Qed.

(** X21: the resolver's [generateClarificationResponse] and the response
    engine's [integrateConflictClarification] are one function: they
    return the same text for every response and every list of
    conflicts, and the response itself when no conflict is of high or
    medium severity or a contradiction. *)
Theorem X21_the_two_clarification_writers_agree
    (response : string) (cs : list ConflictInfo) :
  generateClarificationResponse response cs = integrateConflictClarification response cs
  /\ (Forall (fun c => c_severity c = Low /\ c_conflictType c <> Contradiction) cs ->
      integrateConflictClarification response cs = response).
Proof.
  assert (Hf : forall (p : ConflictInfo -> bool) (l : list ConflictInfo),
             filter (fun c => p c = true) l = List.filter p l).
  { intros p l. induction l as [|c l IH]; [reflexivity|].
    cbn [List.filter]. rewrite filter_cons, IH.
    destruct (p c) eqn:E.
    - rewrite decide_True by reflexivity. reflexivity.
    - rewrite decide_False by discriminate. reflexivity. }
  split.
  - unfold generateClarificationResponse, integrateConflictClarification.
    destruct cs as [|c0 cs]; [reflexivity|].
    rewrite (Hf (fun c => Severity_eqb (c_severity c) High
                          || ConflictType_eqb (c_conflictType c) Contradiction)).
    rewrite (Hf (fun c => Severity_eqb (c_severity c) Medium)).
    reflexivity.
  - intros Hlow. unfold integrateConflictClarification.
    assert (Hn : forall p, (forall c, c_severity c = Low /\ c_conflictType c <> Contradiction ->
                                      p c = false) -> List.filter p cs = []).
    { intros p Hp. induction Hlow as [|c cs Hc _ IH]; [reflexivity|].
      cbn [List.filter]. rewrite (Hp c Hc). exact IH. }
    rewrite (Hn isHighPriority), (Hn isMedium); [reflexivity| |].
    + intros c [Hs _]. unfold isMedium. rewrite Hs. reflexivity.
    + intros c [Hs Ht]. unfold isHighPriority. rewrite Hs.
      destruct (c_conflictType c); try reflexivity. contradiction.
Qed.

End Bookkeeping.

(** ** What the fact learner returns *)

Section FactLearnerResults.

Import RealTimeFactLearner.

Lemma factIds_cons now counter n :
  factIds now counter (S n) = (generateFactId now counter).1 :: factIds now (S counter) n.
Proof.
  unfold factIds. cbn [seq fmap list_fmap]. rewrite Nat.add_0_r. f_equal.
  rewrite <- fmap_S_seq, <- list_fmap_compose. apply list_fmap_ext.
  intros _ i _. cbn. rewrite Nat.add_succ_r. reflexivity.
Qed.

Lemma generateFactId_inj now n m :
  (generateFactId now n).1 = (generateFactId now m).1 -> n = m.
Proof.
  unfold generateFactId. cbn [fst]. intros H.
  do 3 apply String.app_inj in H. apply pretty_nat_inj in H. congruence.
Qed.

Lemma NoDup_factIds now counter n : NoDup (factIds now counter n).
Proof.
  unfold factIds. apply NoDup_fmap_2; [|apply NoDup_seq].
  intros i j H. apply generateFactId_inj in H. lia.
Qed.

Lemma applyPatterns_spec now message ps counter :
  let facts := (applyPatterns now message ps counter).1 in
  (applyPatterns now message ps counter).2 = (counter + length facts)%nat
  /\ f_id <$> facts = factIds now counter (length facts)
  /\ (length facts <= length ps)%nat
  /\ Forall (fun fact => f_confidence fact = 0.7%Q /\ f_verified fact = true
                         /\ f_timestamp fact = now /\ f_source fact = message
                         /\ f_category fact ∈ p_category <$> ps) facts.
Proof.
  revert counter. induction ps as [|p ps IH]; intros counter; cbn [applyPatterns].
  - cbn. split; [lia|]. split; [reflexivity|]. split; [lia|constructor].
  - destruct (Regex.exec true (p_pattern p) message) as [m|].
    + unfold generateFactId. cbv zeta. cbn iota.
      specialize (IH (S counter)).
      destruct (applyPatterns now message ps (S counter)) as [rest c2]. cbv zeta in IH.
      cbn [fst snd] in *. destruct IH as (Hc & Hids & Hlen & Hall).
      cbn [length fmap list_fmap]. rewrite factIds_cons.
      split; [lia|]. split; [f_equal; exact Hids|]. split; [lia|].
      constructor.
      * cbn. repeat split. left.
      * eapply Forall_impl; [exact Hall|]. cbn beta. intros f (?&?&?&?&?).
        repeat split; try assumption. right. assumption.
    + specialize (IH counter). cbv zeta in IH. destruct IH as (Hc & Hids & Hlen & Hall).
      split; [exact Hc|]. split; [exact Hids|]. split; [cbn [length]; lia|].
      eapply Forall_impl; [exact Hall|]. cbn beta. intros f (?&?&?&?&?).
      repeat split; try assumption. right. assumption.
Qed.

(** X22: the pattern fallback, for every message: it returns at most
    four facts, one per pattern that matches; each has confidence 0.7,
    is verified, carries the message as its source and has category
    plans, preferences or emotions; none needs verification; the
    result's confidence is 0.7 when a fact was found and 0 otherwise;
    the counter advances by one per fact and the ids
    [fact_<now>_<n>], with consecutive [n], are pairwise distinct.  A
    failed model call and an answer without JSON take this same path. *)
Theorem X22_fallback_extraction_yields_verified_facts_with_fresh_ids
    (now : Z) (factCounter : nat) (message : string) :
  let result := (fallbackFactExtraction now factCounter message).1 in
  let factCounter' := (fallbackFactExtraction now factCounter message).2 in
  (length (r_facts result) <= 4)%nat
  /\ Forall (fallback_fact now message) (r_facts result)
  /\ r_needsVerification result = []
  /\ r_confidence result = (if decide (r_facts result = []) then 0%Q else 0.7%Q)
  /\ factCounter' = (factCounter + length (r_facts result))%nat
  /\ f_id <$> r_facts result = factIds now factCounter (length (r_facts result))
  /\ NoDup (f_id <$> r_facts result)
  /\ parseFactExtractionResponse now factCounter None message
     = fallbackFactExtraction now factCounter message
  /\ (isSimpleMessage message = false ->
      extractFacts now factCounter ModelError message
      = fallbackFactExtraction now factCounter message
      /\ extractFacts now factCounter ModelUnparsable message
         = fallbackFactExtraction now factCounter message).
Proof.
  intros result factCounter'.
  assert (Hsame : parseFactExtractionResponse now factCounter None message
                  = fallbackFactExtraction now factCounter message) by reflexivity.
  assert (Hfail : isSimpleMessage message = false ->
                  extractFacts now factCounter ModelError message
                  = fallbackFactExtraction now factCounter message
                  /\ extractFacts now factCounter ModelUnparsable message
                     = fallbackFactExtraction now factCounter message).
  { intros Hsimple. unfold extractFacts. rewrite Hsimple. split; reflexivity. }
  revert Hsame Hfail. generalize (parseFactExtractionResponse now factCounter None message).
  generalize (extractFacts now factCounter ModelError message).
  generalize (extractFacts now factCounter ModelUnparsable message).
  intros e1 e2 e3 Hsame Hfail.
  subst result factCounter'. unfold fallbackFactExtraction in *.
  pose proof (applyPatterns_spec now message fallbackPatterns factCounter) as H.
  cbv zeta in H. destruct (applyPatterns now message fallbackPatterns factCounter)
    as [facts c]. cbn [fst snd r_facts r_needsVerification r_confidence] in *.
  destruct H as (Hc & Hids & Hlen & Hall).
  split; [exact Hlen|]. split.
  { eapply Forall_impl; [exact Hall|]. cbn beta. intros f (?&?&?&?&Hcat).
    repeat split; try assumption. cbn in Hcat.
    repeat (apply elem_of_cons in Hcat as [->|Hcat]; [repeat constructor|]).
    inversion Hcat. }
  split; [reflexivity|]. split.
  { destruct facts; [reflexivity|]. rewrite decide_False by discriminate. reflexivity. }
  split; [exact Hc|]. split; [exact Hids|]. split.
  { rewrite Hids. apply NoDup_factIds. }
  split; [exact Hsame|exact Hfail].
Qed.

Lemma parseFacts_spec now message (ds : list FactData) counter :
  exists facts nv,
    parseFacts now message (Some <$> ds) counter
    = (Some (facts, nv), (counter + length facts)%nat)
    /\ f_id <$> facts = factIds now counter (length facts)
    /\ answered <$> facts
       = answer <$> List.filter (fun d => Num.geb (d_confidence d) 0.5%Q) ds
    /\ nv = List.filter (fun fact => negb (f_verified fact)) facts
    /\ Forall (fun fact => f_timestamp fact = now /\ f_source fact = message) facts.
Proof.
  revert counter. induction ds as [|d ds IH]; intros counter;
    cbn [fmap list_fmap parseFacts].
  - exists [], []. cbn. rewrite Nat.add_0_r. repeat (split; [reflexivity|]). constructor.
  - cbn [List.filter]. destruct (Num.geb (d_confidence d) 0.5) eqn:E.
    + unfold generateFactId. cbv zeta. cbn iota.
      destruct (IH (S counter)) as (facts & nv & Heq & Hids & Hans & Hnv & Hall).
      change (list_fmap FactData (option FactData) Some ds) with (Some <$> ds).
      rewrite Heq. eexists (_ :: facts), _. split.
      { cbn [length]. rewrite Nat.add_succ_r. reflexivity. }
      cbn [length fmap list_fmap]. rewrite factIds_cons.
      split; [f_equal; exact Hids|]. split; [f_equal; exact Hans|]. split.
      * cbn [List.filter f_verified]. rewrite negb_involutive, Hnv.
        destruct (d_needsVerification d); reflexivity.
      * constructor; [split; reflexivity|exact Hall].
    + apply IH.
Qed.

(** A [null] element ends the loop; the ids of the elements kept before
    it are spent. *)
Lemma parseFacts_null now message (before : list FactData) (rest : list (option FactData))
    counter :
  parseFacts now message ((Some <$> before) ++ None :: rest) counter
  = (None, (counter + length (List.filter (fun d => Num.geb (d_confidence d) 0.5%Q)
                                          before))%nat).
Proof.
  revert counter. induction before as [|d before IH]; intros counter;
    cbn [fmap list_fmap app parseFacts List.filter].
  - cbn [length]. rewrite Nat.add_0_r. reflexivity.
  - destruct (Num.geb (d_confidence d) 0.5) eqn:E.
    + unfold generateFactId. cbv zeta. cbn iota.
      change (list_fmap FactData (option FactData) Some before) with (Some <$> before).
      rewrite IH. cbn [length]. rewrite Nat.add_succ_r. reflexivity.
    + apply IH.
Qed.

Lemma max_list_spec (x : Q) (xs : list Q) :
  Num.max_list x xs ∈ x :: xs
  /\ (forall y, y ∈ x :: xs -> (y <= Num.max_list x xs)%Q).
Proof.
  unfold Num.max_list. revert x. induction xs as [|z xs IH]; intros x; cbn [fold_left].
  - split; [left|]. intros y Hy. apply list_elem_of_singleton in Hy as ->. apply Qle_refl.
  - destruct (IH (Num.max x z)) as [Hin Hmax].
    assert (Hx : (x <= Num.max x z)%Q /\ (z <= Num.max x z)%Q
                 /\ (Num.max x z = x \/ Num.max x z = z)).
    { unfold Num.max. destruct (Num.leb x z) eqn:E.
      - apply leb_spec in E. repeat split; [exact E|apply Qle_refl|auto].
      - apply leb_false in E. repeat split; [apply Qle_refl|apply Qlt_le_weak; exact E|auto]. }
    destruct Hx as (Hx & Hz & Hor). split.
    + apply elem_of_cons in Hin as [Hin|Hin].
      * rewrite Hin. destruct Hor as [-> | ->]; [left|right; left].
      * right. right. exact Hin.
    + intros y Hy. apply elem_of_cons in Hy as [->|Hy].
      * eapply Qle_trans; [exact Hx|]. apply Hmax. left.
      * apply elem_of_cons in Hy as [->|Hy].
        -- eapply Qle_trans; [exact Hz|]. apply Hmax. left.
        -- apply Hmax. right. exact Hy.
Qed.

(** X23: an answer of the model that parses to a list of fact objects:
    the facts returned are the answer's items of confidence at least
    0.5, in order, with the content, category and confidence given
    there; a fact is verified exactly when the item does not ask for
    verification, and [needsVerification] lists the unverified ones;
    the result's confidence is the largest confidence among the facts,
    or 0 without any; the counter advances by one per fact and the ids
    are pairwise distinct.  When the list holds a [null], reading its
    confidence throws: the result is that of the pattern fallback, and
    the fallback draws its ids after those spent on the items kept
    before the [null]. *)
Theorem X23_parsed_answer_keeps_the_items_of_confidence_one_half
    (now : Z) (factCounter : nat) (ds : list FactData) (message : string) :
  let result :=
    (parseFactExtractionResponse now factCounter (Some (Some <$> ds)) message).1 in
  let factCounter' :=
    (parseFactExtractionResponse now factCounter (Some (Some <$> ds)) message).2 in
  answered <$> r_facts result
  = answer <$> List.filter (fun d => Num.geb (d_confidence d) 0.5%Q) ds
  /\ Forall (fun fact => (0.5 <= f_confidence fact)%Q /\ f_timestamp fact = now
                         /\ f_source fact = message) (r_facts result)
  /\ r_needsVerification result
     = List.filter (fun fact => negb (f_verified fact)) (r_facts result)
  /\ (r_facts result = [] -> r_confidence result = 0%Q)
  /\ (r_facts result <> [] ->
      r_confidence result ∈ f_confidence <$> r_facts result
      /\ Forall (fun fact => (f_confidence fact <= r_confidence result)%Q) (r_facts result))
  /\ factCounter' = (factCounter + length (r_facts result))%nat
  /\ f_id <$> r_facts result = factIds now factCounter (length (r_facts result))
  /\ NoDup (f_id <$> r_facts result)
  /\ (forall rest : list (option FactData),
        parseFactExtractionResponse now factCounter
          (Some ((Some <$> ds) ++ None :: rest)%list) message
        = fallbackFactExtraction now
            (factCounter
             + length (List.filter (fun d => Num.geb (d_confidence d) 0.5%Q) ds))
            message).
Proof.
  intros result factCounter'. subst result factCounter'.
  unfold parseFactExtractionResponse.
  destruct (parseFacts_spec now message ds factCounter)
    as (facts & nv & Heq & Hids & Hans & Hnv & Hall).
  rewrite Heq. cbn [fst snd r_facts r_needsVerification r_confidence].
  split; [exact Hans|]. split.
  { apply Forall_forall. intros f Hf.
    pose proof (proj1 (Forall_forall _ _) Hall f Hf) as [Ht Hs].
    split; [|split; assumption].
    assert (Hin : answered f ∈ answer <$> List.filter
                                  (fun d => Num.geb (d_confidence d) 0.5%Q) ds).
    { rewrite <- Hans. apply list_elem_of_fmap. exists f. split; [reflexivity|exact Hf]. }
    apply list_elem_of_fmap in Hin as (d & Hd & Hin).
    apply list_elem_of_In, filter_In in Hin as [_ Hge].
    apply geb_spec in Hge. unfold answered, answer in Hd.
    injection Hd as _ _ Hconf _. rewrite Hconf. exact Hge. }
  split; [exact Hnv|]. split; [intros ->; reflexivity|]. split.
  { intros Hne. destruct facts as [|f facts]; [contradiction|].
    cbn [map]. destruct (max_list_spec (f_confidence f) (map f_confidence facts))
      as [Hin Hmax].
    split; [exact Hin|]. apply Forall_forall. intros g Hg. apply Hmax.
    change (f_confidence g ∈ f_confidence <$> f :: facts).
    apply list_elem_of_fmap. exists g. split; [reflexivity|exact Hg]. }
  split; [reflexivity|]. split; [exact Hids|].
  split; [rewrite Hids; apply NoDup_factIds|].
  intros rest. rewrite parseFacts_null. reflexivity.
Qed.

(** An answer whose second item is [null]: the first item is dropped
    with the rest, and the fallback fact gets the id after the one the
    first item had drawn. *)
Lemma X23_null_item_witness :
  (parseFactExtractionResponse 1000 0
     (Some [Some (mkFactData "Loves spicy food" "preferences" 0.9%Q false); None])
     "I am feeling happy").1
  = mkExtraction
      [mkFact "fact_1000_2" "Current emotion: happy" "emotions" 0.7%Q 1000
              "I am feeling happy" true]
      0.7%Q [].
Proof.
  destruct (X23_parsed_answer_keeps_the_items_of_confidence_one_half 1000 0
              [mkFactData "Loves spicy food" "preferences" 0.9%Q false]
              "I am feeling happy") as (_ & _ & _ & _ & _ & _ & _ & _ & H).
  change [Some (mkFactData "Loves spicy food" "preferences" 0.9%Q false); None]
    with ((Some <$> [mkFactData "Loves spicy food" "preferences" 0.9%Q false])
          ++ [None])%list.
  rewrite (H nil). vm_compute. reflexivity.
Defined.

End FactLearnerResults.

(** ** Content similarity *)

Section Similarity.

Import ConflictResolver.

Lemma split_nonempty sep s : Js.split sep s <> [].
Proof.
  destruct s as [|c s]; cbn [Js.split]; [discriminate|].
  destruct (Ascii.eqb c sep); [discriminate|].
  destruct (Js.split sep s); discriminate.
Qed.

Lemma wordSet_nonempty text : (0 < size (wordSet text))%nat.
Proof.
  unfold wordSet. destruct (Js.split Js.space (Js.toLowerCase text)) as [|w ws] eqn:E.
  - exfalso. exact (split_nonempty _ _ E).
  - cbn [list_to_set]. rewrite size_union_alt, size_singleton. lia.
Qed.

Lemma ratio_in_unit_interval (a b : nat) :
  (a <= b)%nat -> (0 < b)%nat ->
  let r := (inject_Z (Z.of_nat a) / inject_Z (Z.of_nat b))%Q in
  (0 <= r)%Q /\ (r <= 1)%Q /\ (a = b -> (r == 1)%Q) /\ (a = 0%nat -> (r == 0)%Q)
  /\ ((r == 1)%Q -> a = b).
Proof.
  intros Hab Hb r.
  assert (Hpos : (0 < inject_Z (Z.of_nat b))%Q).
  { replace 0%Q with (inject_Z 0) by reflexivity. rewrite <- Zlt_Qlt. lia. }
  assert (Hle : (inject_Z (Z.of_nat a) <= inject_Z (Z.of_nat b))%Q).
  { rewrite <- Zle_Qle. lia. }
  assert (H0 : (0 <= inject_Z (Z.of_nat a))%Q).
  { replace 0%Q with (inject_Z 0) by reflexivity. rewrite <- Zle_Qle. lia. }
  assert (Hnz : ~ (inject_Z (Z.of_nat b) == 0)%Q) by (intros Hz; lra).
  subst r. split; [|split; [|split; [|split]]].
  - apply Qle_shift_div_l; [exact Hpos|lra].
  - apply Qle_shift_div_r; [exact Hpos|lra].
  - intros ->. apply Qmult_inv_r. exact Hnz.
  - intros ->. unfold Qdiv. cbn [Z.of_nat]. change (inject_Z 0) with 0%Q.
    apply Qmult_0_l.
  - intros H1. apply (Qmult_inj_r _ _ (inject_Z (Z.of_nat b))) in H1; [|exact Hnz].
    unfold Qdiv in H1.
    rewrite <- Qmult_assoc, (Qmult_comm (/ _)), Qmult_inv_r in H1 by exact Hnz.
    rewrite Qmult_1_r, Qmult_1_l in H1. unfold Qeq in H1. cbn in H1. lia.
Qed.

Lemma intersection_subseteq_union (X Y : gset string) : X ∩ Y ⊆ X ∪ Y.
Proof.
  intros w Hw. apply elem_of_intersection in Hw as [Hw _].
  apply elem_of_union. left. exact Hw.
Qed.

Lemma size_intersection_le_union (X Y : gset string) :
  (size (X ∩ Y) <= size (X ∪ Y))%nat.
Proof. apply subseteq_size, intersection_subseteq_union. Qed.

Lemma size_union_pos (X Y : gset string) : (0 < size X)%nat -> (0 < size (X ∪ Y))%nat.
Proof.
  intros HX. eapply Nat.lt_le_trans; [exact HX|]. apply subseteq_size, union_subseteq_l.
Qed.

Lemma same_size_same_sets (X Y : gset string) : size (X ∩ Y) = size (X ∪ Y) -> X = Y.
Proof.
  intros Hs.
  assert (Hsame : forall w, w ∈ X ∪ Y -> w ∈ X ∩ Y).
  { intros w Hw. destruct (decide (w ∈ X ∩ Y)) as [|Hn]; [assumption|]. exfalso.
    assert (Hlt : (size (X ∩ Y) < size (X ∪ Y))%nat); [|lia].
    apply subset_size. split; [apply intersection_subseteq_union|].
    intros Hall. apply Hn, Hall, Hw. }
  apply set_eq. intros w. split; intros Hw.
  - assert (Hi : w ∈ X ∩ Y) by (apply Hsame, elem_of_union; left; exact Hw).
    apply elem_of_intersection in Hi as [_ Hi]. exact Hi.
  - assert (Hi : w ∈ X ∩ Y) by (apply Hsame, elem_of_union; right; exact Hw).
    apply elem_of_intersection in Hi as [Hi _]. exact Hi.
Qed.

(** X24: [calculateContentSimilarity] is the share of common words among
    all words of the two contents, letter case ignored: it lies between
    0 and 1, does not depend on the order of its arguments, is 1 exactly
    when the two contents have the same words and 0 when they share
    none.  So a new fact that repeats a stored content word for word, in
    whatever letter case, is reported neither as ambiguous nor as
    inconsistent, whatever its confidence and verification state. *)
Theorem X24_similarity_is_a_symmetric_share_of_common_words (text1 text2 : string) :
  let similarity := calculateContentSimilarity text1 text2 in
  (0 <= similarity)%Q /\ (similarity <= 1)%Q
  /\ calculateContentSimilarity text2 text1 = similarity
  /\ ((similarity == 1)%Q <-> wordSet text1 = wordSet text2)
  /\ (wordSet text1 ## wordSet text2 -> (similarity == 0)%Q)
  /\ (forall cid newFact existingFact,
        Js.toLowerCase (f_content newFact) = Js.toLowerCase (f_content existingFact) ->
        checkAmbiguity cid newFact existingFact = None
        /\ checkInconsistency cid newFact existingFact = None).
Proof.
  intros similarity.
  pose proof size_intersection_le_union as Hsub.
  pose proof size_union_pos as Hne.
  pose proof (ratio_in_unit_interval _ _ (Hsub (wordSet text1) (wordSet text2))
                (Hne _ (wordSet text2) (wordSet_nonempty text1)))
    as (H0 & H1 & Heq & Hzero & Hone).
  cbv zeta in *. fold (calculateContentSimilarity text1 text2) in *.
  split; [exact H0|]. split; [exact H1|]. split.
  { unfold similarity, calculateContentSimilarity. cbv zeta.
    rewrite (comm_L (∩) (wordSet text2)), (comm_L (∪) (wordSet text2)). reflexivity. }
  split.
  { split.
    - intros Hs. apply Hone in Hs. apply same_size_same_sets. exact Hs.
    - intros Hw. apply Heq. rewrite Hw.
      rewrite (idemp_L (∩)), (idemp_L (∪)). reflexivity. }
  split.
  { intros Hdisj. apply Hzero.
    replace (wordSet text1 ∩ wordSet text2) with (∅ : gset string); [apply size_empty|].
    symmetry. apply disjoint_intersection_L. exact Hdisj. }
  intros cid nf ef Hlow.
  assert (Hsim : (calculateContentSimilarity (f_content nf) (f_content ef) == 1)%Q).
  { pose proof (ratio_in_unit_interval _ _
                  (Hsub (wordSet (f_content nf)) (wordSet (f_content ef)))
                  (Hne _ (wordSet (f_content ef)) (wordSet_nonempty (f_content nf))))
      as (_ & _ & Heq' & _).
    apply Heq'. unfold wordSet. rewrite Hlow.
    rewrite (idemp_L (∩)), (idemp_L (∪)). reflexivity. }
  split.
  - unfold checkAmbiguity.
    destruct (String.eqb (f_category nf) (f_category ef) && negb (f_verified nf));
      [|reflexivity].
    cbv zeta.
    replace (Num.ltb (calculateContentSimilarity (f_content nf) (f_content ef)) 0.9)
      with false; [rewrite andb_false_r; reflexivity|].
    symmetry. apply not_true_is_false. intros Hlt. apply ltb_spec in Hlt. lra.
  - unfold checkInconsistency.
    destruct (Num.ltb (f_confidence nf) 0.6 && Num.gtb (f_confidence ef) 0.8);
      [|reflexivity].
    cbv zeta.
    replace (Num.ltb (calculateContentSimilarity (f_content nf) (f_content ef)) 0.8)
      with false; [rewrite andb_false_r; reflexivity|].
    symmetry. apply not_true_is_false. intros Hlt. apply ltb_spec in Hlt. lra.
Qed.

End Similarity.

(** ** Learning from a message *)

Section Learning.

Import RealTimeFactLearner ConflictResolver IntelligentMemoryBank Server.







End Learning.

(** ** The emotion detector's fallback *)

Section EmotionFallback.

Import EmotionDetector.

Lemma hits_le lowerMessage keywords : (hits lowerMessage keywords <= length keywords)%nat.
Proof.
  unfold hits.
  assert (H : forall acc,
             (fold_left (fun acc keyword =>
                           (acc + (if Js.includes lowerMessage keyword then 1 else 0))%nat)
                        keywords acc <= acc + length keywords)%nat).
  { induction keywords as [|k ks IH]; intros acc; cbn [fold_left length]; [lia|].
    etransitivity; [apply IH|]. destruct (Js.includes lowerMessage k); lia. }
  apply (H 0%nat).
Qed.

Lemma keywordScore_bounds lowerMessage keywords :
  keywords <> [] ->
  (0 <= keywordScore lowerMessage keywords)%Q
  /\ (keywordScore lowerMessage keywords <= 1)%Q
  /\ (hits lowerMessage keywords = 0%nat <-> (keywordScore lowerMessage keywords <= 0)%Q).
Proof.
  intros Hne. assert (Hpos : (0 < length keywords)%nat).
  { destruct keywords; [contradiction|cbn; lia]. }
  destruct (ratio_in_unit_interval _ _ (hits_le lowerMessage keywords) Hpos)
    as (H0 & H1 & _ & Hz & _).
  cbv zeta in *. fold (keywordScore lowerMessage keywords) in *.
  split; [exact H0|]. split; [exact H1|]. split.
  - intros Hh. rewrite (Hz Hh). apply Qle_refl.
  - intros Hle. unfold keywordScore in Hle.
    destruct (hits lowerMessage keywords) as [|h]; [reflexivity|]. exfalso.
    assert (Hlt : (0 < inject_Z (Z.of_nat (S h)) / inject_Z (Z.of_nat (length keywords)))%Q).
    { apply Qlt_shift_div_l.
      - replace 0%Q with (inject_Z 0) by reflexivity. rewrite <- Zlt_Qlt. lia.
      - rewrite Qmult_0_l. replace 0%Q with (inject_Z 0) by reflexivity.
        rewrite <- Zlt_Qlt. lia. }
    lra.
Qed.

Lemma emotionKeywords_nonempty entry : entry ∈ emotionKeywords -> entry.2 <> [].
Proof.
  intros H. unfold emotionKeywords in H.
  repeat (apply elem_of_cons in H as [->|H]; [discriminate|]). inversion H.
Qed.

Lemma emotionKeywords_keys entry :
  entry ∈ emotionKeywords -> entry.1 <> Neutral /\ entry.1 <> Frustrated.
Proof.
  intros H. unfold emotionKeywords in H.
  repeat (apply elem_of_cons in H as [->|H]; [split; discriminate|]). inversion H.
Qed.

(** The scores after the loop: an emotion outside the table keeps its
    initial score. *)
Lemma scan_scores_other lowerMessage (l : list (Emotion * list string)) st e :
  e ∉ l.*1 ->
  s_emotionScores (fold_left (scanEmotion lowerMessage) l st) e = s_emotionScores st e.
Proof.
  revert st. induction l as [|entry l IH]; intros st He; [reflexivity|].
  cbn [fold_left]. rewrite IH by (intros Hin; apply He; right; exact Hin).
  unfold scanEmotion. cbv zeta.
  assert (Hne : e <> entry.1) by (intros ->; apply He; left).
  destruct (Num.gtb _ _); cbn [s_emotionScores]; unfold setScore;
    rewrite decide_False by exact Hne; reflexivity.
Qed.

Lemma scan_scores lowerMessage (l : list (Emotion * list string)) st entry :
  NoDup l.*1 -> entry ∈ l ->
  s_emotionScores (fold_left (scanEmotion lowerMessage) l st) entry.1
  = keywordScore lowerMessage entry.2.
Proof.
  revert st. induction l as [|x l IH]; intros st Hnd Hin; [inversion Hin|].
  cbn [fmap list_fmap] in Hnd. apply NoDup_cons in Hnd as [Hx Hnd].
  cbn [fold_left]. apply elem_of_cons in Hin as [->|Hin].
  - rewrite scan_scores_other by exact Hx. unfold scanEmotion. cbv zeta.
    destruct (Num.gtb _ _); cbn [s_emotionScores]; unfold setScore;
      rewrite decide_True by reflexivity; reflexivity.
  - apply IH; assumption.
Qed.

(** The running maximum and the emotion that holds it. *)
Lemma scan_max lowerMessage (l : list (Emotion * list string)) st :
  let st' := fold_left (scanEmotion lowerMessage) l st in
  (s_maxScore st <= s_maxScore st')%Q
  /\ (forall entry, entry ∈ l -> (keywordScore lowerMessage entry.2 <= s_maxScore st')%Q)
  /\ ((s_primaryEmotion st' = s_primaryEmotion st /\ s_maxScore st' = s_maxScore st)
      \/ (exists entry, entry ∈ l /\ s_primaryEmotion st' = entry.1
                        /\ s_maxScore st' = keywordScore lowerMessage entry.2
                        /\ (s_maxScore st < s_maxScore st')%Q)).
Proof.
  revert st. induction l as [|x l IH]; intros st; cbn [fold_left].
  - cbv zeta. split; [apply Qle_refl|]. split; [intros entry H; inversion H|]. left. auto.
  - specialize (IH (scanEmotion lowerMessage st x)). cbv zeta in *.
    destruct IH as (Hle & Hall & Hor).
    set (st' := fold_left (scanEmotion lowerMessage) l (scanEmotion lowerMessage st x)) in *.
    assert (Hstep : (s_maxScore st <= s_maxScore (scanEmotion lowerMessage st x))%Q
                    /\ (keywordScore lowerMessage x.2
                        <= s_maxScore (scanEmotion lowerMessage st x))%Q
                    /\ ((s_primaryEmotion (scanEmotion lowerMessage st x) = s_primaryEmotion st
                         /\ s_maxScore (scanEmotion lowerMessage st x) = s_maxScore st)
                        \/ (s_primaryEmotion (scanEmotion lowerMessage st x) = x.1
                            /\ s_maxScore (scanEmotion lowerMessage st x)
                               = keywordScore lowerMessage x.2
                            /\ (s_maxScore st < keywordScore lowerMessage x.2)%Q))).
    { unfold scanEmotion. cbv zeta.
      destruct (Num.gtb (keywordScore lowerMessage x.2) (s_maxScore st)) eqn:E;
        cbn [s_maxScore s_primaryEmotion].
      - apply ltb_spec in E. split; [lra|]. split; [apply Qle_refl|]. right. auto.
      - unfold Num.gtb, Num.ltb in E. apply negb_false_iff, Qle_bool_iff in E.
        split; [apply Qle_refl|]. split; [exact E|]. left. auto. }
    destruct Hstep as (Hs1 & Hs2 & Hs3).
    split; [lra|]. split.
    + intros entry [->|Hin]%elem_of_cons; [lra|apply Hall, Hin].
    + destruct Hor as [[Hp Hm]|(entry & Hin & Hp & Hm & Hlt)].
      * destruct Hs3 as [[Hp' Hm']|(Hp' & Hm' & Hlt')].
        -- left. split; congruence.
        -- right. exists x. split; [left|]. rewrite Hp, Hm, Hp', Hm'. auto.
      * right. exists entry. split; [right; exact Hin|]. split; [exact Hp|].
        split; [exact Hm|]. lra.
Qed.

Lemma NoDup_emotionKeywords : NoDup emotionKeywords.*1.
Proof. cbn. repeat (constructor; [rewrite ?elem_of_cons, elem_of_nil; intuition discriminate|]). constructor. Qed.

(** X26: the keyword fallback of the emotion detector, for every
    message: every score lies in [0,1], the neutral score is 0.5 and the
    frustrated score 0, the confidence is 0.6 and at most three triggers
    are listed.  The primary emotion is never frustrated; it is neutral
    exactly when no keyword of the table occurs in the message;
    otherwise its score is positive and no emotion of the table scores
    higher.  The intensity is low unless a score exceeds 0.3, and high
    exactly when one exceeds 0.6. *)
Theorem X26_emotion_fallback_picks_the_highest_keyword_share (message : string) :
  let analysis := fallbackEmotionDetection message in
  let lowerMessage := Js.toLowerCase message in
  scores_in_unit_interval analysis
  /\ emotionScores analysis Neutral = 0.5%Q
  /\ emotionScores analysis Frustrated = 0%Q
  /\ confidence analysis = 0.6%Q
  /\ (length (emotionalTriggers analysis) <= 3)%nat
  /\ primaryEmotion analysis <> Frustrated
  /\ (primaryEmotion analysis = Neutral <-> no_keyword lowerMessage)
  /\ (primaryEmotion analysis <> Neutral ->
      (0 < emotionScores analysis (primaryEmotion analysis))%Q
      /\ forall entry, entry ∈ emotionKeywords ->
           (emotionScores analysis entry.1
            <= emotionScores analysis (primaryEmotion analysis))%Q)
  /\ (intensity analysis = HighIntensity
      <-> exists entry, entry ∈ emotionKeywords
                        /\ (0.6 < keywordScore lowerMessage entry.2)%Q)
  /\ (intensity analysis = LowIntensity
      <-> forall entry, entry ∈ emotionKeywords ->
                        (keywordScore lowerMessage entry.2 <= 0.3)%Q).
Proof.
  intros analysis lowerMessage.
  pose proof (scan_max lowerMessage emotionKeywords (mkScan Neutral 0%Q fallbackScores))
    as Hmax.
  pose proof (fun entry => scan_scores lowerMessage emotionKeywords
                             (mkScan Neutral 0%Q fallbackScores) entry NoDup_emotionKeywords)
    as Hsc.
  pose proof (fun e => scan_scores_other lowerMessage emotionKeywords
                         (mkScan Neutral 0%Q fallbackScores) e) as Hother.
  subst analysis. unfold fallbackEmotionDetection, scores_in_unit_interval. cbv zeta in *.
  fold lowerMessage.
  cbn [emotionScores confidence emotionalTriggers primaryEmotion intensity].
  set (st := fold_left (scanEmotion lowerMessage) emotionKeywords
                       (mkScan Neutral 0%Q fallbackScores)) in *.
  cbn [s_maxScore s_primaryEmotion s_emotionScores] in *.
  destruct Hmax as (Hge & Hall & Hor).
  assert (Hbound : forall entry, entry ∈ emotionKeywords ->
                     (0 <= keywordScore lowerMessage entry.2)%Q
                     /\ (keywordScore lowerMessage entry.2 <= 1)%Q
                     /\ (hits lowerMessage entry.2 = 0%nat
                         <-> (keywordScore lowerMessage entry.2 <= 0)%Q)).
  { intros entry Hin. apply keywordScore_bounds, emotionKeywords_nonempty, Hin. }
  assert (Hattained : s_maxScore st = 0%Q
                      \/ exists entry, entry ∈ emotionKeywords
                                       /\ s_maxScore st = keywordScore lowerMessage entry.2).
  { destruct Hor as [[_ Hm]|(entry & Hin & _ & Hm & _)]; [left; exact Hm|].
    right. exists entry. auto. }
  split; [|split; [|split; [|split; [|split; [|split; [|split; [|split; [|split]]]]]]]].
  - intros e. destruct (decide (e ∈ emotionKeywords.*1)) as [Hin|Hout].
    + apply list_elem_of_fmap in Hin as (entry & -> & Hin).
      rewrite (Hsc entry Hin). destruct (Hbound entry Hin) as (? & ? & _). split; assumption.
    + rewrite (Hother e Hout). destruct e; cbn; split; lra.
  - apply Hother. cbn. rewrite !elem_of_cons, elem_of_nil. intuition discriminate.
  - apply Hother. cbn. rewrite !elem_of_cons, elem_of_nil. intuition discriminate.
  - reflexivity.
  - unfold extractTriggers. rewrite length_firstn. lia.
  - destruct Hor as [[-> _]|(entry & Hin & -> & _)]; [discriminate|].
    apply emotionKeywords_keys, Hin.
  - split.
    + intros Hn entry Hin. apply (Hbound entry Hin).
      destruct Hor as [[_ Hm]|(entry' & Hin' & Hp & _)].
      * rewrite <- Hm. apply Hall, Hin.
      * exfalso. rewrite Hn in Hp. symmetry in Hp.
        exact (proj1 (emotionKeywords_keys entry' Hin') Hp).
    + intros Hno. destruct Hor as [[Hp _]|(entry & Hin & _ & Hm & Hlt)]; [exact Hp|].
      exfalso.
      pose proof (proj1 (proj2 (proj2 (Hbound entry Hin))) (Hno entry Hin)) as Hz.
      rewrite Hm in Hlt. lra.
  - intros Hn. destruct Hor as [[Hp _]|(entry & Hin & Hp & Hm & Hlt)]; [contradiction|].
    rewrite Hp, (Hsc entry Hin). split; [rewrite <- Hm; exact Hlt|].
    intros entry' Hin'. rewrite (Hsc entry' Hin'), <- Hm. apply Hall, Hin'.
  - destruct (Num.gtb (s_maxScore st) 0.6) eqn:E.
    + apply ltb_spec in E. split; [intros _|reflexivity].
      destruct Hattained as [Hz|(entry & Hin & Hm)]; [rewrite Hz in E; lra|].
      exists entry. split; [exact Hin|]. rewrite <- Hm. exact E.
    + split; [destruct (Num.gtb (s_maxScore st) 0.3); discriminate|].
      intros (entry & Hin & Hlt). exfalso.
      unfold Num.gtb, Num.ltb in E. apply negb_false_iff, Qle_bool_iff in E.
      pose proof (Hall entry Hin). lra.
  - destruct (Num.gtb (s_maxScore st) 0.6) eqn:E6.
    + apply ltb_spec in E6. split; [discriminate|]. intros Hle. exfalso.
      destruct Hattained as [Hz|(entry & Hin & Hm)]; [rewrite Hz in E6; lra|].
      pose proof (Hle entry Hin). rewrite Hm in E6. lra.
    + destruct (Num.gtb (s_maxScore st) 0.3) eqn:E3.
      * apply ltb_spec in E3. split; [discriminate|]. intros Hle. exfalso.
        destruct Hattained as [Hz|(entry & Hin & Hm)]; [rewrite Hz in E3; lra|].
        pose proof (Hle entry Hin). rewrite Hm in E3. lra.
      * split; [intros _|reflexivity]. intros entry Hin.
        unfold Num.gtb, Num.ltb in E3. apply negb_false_iff, Qle_bool_iff in E3.
        pose proof (Hall entry Hin). lra.
Qed.

End EmotionFallback.

(** ** Anger, greetings and what the detector lets through *)

Section EmotionDetection.

Import EmotionDetector.

Lemma fallback_scores message entry :
  entry ∈ emotionKeywords ->
  emotionScores (fallbackEmotionDetection message) entry.1
  = keywordScore (Js.toLowerCase message) entry.2.
Proof. intros Hin. apply scan_scores; [apply NoDup_emotionKeywords|exact Hin]. Qed.

Lemma fallback_intensity_low message :
  (forall entry, entry ∈ emotionKeywords ->
                 (keywordScore (Js.toLowerCase message) entry.2 <= 0.3)%Q) ->
  intensity (fallbackEmotionDetection message) = LowIntensity.
Proof.
  intros Hle. unfold fallbackEmotionDetection. cbv zeta. cbn [intensity].
  pose proof (scan_max (Js.toLowerCase message) emotionKeywords
                (mkScan Neutral 0%Q fallbackScores)) as (_ & _ & Hor).
  set (st := fold_left _ emotionKeywords _) in *. cbn [s_maxScore] in Hor.
  assert (Hmax : (s_maxScore st <= 0.3)%Q).
  { destruct Hor as [[_ ->]|(entry & Hin & _ & -> & _)]; [lra|apply Hle, Hin]. }
  replace (Num.gtb (s_maxScore st) 0.6) with false.
  - replace (Num.gtb (s_maxScore st) 0.3) with false; [reflexivity|].
    symmetry. apply not_true_is_false. intros H. apply ltb_spec in H. lra.
  - symmetry. apply not_true_is_false. intros H. apply ltb_spec in H. lra.
Qed.

Lemma one_hit_scores_low lowerMessage entry :
  entry ∈ emotionKeywords -> (hits lowerMessage entry.2 <= 1)%nat ->
  (keywordScore lowerMessage entry.2 <= 0.3)%Q.
Proof.
  intros Hin Hh. unfold keywordScore.
  destruct (hits lowerMessage entry.2) as [|[|h]]; [| |lia];
    unfold emotionKeywords in Hin;
    repeat (apply elem_of_cons in Hin as [->|Hin]; [vm_compute; discriminate|]);
    inversion Hin.
Qed.

Lemma anger_threshold (h : nat) :
  (h <= 7)%nat ->
  Num.gtb (inject_Z (Z.of_nat h) / inject_Z (Z.of_nat 7)) 0.3%Q = (3 <=? h)%nat.
Proof.
  intros Hh. do 8 (destruct h as [|h]; [vm_compute; reflexivity|]). lia.
Qed.

(** X27: in the keyword fallback a message counts as angry with Vahant
    exactly when it mentions "vahant" and contains at least three of the
    seven anger keywords; the frustrated score plays no part, it is
    always 0.  A message in which no keyword list is hit more than once
    is of low intensity and is never flagged, however angry its one
    keyword. *)
Theorem X27_angry_with_vahant_takes_three_anger_keywords (message : string) :
  let analysis := fallbackEmotionDetection message in
  let lowerMessage := Js.toLowerCase message in
  isAngryWithVahant analysis
  = Js.includes lowerMessage "vahant" && (3 <=? hits lowerMessage angryKeywords)%nat
  /\ ((forall entry, entry ∈ emotionKeywords -> (hits lowerMessage entry.2 <= 1)%nat) ->
      intensity analysis = LowIntensity /\ isAngryWithVahant analysis = false).
Proof.
  intros analysis lowerMessage.
  assert (Hin : (Angry, angryKeywords) ∈ emotionKeywords).
  { unfold emotionKeywords, angryKeywords. do 2 right. left. }
  assert (Hangry : isAngryWithVahant analysis
                   = Js.includes lowerMessage "vahant"
                     && (3 <=? hits lowerMessage angryKeywords)%nat).
  { pose proof (fallback_scores message _ Hin) as Hs. cbn [fst snd] in Hs.
    assert (Hf : emotionScores (fallbackEmotionDetection message) Frustrated = 0%Q).
    { apply scan_scores_other. cbn. rewrite !elem_of_cons, elem_of_nil.
      intuition discriminate. }
    subst analysis. unfold fallbackEmotionDetection in *. cbv zeta in *.
    cbn [isAngryWithVahant emotionScores] in *. rewrite Hs, Hf.
    fold lowerMessage. f_equal.
    replace (Num.gtb 0 0.3) with false by reflexivity. rewrite orb_false_r.
    unfold keywordScore. apply anger_threshold.
    apply (hits_le lowerMessage angryKeywords). }
  split; [exact Hangry|].
  intros Hone. split.
  - apply fallback_intensity_low. intros entry He.
    apply one_hit_scores_low; [exact He|apply Hone, He].
  - rewrite Hangry. specialize (Hone _ Hin). cbn [snd] in Hone.
    replace (3 <=? hits lowerMessage angryKeywords)%nat with false.
    + apply andb_false_r.
    + symmetry. apply Nat.leb_gt. lia.
Qed.

Lemma clamp_in_unit_interval (x : Q) : in_unit_interval (clamp x).
Proof. apply clamp01_in_unit_interval. Qed.

Lemma fallback_scores_in_unit_interval message e :
  in_unit_interval (emotionScores (fallbackEmotionDetection message) e).
Proof.
  destruct (decide (e ∈ emotionKeywords.*1)) as [Hin|Hout].
  - apply list_elem_of_fmap in Hin as (entry & -> & Hin).
    rewrite (fallback_scores message entry Hin).
    destruct (keywordScore_bounds (Js.toLowerCase message) entry.2
                (emotionKeywords_nonempty entry Hin)) as (? & ? & _).
    split; assumption.
  - unfold fallbackEmotionDetection. cbv zeta. cbn [emotionScores].
    rewrite scan_scores_other by exact Hout. destruct e; cbn; split; lra.
Qed.

(** X28: whatever the conversation and whatever the model answers,
    [detectEmotion] returns scores in [0,1], a confidence in [0,1] and
    at most five triggers.  An empty history gives the neutral default
    with confidence 1.  From an answer that parses, a primary emotion
    that is not one of the nine names becomes neutral and an intensity
    that is not low, medium or high becomes medium; a confidence that is
    missing, not a number or 0 becomes 0.5, one in (0,1] is kept, a
    negative one becomes 0 and one above 1 becomes 1. *)
Theorem X28_detectEmotion_returns_a_sanitised_analysis
    (conversationHistory : list ChatMessage) (model : EmotionModelOutcome) :
  let analysis := detectEmotion conversationHistory model in
  scores_in_unit_interval analysis
  /\ in_unit_interval (confidence analysis)
  /\ (length (emotionalTriggers analysis) <= 5)%nat
  /\ (conversationHistory = [] -> analysis = getDefaultEmotion)
  /\ (forall e, validateEmotion (Some (emotionName e)) = e)
  /\ (forall name, (forall e, emotionName e <> name) -> validateEmotion (Some name) = Neutral)
  /\ (forall name, name <> "low" -> name <> "high" ->
                   validateIntensity (Some name) = MediumIntensity)
  /\ (forall latestMessage answer,
        last conversationHistory = Some latestMessage ->
        isSimpleGreeting (m_text latestMessage) = false ->
        model = EmotionModelParsed answer ->
        primaryEmotion analysis = validateEmotion (j_primaryEmotion answer)
        /\ isAngryWithVahant analysis = j_isAngryWithVahant answer
        /\ (j_confidence answer = None \/ j_confidence answer = Some 0%Q ->
            confidence analysis = 0.5%Q)
        /\ (forall x, j_confidence answer = Some x ->
              ((0 < x)%Q -> (x <= 1)%Q -> (confidence analysis == x)%Q)
              /\ ((x < 0)%Q -> confidence analysis = 0%Q)
              /\ ((1 < x)%Q -> confidence analysis = 1%Q))).
Proof.
  intros analysis.
  assert (Hfb : forall message,
             scores_in_unit_interval (fallbackEmotionDetection message)
             /\ in_unit_interval (confidence (fallbackEmotionDetection message))
             /\ (length (emotionalTriggers (fallbackEmotionDetection message)) <= 5)%nat).
  { intros message. split; [intros e; apply fallback_scores_in_unit_interval|].
    split; [cbn; split; lra|].
    unfold fallbackEmotionDetection, extractTriggers. cbv zeta. cbn [emotionalTriggers].
    rewrite length_firstn. lia. }
  assert (Hparsed : forall answer message,
             scores_in_unit_interval (parseEmotionResponse (Some answer) message)
             /\ in_unit_interval (confidence (parseEmotionResponse (Some answer) message))
             /\ (length (emotionalTriggers (parseEmotionResponse (Some answer) message))
                 <= 5)%nat).
  { intros answer message. unfold parseEmotionResponse, scores_in_unit_interval.
    cbn [emotionScores confidence emotionalTriggers]. split; [|split].
    - intros e. unfold validateEmotionScores.
      destruct (j_emotionScores answer) as [scoresObj|]; [|destruct e; cbn; split; lra].
      destruct (scoresObj e); [apply clamp_in_unit_interval|destruct e; cbn; split; lra].
    - apply clamp_in_unit_interval.
    - destruct (j_emotionalTriggers answer); [rewrite length_firstn; lia|cbn; lia]. }
  split; [|split; [|split; [|split; [|split; [|split; [|split]]]]]].
  - subst analysis. unfold detectEmotion.
    destruct (last conversationHistory) as [m|]; [|intros e; destruct e; cbn; split; lra].
    destruct (isSimpleGreeting (m_text m)); [intros e; destruct e; cbn; split; lra|].
    destruct model; [apply Hfb|apply Hfb|apply Hparsed].
  - subst analysis. unfold detectEmotion.
    destruct (last conversationHistory) as [m|]; [|cbn; split; lra].
    destruct (isSimpleGreeting (m_text m)); [cbn; split; lra|].
    destruct model; [apply Hfb|apply Hfb|apply Hparsed].
  - subst analysis. unfold detectEmotion.
    destruct (last conversationHistory) as [m|]; [|cbn; lia].
    destruct (isSimpleGreeting (m_text m)); [cbn; lia|].
    destruct model; [apply Hfb|apply Hfb|apply Hparsed].
  - intros ->. reflexivity.
  - intros e. destruct e; reflexivity.
  - intros name Hname. unfold validateEmotion.
    destruct (List.find _ validEmotions) as [e|] eqn:E; [|reflexivity].
    apply find_some in E as [_ E]. apply String.eqb_eq in E. exfalso. exact (Hname e E).
  - intros name Hlow Hhigh. unfold validateIntensity.
    destruct (String.eqb name "low") eqn:E1; [apply String.eqb_eq in E1; contradiction|].
    destruct (String.eqb name "medium"); [reflexivity|].
    destruct (String.eqb name "high") eqn:E3; [apply String.eqb_eq in E3; contradiction|].
    reflexivity.
  - intros m answer Hlast Hgreet ->. subst analysis. unfold detectEmotion.
    rewrite Hlast, Hgreet. unfold parseEmotionResponse.
    cbn [primaryEmotion isAngryWithVahant confidence].
    split; [reflexivity|]. split; [reflexivity|]. split.
    + intros [-> | ->]; reflexivity.
    + intros x ->. unfold confidenceOr.
      destruct (Qeq_bool x 0) eqn:E.
      * apply Qeq_bool_iff in E. split; [intros; lra|]. split; intros; lra.
      * destruct (clamp01_cases x) as (Hneg & Hmid & Hbig).
        split; [intros; apply Hmid; lra|]. split; [exact Hneg|exact Hbig].
Qed.

Lemma toLowerCase_app (a b : string) :
  Js.toLowerCase (a ++ b) = Js.toLowerCase a ++ Js.toLowerCase b.
Proof.
  induction a as [|c a IH]; [reflexivity|].
  change (String c a ++ b) with (String c (a ++ b)).
  cbn [Js.toLowerCase]. rewrite IH. reflexivity.
Qed.

Lemma trimEnd_app (a b : string) :
  Js.trimEnd (a ++ b)
  = if String.eqb (Js.trimEnd b) "" then Js.trimEnd a else a ++ Js.trimEnd b.
Proof.
  induction a as [|c a IH].
  - change ("" ++ b) with b. change ("" ++ Js.trimEnd b) with (Js.trimEnd b).
    destruct (Js.trimEnd b); reflexivity.
  - change (String c a ++ b) with (String c (a ++ b)).
    change (String c a ++ Js.trimEnd b) with (String c (a ++ Js.trimEnd b)).
    cbn [Js.trimEnd]. rewrite IH.
    destruct (String.eqb (Js.trimEnd b) "") eqn:E; [reflexivity|].
    destruct (Js.trimEnd b) as [|c' t]; [discriminate|].
    destruct a; reflexivity.
Qed.

Lemma startsWith_app (p s : string) : Js.startsWith (p ++ s) p = true.
Proof.
  induction p as [|c p IH]; [destruct s; reflexivity|].
  change (String c p ++ s) with (String c (p ++ s)). cbn [Js.startsWith].
  rewrite Ascii.eqb_refl. exact IH.
Qed.

Lemma append_assoc (a b c : string) : (a ++ b) ++ c = a ++ b ++ c.
Proof.
  induction a as [|x a IH]; [reflexivity|].
  change ((String x (a ++ b)) ++ c = String x (a ++ b ++ c)).
  change (String x ((a ++ b) ++ c) = String x (a ++ b ++ c)). rewrite IH. reflexivity.
Qed.

Lemma isSimpleGreeting_prefix (G rest : string) :
  Js.toLowerCase G ∈ greetings -> isSimpleGreeting (G ++ " " ++ rest) = true.
Proof.
  intros HG. unfold isSimpleGreeting. cbv zeta.
  rewrite toLowerCase_app, toLowerCase_app.
  set (g := Js.toLowerCase G) in *. set (r := Js.toLowerCase rest).
  change (Js.toLowerCase " ") with " ".
  assert (Htrim : Js.trim (g ++ " " ++ r) = g
                  \/ exists t, Js.trim (g ++ " " ++ r) = g ++ " " ++ t).
  { unfold Js.trim.
    assert (Hstart : Js.trimStart (g ++ " " ++ r) = g ++ " " ++ r /\ Js.trimEnd g = g).
    { unfold greetings in HG.
      repeat (apply elem_of_cons in HG as [->|HG]; [split; reflexivity|]). inversion HG. }
    destruct Hstart as [-> Hg]. rewrite trimEnd_app.
    destruct (String.eqb (Js.trimEnd (" " ++ r)) "") eqn:E; [left; exact Hg|].
    right. change (" " ++ r) with (String " " r) in *. cbn [Js.trimEnd] in *.
    destruct (Js.trimEnd r) as [|c t]; [discriminate E|].
    exists (String c t). reflexivity. }
  apply existsb_exists. exists g. split; [apply list_elem_of_In; exact HG|].
  destruct Htrim as [-> | [t ->]].
  - rewrite String.eqb_refl. reflexivity.
  - rewrite <- append_assoc.
    rewrite startsWith_app. apply orb_true_r.
Qed.

(** X29: a latest message that opens with one of the five greetings, in
    any letter case, followed by a space is answered as a simple
    greeting, whatever follows the greeting and whatever the model
    would say: the analysis is happy, of low intensity, not angry with
    Vahant, with the single trigger "greeting".  The model and the
    keyword fallback are not consulted. *)
Theorem X29_a_greeting_prefix_bypasses_the_analysis
    (earlier : list ChatMessage) (latestMessage : ChatMessage) (model : EmotionModelOutcome)
    (G rest : string) :
  Js.toLowerCase G ∈ greetings ->
  m_text latestMessage = G ++ " " ++ rest ->
  detectEmotion (earlier ++ [latestMessage]) model = greetingEmotion
  /\ primaryEmotion (detectEmotion (earlier ++ [latestMessage]) model) = Happy
  /\ intensity (detectEmotion (earlier ++ [latestMessage]) model) = LowIntensity
  /\ isAngryWithVahant (detectEmotion (earlier ++ [latestMessage]) model) = false
  /\ emotionalTriggers (detectEmotion (earlier ++ [latestMessage]) model) = ["greeting"].
Proof.
  intros HG Htext.
  assert (H : detectEmotion (earlier ++ [latestMessage]) model = greetingEmotion).
  { unfold detectEmotion. rewrite last_snoc, Htext, isSimpleGreeting_prefix by exact HG.
    reflexivity. }
  rewrite H. repeat split; reflexivity.
Qed.

(** A complaint that opens with "Hey": the keyword fallback alone flags
    it as angry with Vahant, the detector answers happy. *)
Lemma X29_greeting_prefix_witness :
  isAngryWithVahant (fallbackEmotionDetection (m_text heyComplaint)) = true
  /\ isAngryWithVahant (detectEmotion [helloMessage; heyComplaint] EmotionModelError) = false.
Proof.
  split; [vm_compute; reflexivity|].
  apply (X29_a_greeting_prefix_bypasses_the_analysis
           [helloMessage] heyComplaint EmotionModelError "Hey"
           "Vahant is so annoying, I am furious, mad and pissed").
  - vm_compute. do 2 right. left.
  - reflexivity.
Defined.

End EmotionDetection.

(** ** The response strategy *)

Section ResponseStrategy.

Import ContextualResponseEngine.

Lemma high_conflict_test (cs : list ConflictInfo) :
  (0 <? length cs)%nat && existsb (fun c => Severity_eqb (c_severity c) High) cs = true
  <-> has_high_conflict cs.
Proof.
  rewrite andb_true_iff, existsb_exists. split.
  - intros [_ (c & Hin & Hs)]. exists c. split; [apply list_elem_of_In; exact Hin|].
    destruct (c_severity c); try discriminate. reflexivity.
  - intros (c & Hin & Hs). split.
    + destruct cs; [inversion Hin|reflexivity].
    + exists c. split; [apply list_elem_of_In; exact Hin|]. rewrite Hs. reflexivity.
Qed.

Lemma arr_includes_spec (xs : list string) (x : string) :
  Js.arr_includes xs x = true <-> x ∈ xs.
Proof.
  unfold Js.arr_includes. rewrite existsb_exists. split.
  - intros (y & Hin & Heq). apply String.eqb_eq in Heq. subst y.
    apply list_elem_of_In. exact Hin.
  - intros Hin. exists x. split; [apply list_elem_of_In; exact Hin|apply String.eqb_refl].
Qed.

(** X30: the strategy is chosen in a fixed order of precedence.  A
    conflict of high severity, and nothing else, gives
    "clarification_required": a medium contradiction leaves the strategy
    to the emotion and the learned facts.  Without one, high intensity
    together with anger at Vahant gives "supportive_roast", before
    sadness, excitement and any learned fact are looked at.  The three
    learning strategies need a learned fact of category plans,
    relationship or preferences; without such a fact and without high
    intensity the turn is an ordinary reply.  The confidence is always
    between 0.7 and 0.95. *)
Theorem X30_the_strategy_follows_a_fixed_precedence (context : ResponseContext) :
  let strategy := determineResponseStrategy context in
  let analysis := emotionAnalysis context in
  (s_type strategy = "clarification_required" <-> has_high_conflict (rc_conflicts context))
  /\ (s_priority strategy = ClarifyFirst <-> has_high_conflict (rc_conflicts context))
  /\ (0.7 <= s_confidence strategy)%Q /\ (s_confidence strategy <= 0.95)%Q
  /\ (~ has_high_conflict (rc_conflicts context) ->
      intensity analysis = HighIntensity -> isAngryWithVahant analysis = true ->
      s_type strategy = "supportive_roast" /\ s_priority strategy = Immediate)
  /\ (s_priority strategy = Immediate -> intensity analysis = HighIntensity)
  /\ (s_priority strategy = Learn ->
      exists fact, fact ∈ learnedFacts context
                   /\ f_category fact ∈ ["plans"; "relationship"; "preferences"])
  /\ (~ has_high_conflict (rc_conflicts context) ->
      intensity analysis <> HighIntensity ->
      Forall (fun fact => f_category fact ∉ ["plans"; "relationship"; "preferences"])
             (learnedFacts context) ->
      s_priority strategy = Respond).
Proof.
  intros strategy analysis. subst strategy analysis.
  pose proof (high_conflict_test (rc_conflicts context)) as Hhigh.
  assert (Hcat : forall name,
             Js.arr_includes (map f_category (learnedFacts context)) name = true ->
             exists fact, fact ∈ learnedFacts context /\ f_category fact = name).
  { intros name H. apply arr_includes_spec in H.
    change (name ∈ f_category <$> learnedFacts context) in H.
    apply list_elem_of_fmap in H as (fact & -> & Hin). eauto. }
  unfold determineResponseStrategy. cbv zeta.
  destruct ((0 <? length (rc_conflicts context))%nat && existsb _ (rc_conflicts context))
    eqn:E1.
  { assert (Hh : has_high_conflict (rc_conflicts context)) by (apply Hhigh; reflexivity).
    cbn [s_type s_priority s_confidence].
    split; [tauto|]. split; [tauto|]. split; [lra|]. split; [lra|].
    split; [intros; contradiction|]. split; [discriminate|]. split; [discriminate|].
    intros; contradiction. }
  assert (Hno : ~ has_high_conflict (rc_conflicts context)).
  { intros H. apply Hhigh in H. discriminate. }
  clear Hhigh E1.
  assert (Hlearn : forall name,
             name ∈ ["plans"; "relationship"; "preferences"] ->
             Js.arr_includes (map f_category (learnedFacts context)) name = true ->
             (exists fact, fact ∈ learnedFacts context
                           /\ f_category fact ∈ ["plans"; "relationship"; "preferences"])
             /\ ~ Forall (fun fact => f_category fact
                                      ∉ ["plans"; "relationship"; "preferences"])
                         (learnedFacts context)).
  { intros name Hname H. destruct (Hcat name H) as (fact & Hin & <-). split.
    - exists fact. split; assumption.
    - intros Hall. exact (proj1 (Forall_forall _ _) Hall fact Hin Hname). }
  assert (Hrest :
    forall strategy,
      strategy
      = (if Js.arr_includes (map f_category (learnedFacts context)) "plans"
         then mkStrategy "plan_acknowledgment" 0.8%Q Learn
         else if Js.arr_includes (map f_category (learnedFacts context)) "relationship"
         then mkStrategy "relationship_focus" 0.8%Q Learn
         else if Js.arr_includes (map f_category (learnedFacts context)) "preferences"
         then mkStrategy "preference_exploration" 0.8%Q Learn
         else if isGreeting (Js.toLowerCase (currentMessage context))
         then mkStrategy "contextual_greeting" 0.9%Q Respond
         else if isQuestion (Js.toLowerCase (currentMessage context))
         then mkStrategy "intelligent_answer" 0.7%Q Respond
         else mkStrategy "adaptive_conversation" 0.8%Q Respond) ->
      s_type strategy <> "clarification_required"
      /\ s_priority strategy <> ClarifyFirst /\ s_priority strategy <> Immediate
      /\ s_type strategy <> "supportive_roast"
      /\ (0.7 <= s_confidence strategy)%Q /\ (s_confidence strategy <= 0.95)%Q
      /\ (s_priority strategy = Learn ->
          exists fact, fact ∈ learnedFacts context
                       /\ f_category fact ∈ ["plans"; "relationship"; "preferences"])
      /\ (Forall (fun fact => f_category fact ∉ ["plans"; "relationship"; "preferences"])
                 (learnedFacts context) ->
          s_priority strategy = Respond)).
  { intros strategy ->.
    destruct (Js.arr_includes _ "plans") eqn:P1.
    { destruct (Hlearn "plans" ltac:(repeat constructor) P1) as [Hex Hnot].
      cbn. repeat split; try discriminate; try lra; [intros _; exact Hex|].
      intros Hall. contradiction. }
    destruct (Js.arr_includes _ "relationship") eqn:P2.
    { destruct (Hlearn "relationship" ltac:(repeat constructor) P2) as [Hex Hnot].
      cbn. repeat split; try discriminate; try lra; [intros _; exact Hex|].
      intros Hall. contradiction. }
    destruct (Js.arr_includes _ "preferences") eqn:P3.
    { destruct (Hlearn "preferences" ltac:(repeat constructor) P3) as [Hex Hnot].
      cbn. repeat split; try discriminate; try lra; [intros _; exact Hex|].
      intros Hall. contradiction. }
    destruct (isGreeting _); [cbn; repeat split; try discriminate; lra|].
    destruct (isQuestion _); cbn; repeat split; try discriminate; lra. }
  destruct (intensity (emotionAnalysis context)) eqn:Ei; cbn [andb].
  - destruct (Hrest _ eq_refl) as (H1 & H2 & H3 & H4 & H5 & H6 & H7 & H8).
    split; [split; [intros; contradiction|intros; contradiction]|].
    split; [split; [intros; contradiction|intros; contradiction]|].
    split; [exact H5|]. split; [exact H6|].
    split; [discriminate|]. split; [intros; contradiction|]. split; [exact H7|].
    intros _ _. exact H8.
  - destruct (Hrest _ eq_refl) as (H1 & H2 & H3 & H4 & H5 & H6 & H7 & H8).
    split; [split; [intros; contradiction|intros; contradiction]|].
    split; [split; [intros; contradiction|intros; contradiction]|].
    split; [exact H5|]. split; [exact H6|].
    split; [discriminate|]. split; [intros; contradiction|]. split; [exact H7|].
    intros _ _. exact H8.
  - destruct (isAngryWithVahant (emotionAnalysis context)) eqn:Ea.
    { cbn [s_type s_priority s_confidence].
      split; [split; [discriminate|intros; contradiction]|].
      split; [split; [discriminate|intros; contradiction]|].
      split; [lra|]. split; [lra|]. split; [auto|]. split; [reflexivity|].
      split; [discriminate|]. intros _ Hni. exfalso. apply Hni. reflexivity. }
    destruct (primaryEmotion (emotionAnalysis context)) eqn:Ep;
      try (cbn [s_type s_priority s_confidence];
           split; [split; [discriminate|intros; contradiction]|];
           split; [split; [discriminate|intros; contradiction]|];
           split; [lra|]; split; [lra|]; split; [discriminate|]; split; [reflexivity|];
           split; [discriminate|]; intros _ Hni; exfalso; apply Hni; reflexivity);
      destruct (Hrest _ eq_refl) as (H1 & H2 & H3 & H4 & H5 & H6 & H7 & H8);
      (split; [split; [intros; contradiction|intros; contradiction]|]);
      (split; [split; [intros; contradiction|intros; contradiction]|]);
      (split; [exact H5|]); (split; [exact H6|]);
      (split; [discriminate|]); (split; [intros; contradiction|]); (split; [exact H7|]);
      intros _ Hni; exfalso; apply Hni; reflexivity.
Qed.

End ResponseStrategy.
